(** * The request/response audit-logging pipeline of ThyApiTestProject

    A shallow embedding of
      - [src/utils/database.util.ts]        (DatabaseUtil, the schema provisioner),
      - [src/services/database.service.ts]  (DatabaseService, the connection manager),
      - [src/repositories/api-log.repository.ts] (ApiLogRepository, the log store),
      - [src/services/api-client.service.ts] (ApiClientService, the instrumented client),
    together with a model of what they talk to: the JavaScript values they
    pass around, the PostgreSQL store behind the pool, and the HTTP
    capability behind the client.

    Asynchronous methods are modelled as computations in a state-and-exception
    monad over one [World]: a call either returns a value or throws a
    JavaScript error, and threads the process state and its environment. *)

From Stdlib Require Import ZArith List String Ascii Bool Lia Arith.
From Stdlib Require Import Permutation Sorted DecimalString RelationClasses.
Import ListNotations.
Set Warnings "-register-all".
Local Open Scope string_scope.
Local Open Scope Z_scope.

(* ===================================================================== *)
(** ** JavaScript values *)
(* ===================================================================== *)

Module Js.

(** The values that travel through the pipeline as [any]: request and
    response bodies, header records.  Numbers are the integers (status
    codes, ids, durations); an object is its list of own properties in
    insertion order. *)
Inductive value : Type :=
| Undefined
| Null
| Bool (b : bool)
| Num (n : Z)
| Str (s : string)
| Arr (items : list value)
| Obj (props : list (string * value)).

(** ToBoolean: what [x ? a : b], [x || y] and [if (x)] test. *)
Definition truthy (v : value) : bool :=
  match v with
  | Undefined | Null => false
  | Bool b => b
  | Num n => negb (n =? 0)
  | Str s => negb (String.eqb s "")
  | Arr _ | Obj _ => true
  end.

(** A thrown value.  The pipeline only reads [message] and [status] of
    what it catches ([error.message], [error.status]); an error without a
    status has [status = None]. *)
Record Error : Type := mkError {
  message : string;
  status : option Z
}.

(** [new Error(msg)] *)
Definition new_Error (msg : string) : Error := mkError msg None.

(** [Record<string, string>] as a JavaScript object. *)
Definition of_record (r : list (string * string)) : value :=
  Obj (map (fun kv => (fst kv, Str (snd kv))) r).

(** Object spread [{...a, ...b}] on records: the keys of [a] in order, a key
    of [b] overwriting in place, then the new keys of [b]. *)
Fixpoint record_set (k v : string) (r : list (string * string)) : list (string * string) :=
  match r with
  | [] => [(k, v)]
  | (k', v') :: r' =>
      if String.eqb k k' then (k', v) :: r' else (k', v') :: record_set k v r'
  end.

Definition spread (a b : list (string * string)) : list (string * string) :=
  fold_left (fun acc kv => record_set (fst kv) (snd kv) acc) b a.

(** *** JSON.stringify *)

Definition hex_digit (n : nat) : ascii :=
  nth n ["0"; "1"; "2"; "3"; "4"; "5"; "6"; "7"; "8"; "9";
         "a"; "b"; "c"; "d"; "e"; "f"]%char "0"%char.

(** The one-character string made of a double quote. *)
Definition dquote : string := String (ascii_of_nat 34) "".

(** QuoteJSONString on one code unit. *)
Definition quote_char (c : ascii) : string :=
  let n := nat_of_ascii c in
  if Nat.eqb n 34 then "\" ++ dquote
  else if Nat.eqb n 92 then "\\"
  else if Nat.eqb n 8 then "\b"
  else if Nat.eqb n 12 then "\f"
  else if Nat.eqb n 10 then "\n"
  else if Nat.eqb n 13 then "\r"
  else if Nat.eqb n 9 then "\t"
  else if Nat.ltb n 32 then
    "\u00" ++ String (hex_digit (n / 16)) (String (hex_digit (n mod 16)) "")
  else String c "".

Fixpoint quote_body (s : string) : string :=
  match s with
  | EmptyString => ""
  | String c s' => quote_char c ++ quote_body s'
  end.

Definition quote (s : string) : string := dquote ++ quote_body s ++ dquote.

Definition string_of_Z (n : Z) : string := NilZero.string_of_int (Z.to_int n).

Fixpoint join (sep : string) (l : list string) : string :=
  match l with
  | [] => ""
  | [x] => x
  | x :: l' => x ++ sep ++ join sep l'
  end.

(** [JSON.stringify v] for a value that is not [undefined] at the top;
    inside an array [undefined] prints as [null], inside an object the
    property is left out. *)
Fixpoint stringify (v : value) : string :=
  match v with
  | Undefined => "null"
  | Null => "null"
  | Bool true => "true"
  | Bool false => "false"
  | Num n => string_of_Z n
  | Str s => quote s
  | Arr items => "[" ++ join "," (map stringify items) ++ "]"
  | Obj props =>
      "{" ++ join ","
        ((fix members (ps : list (string * value)) : list string :=
            match ps with
            | [] => []
            | (_, Undefined) :: ps' => members ps'
            | (k, x) :: ps' => (quote k ++ ":" ++ stringify x) :: members ps'
            end) props) ++ "}"
  end.

End Js.

(* ===================================================================== *)
(** ** The relational store *)
(* ===================================================================== *)

(** What the pool's PostgreSQL server does with the statements the source
    sends it.  The schema is the one [initializeDatabase] creates:
    [api_requests(id serial primary key, endpoint varchar(500) not null,
    method varchar(10) not null, headers jsonb, body jsonb, timestamp)] and
    [api_responses(id serial primary key, request_id integer references
    api_requests(id), status_code integer not null, headers jsonb, body
    jsonb, response_time_ms integer, timestamp)]. *)
Module Pg.

Record RequestRow : Type := mkRequestRow {
  id : Z;
  endpoint : string;
  method : string;
  headers : option string;
  body : option string;
  timestamp : Z
}.

Record ResponseRow : Type := mkResponseRow {
  res_id : Z;
  request_id : Z;
  status_code : Z;
  res_headers : option string;
  res_body : option string;
  response_time_ms : Z;
  res_timestamp : Z
}.

(** A row of [getFailedResponses]: [r.endpoint, r.method, res.*]. *)
Record FailedRow : Type := mkFailedRow {
  f_endpoint : string;
  f_method : string;
  f_response : ResponseRow
}.

(** A row of [getRequestWithResponse]: [r.*] and the response columns,
    null when the left join finds no response. *)
Record JoinedRow : Type := mkJoinedRow {
  j_request : RequestRow;
  j_response : option ResponseRow
}.

(** The statements of the source, one constructor per SQL text, with the
    positional parameters ($1, $2, ...) and the spliced identifiers as
    arguments. *)
Inductive Sql : Type :=
| SchemaExists (schema_name : string)
| TableExists (table_schema table_name : string)
| CreateSchema (if_not_exists : bool) (name : string)
| CreateTable (if_not_exists : bool) (schema table : string)
    (references : option (string * string))
| SelectNow
| InsertRequest (endpoint method : string) (headers body : option string)
| InsertResponse (request_id status_code : Z) (headers body : option string)
    (response_time_ms : Z)
| SelectAllRequests
| SelectAllResponses
| SelectRequestWithResponse (request_id : Z)
| SelectRequestsByEndpoint (pattern : string)
| SelectRequestsByMethod (method : string)
| SelectFailedResponses.

(** [result.rows], by the shape of the statement that produced it. *)
Inductive Result : Type :=
| Done
| Exists (b : bool)
| Inserted (id : Z)
| Timestamp (t : Z)
| RequestRows (rows : list RequestRow)
| ResponseRows (rows : list ResponseRow)
| JoinedRows (rows : list JoinedRow)
| FailedRows (rows : list FailedRow).

Record Store : Type := mkStore {
  schemata : list string;
  tables : list (string * string);
  requests : list RequestRow;
  responses : list ResponseRow;
  requests_seq : Z;
  responses_seq : Z
}.

Definition empty : Store := mkStore [] [] [] [] 1 1.

Definition has_schema (s : Store) (n : string) : bool :=
  existsb (String.eqb n) (schemata s).

Definition has_table (s : Store) (n t : string) : bool :=
  existsb (fun x => String.eqb n (fst x) && String.eqb t (snd x)) (tables s).

(** *** LIKE *)

(** [s LIKE p]: [%] matches any run of characters, [_] any one character,
    a backslash takes the next pattern character literally; reaching a
    backslash that ends the pattern is an error ([None]). *)
Fixpoint like (p s : string) {struct p} : option bool :=
  match p with
  | EmptyString => Some (match s with EmptyString => true | _ => false end)
  | String c p' =>
      if Ascii.eqb c "%" then
        (fix any (s : string) : option bool :=
           match like p' s with
           | None => None
           | Some true => Some true
           | Some false =>
               match s with
               | EmptyString => Some false
               | String _ s' => any s'
               end
           end) s
      else
        match s with
        | EmptyString => Some false
        | String d s' =>
            if Ascii.eqb c "\" then
              match p' with
              | EmptyString => None
              | String c' p'' => if Ascii.eqb c' d then like p'' s' else Some false
              end
            else if Ascii.eqb c "_" || Ascii.eqb c d then like p' s'
            else Some false
        end
  end.

(** *** ORDER BY timestamp DESC *)

Section OrderBy.
Context {A : Type} (key : A -> Z).

Fixpoint insert_desc (x : A) (l : list A) : list A :=
  match l with
  | [] => [x]
  | y :: l' => if key y <? key x then x :: l else y :: insert_desc x l'
  end.

Definition order_by_desc (l : list A) : list A :=
  fold_right insert_desc [] l.
End OrderBy.

(** *** Column types *)

Fixpoint all_spaces (s : string) : bool :=
  match s with
  | EmptyString => true
  | String c s' => Ascii.eqb c " " && all_spaces s'
  end.

(** Storing into [varchar(n)]: a longer value is an error, unless what
    exceeds [n] is spaces only, which are cut off. *)
Definition varchar (n : nat) (s : string) : option string :=
  if (String.length s <=? n)%nat then Some s
  else if all_spaces (substring n (String.length s - n) s)
       then Some (substring 0 n s)
       else None.

(** *** Execution of one statement at clock reading [now] *)

Definition error (msg : string) : Js.Error := Js.new_Error msg.

Definition find_request (s : Store) (i : Z) : option RequestRow :=
  find (fun r => id r =? i) (requests s).

Definition find_response (s : Store) (i : Z) : option ResponseRow :=
  find (fun r => request_id r =? i) (responses s).

(** [FROM api_responses res JOIN api_requests r ON r.id = res.request_id] *)
Definition join_request (s : Store) (res : ResponseRow) : list FailedRow :=
  map (fun r => mkFailedRow (endpoint r) (method r) res)
      (filter (fun r => id r =? request_id res) (requests s)).

(** [FROM api_requests r LEFT JOIN api_responses res ON r.id = res.request_id] *)
Definition left_join_responses (s : Store) (r : RequestRow) : list JoinedRow :=
  match filter (fun res => id r =? request_id res) (responses s) with
  | [] => [mkJoinedRow r None]
  | rs => map (fun res => mkJoinedRow r (Some res)) rs
  end.

(** [WHERE endpoint LIKE pat] *)
Fixpoint select_like (pat : string) (rows : list RequestRow) : option (list RequestRow) :=
  match rows with
  | [] => Some []
  | r :: rows' =>
      match like pat (endpoint r), select_like pat rows' with
      | Some b, Some l => Some (if b then r :: l else l)
      | _, _ => None
      end
  end.

Definition requests_table := ("api_test", "api_requests").
Definition responses_table := ("api_test", "api_responses").

Definition with_requests (s : Store) (k : unit -> (Js.Error + Result) * Store)
  : (Js.Error + Result) * Store :=
  if has_table s (fst requests_table) (snd requests_table) then k tt
  else (inl (error "relation api_test.api_requests does not exist"), s).

Definition with_responses (s : Store) (k : unit -> (Js.Error + Result) * Store)
  : (Js.Error + Result) * Store :=
  if has_table s (fst responses_table) (snd responses_table) then k tt
  else (inl (error "relation api_test.api_responses does not exist"), s).

Definition exec (q : Sql) (now : Z) (s : Store) : (Js.Error + Result) * Store :=
  match q with
  | SchemaExists n => (inr (Exists (has_schema s n)), s)
  | TableExists n t => (inr (Exists (has_table s n t)), s)
  | CreateSchema ine n =>
      if has_schema s n then
        if ine then (inr Done, s)
        else (inl (error "schema already exists"), s)
      else
        (inr Done,
         mkStore (schemata s ++ [n]) (tables s) (requests s) (responses s)
                 (requests_seq s) (responses_seq s))
  | CreateTable ine n t refs =>
      if negb (has_schema s n) then
        (inl (error "schema does not exist"), s)
      else if has_table s n t then
        if ine then (inr Done, s)
        else (inl (error "relation already exists"), s)
      else if match refs with
              | Some (n', t') => negb (has_table s n' t')
              | None => false
              end then
        (inl (error "referenced relation does not exist"), s)
      else
        (inr Done,
         mkStore (schemata s) (tables s ++ [(n, t)]) (requests s) (responses s)
                 (requests_seq s) (responses_seq s))
  | SelectNow => (inr (Timestamp now), s)
  | InsertRequest e m h b =>
      with_requests s (fun _ =>
        let i := requests_seq s in
        let s' := mkStore (schemata s) (tables s) (requests s) (responses s)
                          (i + 1) (responses_seq s) in
        match varchar 500 e, varchar 10 m with
        | Some e', Some m' =>
            (inr (Inserted i),
             mkStore (schemata s) (tables s)
                     (requests s ++ [mkRequestRow i e' m' h b now]) (responses s)
                     (i + 1) (responses_seq s))
        | _, _ => (inl (error "value too long for type character varying"), s')
        end)
  | InsertResponse rid sc h b ms =>
      with_responses s (fun _ =>
        let i := responses_seq s in
        let s' := mkStore (schemata s) (tables s) (requests s) (responses s)
                          (requests_seq s) (i + 1) in
        match find_request s rid with
        | Some _ =>
            (inr (Inserted i),
             mkStore (schemata s) (tables s) (requests s)
                     (responses s ++ [mkResponseRow i rid sc h b ms now])
                     (requests_seq s) (i + 1))
        | None =>
            (inl (error "insert on api_responses violates foreign key constraint"), s')
        end)
  | SelectAllRequests =>
      with_requests s (fun _ =>
        (inr (RequestRows (order_by_desc timestamp (requests s))), s))
  | SelectAllResponses =>
      with_responses s (fun _ =>
        (inr (ResponseRows (order_by_desc res_timestamp (responses s))), s))
  | SelectRequestWithResponse i =>
      with_requests s (fun _ => with_responses s (fun _ =>
        (inr (JoinedRows
               (flat_map (left_join_responses s)
                         (filter (fun r => id r =? i) (requests s)))), s)))
  | SelectRequestsByEndpoint pat =>
      with_requests s (fun _ =>
        match select_like pat (requests s) with
        | Some rows => (inr (RequestRows (order_by_desc timestamp rows)), s)
        | None => (inl (error "LIKE pattern must not end with escape character"), s)
        end)
  | SelectRequestsByMethod m =>
      with_requests s (fun _ =>
        (inr (RequestRows
               (order_by_desc timestamp
                  (filter (fun r => String.eqb (method r) m) (requests s)))), s))
  | SelectFailedResponses =>
      with_responses s (fun _ => with_requests s (fun _ =>
        (inr (FailedRows
               (order_by_desc (fun f => res_timestamp (f_response f))
                  (flat_map (join_request s)
                     (filter (fun res => 400 <=? status_code res) (responses s))))), s)))
  end.

End Pg.

(* ===================================================================== *)
(** ** The HTTP capability *)
(* ===================================================================== *)

Module Http.

Inductive Verb : Type := GET | POST | PUT | PATCH | DELETE.

Definition verb_name (v : Verb) : string :=
  match v with
  | GET => "GET" | POST => "POST" | PUT => "PUT" | PATCH => "PATCH" | DELETE => "DELETE"
  end.

(** One call [apiContext.get/post/put/patch/delete(url, { data, headers })]. *)
Record Request : Type := mkRequest {
  verb : Verb;
  url : string;
  data : Js.value;
  headers : option (list (string * string))
}.

(** Playwright's [APIResponse]: [status()] and the accessors [json()],
    [text()], [headers()], each of which may throw. *)
Record APIResponse : Type := mkAPIResponse {
  status : Z;
  json : Js.Error + Js.value;
  text : Js.Error + string;
  response_headers : Js.Error + list (string * string)
}.

(** How a call ends: with a response or with a transport error, after
    [elapsed] milliseconds. *)
Record Outcome : Type := mkOutcome {
  result : Js.Error + APIResponse;
  elapsed : Z
}.

(** [APIRequestContext] *)
Definition APIRequestContext : Type := Request -> Outcome.

End Http.

(* ===================================================================== *)
(** ** The process and its environment *)
(* ===================================================================== *)

(** The fields of a [DatabaseService] object; pools and containers are
    handles into the world's registry of live resources. *)
Record DatabaseServiceFields : Type := mkDatabaseService {
  pool : option nat;
  container : option nat;
  isTestContainerMode : bool
}.

Record World : Type := mkWorld {
  heap : list DatabaseServiceFields; (* DatabaseService objects, by address *)
  instance : option nat;            (* the static DatabaseService.instance *)
  live_pools : list nat;            (* pools created and not ended *)
  live_containers : list nat;       (* containers started and not stopped *)
  next_handle : nat;
  checked_out : nat;                (* pool clients connected and not released *)
  store : Pg.Store;                 (* the server the pool talks to *)
  statements : list Pg.Sql;         (* statements sent to the server, oldest first *)
  faults : list bool;               (* outcome of the next external operations: true fails *)
  now : Z;                          (* the clock, in milliseconds *)
  production : bool;                (* process.env.NODE_ENV === 'production' *)
  baseUrl : string;                 (* Config.getInstance().getApiConfig().baseUrl *)
  console : list string;            (* console.log/warn/error, oldest first *)
  network : list Http.Request       (* HTTP calls performed, oldest first *)
}.

(** *** Computations *)

Inductive Completion (A : Type) : Type :=
| Return (a : A)
| Throw (e : Js.Error).
Arguments Return {A} a.
Arguments Throw {A} e.

Definition M (A : Type) : Type := World -> Completion A * World.

Definition ret {A} (a : A) : M A := fun w => (Return a, w).

Definition bind {A B} (c : M A) (k : A -> M B) : M B :=
  fun w =>
    match c w with
    | (Return a, w') => k a w'
    | (Throw e, w') => (Throw e, w')
    end.

Definition throw {A} (e : Js.Error) : M A := fun w => (Throw e, w).

(** [try { body } catch (e) { handler }] *)
Definition try_catch {A} (body : M A) (handler : Js.Error -> M A) : M A :=
  fun w =>
    match body w with
    | (Return a, w') => (Return a, w')
    | (Throw e, w') => handler e w'
    end.

(** [try { body } finally { fin }] *)
Definition try_finally {A} (body : M A) (fin : M unit) : M A :=
  fun w =>
    match body w with
    | (Return a, w') =>
        match fin w' with
        | (Return _, w'') => (Return a, w'')
        | (Throw e, w'') => (Throw e, w'')
        end
    | (Throw e, w') =>
        match fin w' with
        | (Return _, w'') => (Throw e, w'')
        | (Throw e', w'') => (Throw e', w'')
        end
    end.

Declare Scope js_scope.
Delimit Scope js_scope with js.
Notation "x <- c ;; k" := (bind c (fun x => k))
  (at level 61, c at next level, right associativity) : js_scope.
Notation "c ;;; k" := (bind c (fun _ => k))
  (at level 61, right associativity) : js_scope.
Local Open Scope js_scope.

Definition gets {A} (f : World -> A) : M A := fun w => (Return (f w), w).
Definition modify (f : World -> World) : M unit := fun w => (Return tt, f w).

(** *** Field updates of the world *)

Definition set_heap (x : list DatabaseServiceFields) (w : World) : World :=
  mkWorld x (instance w) (live_pools w) (live_containers w) (next_handle w)
          (checked_out w) (store w) (statements w) (faults w) (now w)
          (production w) (baseUrl w) (console w) (network w).

Definition set_instance (x : option nat) (w : World) : World :=
  mkWorld (heap w) x (live_pools w) (live_containers w) (next_handle w)
          (checked_out w) (store w) (statements w) (faults w) (now w)
          (production w) (baseUrl w) (console w) (network w).

Definition set_live_pools (x : list nat) (w : World) : World :=
  mkWorld (heap w) (instance w) x (live_containers w) (next_handle w)
          (checked_out w) (store w) (statements w) (faults w) (now w)
          (production w) (baseUrl w) (console w) (network w).

Definition set_live_containers (x : list nat) (w : World) : World :=
  mkWorld (heap w) (instance w) (live_pools w) x (next_handle w)
          (checked_out w) (store w) (statements w) (faults w) (now w)
          (production w) (baseUrl w) (console w) (network w).

Definition set_next_handle (x : nat) (w : World) : World :=
  mkWorld (heap w) (instance w) (live_pools w) (live_containers w) x
          (checked_out w) (store w) (statements w) (faults w) (now w)
          (production w) (baseUrl w) (console w) (network w).

Definition set_checked_out (x : nat) (w : World) : World :=
  mkWorld (heap w) (instance w) (live_pools w) (live_containers w) (next_handle w)
          x (store w) (statements w) (faults w) (now w)
          (production w) (baseUrl w) (console w) (network w).

Definition set_store (x : Pg.Store) (w : World) : World :=
  mkWorld (heap w) (instance w) (live_pools w) (live_containers w) (next_handle w)
          (checked_out w) x (statements w) (faults w) (now w)
          (production w) (baseUrl w) (console w) (network w).

Definition set_statements (x : list Pg.Sql) (w : World) : World :=
  mkWorld (heap w) (instance w) (live_pools w) (live_containers w) (next_handle w)
          (checked_out w) (store w) x (faults w) (now w)
          (production w) (baseUrl w) (console w) (network w).

Definition set_faults (x : list bool) (w : World) : World :=
  mkWorld (heap w) (instance w) (live_pools w) (live_containers w) (next_handle w)
          (checked_out w) (store w) (statements w) x (now w)
          (production w) (baseUrl w) (console w) (network w).

Definition set_now (x : Z) (w : World) : World :=
  mkWorld (heap w) (instance w) (live_pools w) (live_containers w) (next_handle w)
          (checked_out w) (store w) (statements w) (faults w) x
          (production w) (baseUrl w) (console w) (network w).

Definition set_console (x : list string) (w : World) : World :=
  mkWorld (heap w) (instance w) (live_pools w) (live_containers w) (next_handle w)
          (checked_out w) (store w) (statements w) (faults w) (now w)
          (production w) (baseUrl w) x (network w).

Definition set_network (x : list Http.Request) (w : World) : World :=
  mkWorld (heap w) (instance w) (live_pools w) (live_containers w) (next_handle w)
          (checked_out w) (store w) (statements w) (faults w) (now w)
          (production w) (baseUrl w) (console w) x.

(** *** What the process can do to its environment *)

(** [console.log], [console.warn], [console.error] *)
Definition console_log (msg : string) : M unit :=
  modify (fun w => set_console (console w ++ [msg]) w).

(** [Date.now()] *)
Definition Date_now : M Z := gets now.

(** An operation that leaves the process (a network round trip to the
    server, a container start or stop) takes its outcome from the
    environment's script; with the script used up it succeeds. *)
Definition external (what : string) : M unit :=
  fun w =>
    match faults w with
    | [] => (Return tt, w)
    | false :: fs => (Return tt, set_faults fs w)
    | true :: fs => (Throw (Js.new_Error (what ++ " failed")), set_faults fs w)
    end.

Definition alive (h : nat) (l : list nat) : bool := existsb (Nat.eqb h) l.

Definition remove_handle (h : nat) (l : list nat) : list nat :=
  filter (fun x => negb (Nat.eqb h x)) l.

(** [new Pool({...})]: no connection is made yet. *)
Definition new_Pool : M nat :=
  fun w =>
    let p := next_handle w in
    (Return p, set_next_handle (S p) (set_live_pools (live_pools w ++ [p]) w)).

(** The server runs one statement. *)
Definition run_statement (q : Pg.Sql) : M Pg.Result :=
  fun w =>
    match Pg.exec q (now w) (store w) with
    | (inl e, s') => (Throw e, set_store s' w)
    | (inr r, s') => (Return r, set_store s' w)
    end.

(** [pool.query(text, params)] *)
Definition pool_query (p : nat) (q : Pg.Sql) : M Pg.Result :=
  live <- gets (fun w => alive p (live_pools w)) ;;
  if negb live then throw (Js.new_Error "Cannot use a pool after calling end on the pool")
  else
    modify (fun w => set_statements (statements w ++ [q]) w) ;;;
    external "query" ;;;
    run_statement q.

(** [pool.connect()]: the client is a connection of pool [p]. *)
Definition pool_connect (p : nat) : M nat :=
  live <- gets (fun w => alive p (live_pools w)) ;;
  if negb live then throw (Js.new_Error "Cannot use a pool after calling end on the pool")
  else
    external "connect" ;;;
    modify (fun w => set_checked_out (S (checked_out w)) w) ;;;
    ret p.

(** [client.query(text, params)] *)
Definition client_query (client : nat) (q : Pg.Sql) : M Pg.Result :=
  pool_query client q.

(** [client.release()] *)
Definition client_release (client : nat) : M unit :=
  modify (fun w => set_checked_out (Nat.pred (checked_out w)) w).

(** [pool.end()] *)
Definition pool_end (p : nat) : M unit :=
  live <- gets (fun w => alive p (live_pools w)) ;;
  if negb live then throw (Js.new_Error "Called end on pool more than once")
  else
    external "end" ;;;
    modify (fun w => set_live_pools (remove_handle p (live_pools w)) w).

(** [new PostgreSqlContainer('postgres:15-alpine')...start()]: a fresh
    server with an empty database. *)
Definition container_start : M nat :=
  external "container start" ;;;
  fun w =>
    let c := next_handle w in
    (Return c,
     set_store Pg.empty
       (set_next_handle (S c) (set_live_containers (live_containers w ++ [c]) w))).

(** [container.stop()] *)
Definition container_stop (c : nat) : M unit :=
  external "container stop" ;;;
  modify (fun w => set_live_containers (remove_handle c (live_containers w)) w).

(** [result.rows[0].exists] *)
Definition row_exists (r : Pg.Result) : M bool :=
  match r with
  | Pg.Exists b => ret b
  | _ => throw (Js.new_Error "TypeError: Cannot read properties of undefined (reading 'exists')")
  end.

(** [result.rows[0].id] *)
Definition row_id (r : Pg.Result) : M Z :=
  match r with
  | Pg.Inserted i => ret i
  | _ => throw (Js.new_Error "TypeError: Cannot read properties of undefined (reading 'id')")
  end.

(* ===================================================================== *)
(** ** src/utils/database.util.ts *)
(* ===================================================================== *)

Module DatabaseUtil.

Definition ensureSchema (client : nat) (schemaName : string) : M unit :=
  result <- client_query client (Pg.SchemaExists schemaName) ;;
  exists_ <- row_exists result ;;
  if negb exists_ then
    client_query client (Pg.CreateSchema true schemaName) ;;;
    console_log ("Schema '" ++ schemaName ++ "' created successfully")
  else
    console_log ("Schema '" ++ schemaName ++ "' already exists").

Definition ensureTable (client : nat) (schemaName tableName : string)
    (createTableQuery : Pg.Sql) : M unit :=
  result <- client_query client (Pg.TableExists schemaName tableName) ;;
  exists_ <- row_exists result ;;
  if negb exists_ then
    client_query client createTableQuery ;;;
    console_log ("Table '" ++ schemaName ++ "." ++ tableName ++ "' created successfully")
  else
    console_log ("Table '" ++ schemaName ++ "." ++ tableName ++ "' already exists").

Definition createRequestsTableQuery (schemaName : string) : Pg.Sql :=
  Pg.CreateTable true schemaName "api_requests" None.

Definition createResponsesTableQuery (schemaName : string) : Pg.Sql :=
  Pg.CreateTable true schemaName "api_responses" (Some (schemaName, "api_requests")).

Definition initializeDatabase (client : nat) : M unit :=
  let schemaName := "api_test" in
  ensureSchema client schemaName ;;;
  ensureTable client schemaName "api_requests" (createRequestsTableQuery schemaName) ;;;
  ensureTable client schemaName "api_responses" (createResponsesTableQuery schemaName) ;;;
  console_log "Database initialization completed".

End DatabaseUtil.

(* ===================================================================== *)
(** ** Regular expressions *)
(* ===================================================================== *)

(** The regular expressions of the source, without flags, and
    [RegExp.prototype.test] on a pattern anchored at both ends. A string is
    its sequence of code units, each below 256. *)
Module RegExp.

Inductive t : Type :=
| Never                              (* matches nothing *)
| Empty                              (* matches the empty string *)
| Class (p : ascii -> bool)          (* one code unit of a class *)
| Seq (r1 r2 : t)
| Alt (r1 r2 : t)
| Star (r : t).

(** [r+] *)
Definition Plus (r : t) : t := Seq r (Star r).

(** [\s]: WhiteSpace and LineTerminator, here tab, line feed, vertical
    tab, form feed, carriage return, space and no-break space. *)
Definition white_space (c : ascii) : bool :=
  let n := nat_of_ascii c in
  ((n =? 9) || (n =? 10) || (n =? 11) || (n =? 12) || (n =? 13) || (n =? 32)
   || (n =? 160))%nat.

Fixpoint nullable (r : t) : bool :=
  match r with
  | Never => false
  | Empty => true
  | Class _ => false
  | Seq r1 r2 => nullable r1 && nullable r2
  | Alt r1 r2 => nullable r1 || nullable r2
  | Star _ => true
  end.

(** What is left of [r] to match once [c] was read. *)
Fixpoint after (c : ascii) (r : t) : t :=
  match r with
  | Never => Never
  | Empty => Never
  | Class p => if p c then Empty else Never
  | Seq r1 r2 =>
      if nullable r1 then Alt (Seq (after c r1) r2) (after c r2)
      else Seq (after c r1) r2
  | Alt r1 r2 => Alt (after c r1) (after c r2)
  | Star r1 => Seq (after c r1) (Star r1)
  end.

(** [/^r$/.test(s)] *)
Fixpoint test (r : t) (s : string) : bool :=
  match s with
  | EmptyString => nullable r
  | String c s' => test (after c r) s'
  end.

End RegExp.

(* ===================================================================== *)
(** ** src/utils/database.util.ts: class ValidationUtil *)
(* ===================================================================== *)

Module ValidationUtil.

(** [[^\s@]] *)
Definition not_space_or_at (c : ascii) : bool :=
  negb (RegExp.white_space c || Ascii.eqb c "@").

(** [/^[^\s@]+@[^\s@]+\.[^\s@]+$/] *)
Definition emailRegex : RegExp.t :=
  RegExp.Seq (RegExp.Plus (RegExp.Class not_space_or_at))
    (RegExp.Seq (RegExp.Class (Ascii.eqb "@"))
       (RegExp.Seq (RegExp.Plus (RegExp.Class not_space_or_at))
          (RegExp.Seq (RegExp.Class (Ascii.eqb "."))
             (RegExp.Plus (RegExp.Class not_space_or_at))))).

Definition isValidEmail (email : string) : bool :=
  RegExp.test emailRegex email.

End ValidationUtil.

(* ===================================================================== *)
(** ** src/services/database.service.ts *)
(* ===================================================================== *)

Module DatabaseService.

(** [private constructor() {}] with the field initialisers. *)
Definition new_DatabaseService : DatabaseServiceFields :=
  mkDatabaseService None None false.

(** Reading [this.pool], [this.container]. *)
Definition this_fields (this : nat) : M DatabaseServiceFields :=
  fun w =>
    match nth_error (heap w) this with
    | Some o => (Return o, w)
    | None => (Throw (Js.new_Error "TypeError: Cannot read properties of undefined"), w)
    end.

Fixpoint update_at (this : nat) (f : DatabaseServiceFields -> DatabaseServiceFields)
    (h : list DatabaseServiceFields) : list DatabaseServiceFields :=
  match h, this with
  | [], _ => []
  | o :: h', O => f o :: h'
  | o :: h', S n => o :: update_at n f h'
  end.

(** Assigning [this.pool = ...], [this.container = ...]. *)
Definition this_update (this : nat) (f : DatabaseServiceFields -> DatabaseServiceFields)
  : M unit :=
  modify (fun w => set_heap (update_at this f (heap w)) w).

Definition set_pool (p : option nat) (o : DatabaseServiceFields) :=
  mkDatabaseService p (container o) (isTestContainerMode o).
Definition set_container (c : option nat) (o : DatabaseServiceFields) :=
  mkDatabaseService (pool o) c (isTestContainerMode o).
Definition set_isTestContainerMode (b : bool) (o : DatabaseServiceFields) :=
  mkDatabaseService (pool o) (container o) b.

Definition getInstance : M nat :=
  fun w =>
    match instance w with
    | Some a => (Return a, w)
    | None =>
        let a := List.length (heap w) in
        (Return a, set_instance (Some a) (set_heap (heap w ++ [new_DatabaseService]) w))
    end.

Definition initializeTestContainer (this : nat) : M unit :=
  console_log "Starting PostgreSQL container with TestContainers..." ;;;
  c <- container_start ;;
  this_update this (set_container (Some c)) ;;;
  p <- new_Pool ;;
  this_update this (set_pool (Some p)) ;;;
  this_update this (set_isTestContainerMode true) ;;;
  console_log "PostgreSQL container started successfully".

Definition initializeFromConfig (this : nat) : M unit :=
  console_log "Connecting to PostgreSQL from configuration..." ;;;
  p <- new_Pool ;;
  this_update this (set_pool (Some p)) ;;;
  try_catch
    (pool_query p Pg.SelectNow ;;;
     console_log "PostgreSQL connection established successfully")
    (fun error =>
       console_log "Failed to connect to PostgreSQL:" ;;;
       throw error).

Definition initialize (this : nat) (useTestContainer : bool) : M unit :=
  o <- this_fields this ;;
  match pool o with
  | Some _ => console_log "Database connection already initialized"
  | None =>
      prod <- gets production ;;
      (if useTestContainer && negb prod
       then initializeTestContainer this
       else initializeFromConfig this) ;;;
      o' <- this_fields this ;;
      match pool o' with
      | None => throw (Js.new_Error "TypeError: Cannot read properties of null (reading 'connect')")
      | Some p =>
          client <- pool_connect p ;;
          try_finally (DatabaseUtil.initializeDatabase client) (client_release client)
      end
  end.

Definition getPool (this : nat) : M nat :=
  o <- this_fields this ;;
  match pool o with
  | None => throw (Js.new_Error "Database not initialized. Call initialize() first.")
  | Some p => ret p
  end.

Definition getClient (this : nat) : M nat :=
  p <- getPool this ;;
  pool_connect p.

Definition query (this : nat) (q : Pg.Sql) : M Pg.Result :=
  p <- getPool this ;;
  pool_query p q.

Definition close (this : nat) : M unit :=
  o <- this_fields this ;;
  match pool o with
  | Some p =>
      pool_end p ;;;
      this_update this (set_pool None) ;;;
      console_log "Database connection pool closed"
  | None => ret tt
  end ;;;
  o' <- this_fields this ;;
  match container o' with
  | Some c =>
      container_stop c ;;;
      this_update this (set_container None) ;;;
      console_log "PostgreSQL container stopped"
  | None => ret tt
  end.

Definition isInitialized (this : nat) : M bool :=
  o <- this_fields this ;;
  ret (match pool o with Some _ => true | None => false end).

End DatabaseService.

(* ===================================================================== *)
(** ** src/types/index.ts *)
(* ===================================================================== *)

Definition StringRecord : Type := list (string * string).

(** [interface ApiRequest]; an absent [body] is [undefined]. *)
Record ApiRequest : Type := mkApiRequest {
  endpoint : string;
  method : string;
  headers : option StringRecord;
  body : Js.value
}.

(** [interface ApiResponseLog] *)
Record ApiResponseLog : Type := mkApiResponseLog {
  requestId : Z;
  statusCode : Z;
  log_headers : option StringRecord;
  log_body : Js.value;
  responseTimeMs : Z
}.

(** An optional record as the JavaScript value the code tests. *)
Definition record_value (r : option StringRecord) : Js.value :=
  match r with
  | Some h => Js.of_record h
  | None => Js.Undefined
  end.

(* ===================================================================== *)
(** ** src/repositories/api-log.repository.ts *)
(* ===================================================================== *)

Module ApiLogRepository.

Record t : Type := mk { dbService : nat }.

(** [constructor() { this.dbService = DatabaseService.getInstance(); }] *)
Definition new_ApiLogRepository : M t :=
  a <- DatabaseService.getInstance ;;
  ret (mk a).

(** [x ? JSON.stringify(x) : null] *)
Definition json_or_null (x : Js.value) : option string :=
  if Js.truthy x then Some (Js.stringify x) else None.

Definition logRequest (this : t) (request : ApiRequest) : M Z :=
  let headersJson := json_or_null (record_value (headers request)) in
  let bodyJson := json_or_null (body request) in
  result <- DatabaseService.query (dbService this)
              (Pg.InsertRequest (endpoint request) (method request) headersJson bodyJson) ;;
  row_id result.

Definition logResponse (this : t) (response : ApiResponseLog) : M Z :=
  let headersJson := json_or_null (record_value (log_headers response)) in
  let bodyJson := json_or_null (log_body response) in
  result <- DatabaseService.query (dbService this)
              (Pg.InsertResponse (requestId response) (statusCode response)
                                 headersJson bodyJson (responseTimeMs response)) ;;
  row_id result.

(** [result.rows] of the selects. *)
Definition request_rows (r : Pg.Result) : list Pg.RequestRow :=
  match r with Pg.RequestRows rows => rows | _ => [] end.
Definition response_rows (r : Pg.Result) : list Pg.ResponseRow :=
  match r with Pg.ResponseRows rows => rows | _ => [] end.
Definition joined_rows (r : Pg.Result) : list Pg.JoinedRow :=
  match r with Pg.JoinedRows rows => rows | _ => [] end.
Definition failed_rows (r : Pg.Result) : list Pg.FailedRow :=
  match r with Pg.FailedRows rows => rows | _ => [] end.

Definition getAllRequests (this : t) : M (list Pg.RequestRow) :=
  result <- DatabaseService.query (dbService this) Pg.SelectAllRequests ;;
  ret (request_rows result).

Definition getAllResponses (this : t) : M (list Pg.ResponseRow) :=
  result <- DatabaseService.query (dbService this) Pg.SelectAllResponses ;;
  ret (response_rows result).

(** [result.rows[0]], undefined ([None]) when no row matches. *)
Definition getRequestWithResponse (this : t) (requestId : Z) : M (option Pg.JoinedRow) :=
  result <- DatabaseService.query (dbService this) (Pg.SelectRequestWithResponse requestId) ;;
  ret (hd_error (joined_rows result)).

Definition getRequestsByEndpoint (this : t) (endpoint : string) : M (list Pg.RequestRow) :=
  result <- DatabaseService.query (dbService this)
              (Pg.SelectRequestsByEndpoint ("%" ++ endpoint ++ "%")) ;;
  ret (request_rows result).

Definition getRequestsByMethod (this : t) (method : string) : M (list Pg.RequestRow) :=
  result <- DatabaseService.query (dbService this) (Pg.SelectRequestsByMethod method) ;;
  ret (request_rows result).

Definition getFailedResponses (this : t) : M (list Pg.FailedRow) :=
  result <- DatabaseService.query (dbService this) Pg.SelectFailedResponses ;;
  ret (failed_rows result).

End ApiLogRepository.

(* ===================================================================== *)
(** ** src/services/api-client.service.ts *)
(* ===================================================================== *)

Module ApiClientService.

Record t : Type := mk {
  apiContext : Http.APIRequestContext;
  logRepository : option ApiLogRepository.t;
  clientBaseUrl : string;
  enableDbLogging : bool
}.

(** The options of [get]: [{ headers?, params? }]. *)
Record GetOptions : Type := mkGetOptions {
  get_headers : option StringRecord;
  params : option StringRecord
}.

(** The options of [post], [put] and [patch]: [{ data?, headers? }]. *)
Record DataOptions : Type := mkDataOptions {
  data : Js.value;
  data_headers : option StringRecord
}.

(** The options of [delete]: [{ headers? }]. *)
Record DeleteOptions : Type := mkDeleteOptions {
  delete_headers : option StringRecord
}.

Definition new_ApiClientService (apiContext : Http.APIRequestContext)
    (enableDbLogging : bool) : M t :=
  baseUrl <- gets baseUrl ;;
  repo <-
    (if enableDbLogging then
       db <- DatabaseService.getInstance ;;
       initialized <- DatabaseService.isInitialized db ;;
       if initialized then
         r <- ApiLogRepository.new_ApiLogRepository ;;
         ret (Some r)
       else ret None
     else ret None) ;;
  ret (mk apiContext repo baseUrl enableDbLogging).

(** *** new URLSearchParams(params).toString() *)

Definition unreserved (c : ascii) : bool :=
  let n := nat_of_ascii c in
  ((48 <=? n) && (n <=? 57) || (65 <=? n) && (n <=? 90) || (97 <=? n) && (n <=? 122)
   || (n =? 42) || (n =? 45) || (n =? 46) || (n =? 95))%nat.

Definition upper_hex (n : nat) : ascii :=
  nth n ["0"; "1"; "2"; "3"; "4"; "5"; "6"; "7"; "8"; "9";
         "A"; "B"; "C"; "D"; "E"; "F"]%char "0"%char.

Fixpoint form_encode (s : string) : string :=
  match s with
  | EmptyString => ""
  | String c s' =>
      (if unreserved c then String c ""
       else if Ascii.eqb c " " then "+"
       else let n := nat_of_ascii c in
            String "%" (String (upper_hex (n / 16)) (String (upper_hex (n mod 16)) "")))
      ++ form_encode s'
  end.

Definition URLSearchParams_toString (params : StringRecord) : string :=
  Js.join "&" (map (fun kv => form_encode (fst kv) ++ "=" ++ form_encode (snd kv)) params).

Definition buildUrl (this : t) (endpoint : string) (params : option StringRecord) : string :=
  let url := if String.prefix "http" endpoint then endpoint
             else clientBaseUrl this ++ endpoint in
  match params with
  | Some ps => url ++ "?" ++ URLSearchParams_toString ps
  | None => url
  end.

(** [this.apiContext.get/post/...(url, options)], timed by the clock. *)
Definition send (this : t) (req : Http.Request) : M Http.APIResponse :=
  fun w =>
    let o := apiContext this req in
    let w' := set_network (network w ++ [req]) (set_now (now w + Http.elapsed o) w) in
    match Http.result o with
    | inr response => (Return response, w')
    | inl error => (Throw error, w')
    end.

Definition logResponse (this : t) (requestId : Z) (response : Http.APIResponse)
    (startTime : Z) : M unit :=
  match logRepository this with
  | None => ret tt
  | Some repo =>
      t1 <- Date_now ;;
      let responseTime := t1 - startTime in
      let responseBody :=
        match Http.json response with
        | inr v => v
        | inl _ =>
            match Http.text response with
            | inr s => Js.Str s
            | inl _ => Js.Null
            end
        end in
      let responseHeaders :=
        match Http.response_headers response with
        | inr h => h
        | inl _ => []
        end in
      let responseLog :=
        mkApiResponseLog requestId (Http.status response) (Some responseHeaders)
                         responseBody responseTime in
      ApiLogRepository.logResponse repo responseLog ;;;
      ret tt
  end.

(** [error.status || 500] *)
Definition status_or_500 (error : Js.Error) : Z :=
  match Js.status error with
  | Some s => if s =? 0 then 500 else s
  | None => 500
  end.

(** [error.message || 'Unknown error'] *)
Definition message_or_unknown (error : Js.Error) : string :=
  if String.eqb (Js.message error) "" then "Unknown error" else Js.message error.

Definition logErrorResponse (this : t) (requestId : Z) (error : Js.Error)
    (startTime : Z) : M unit :=
  match logRepository this with
  | None => ret tt
  | Some repo =>
      t1 <- Date_now ;;
      let responseTime := t1 - startTime in
      let responseLog :=
        mkApiResponseLog requestId (status_or_500 error) (Some [])
                         (Js.Obj [("error", Js.Str (message_or_unknown error))])
                         responseTime in
      try_catch
        (ApiLogRepository.logResponse repo responseLog ;;; ret tt)
        (fun logError => console_log "Failed to log error response:")
  end.

(** [options.headers || {}] *)
Definition or_empty (h : option StringRecord) : StringRecord :=
  match h with Some r => r | None => [] end.

(** [{ 'Content-Type': 'application/json', ...options.headers }] *)
Definition json_content_type (h : option StringRecord) : StringRecord :=
  Js.spread [("Content-Type", "application/json")] (or_empty h).

Definition get (this : t) (endpoint : string) (options : GetOptions)
  : M Http.APIResponse :=
  let url := buildUrl this endpoint (params options) in
  startTime <- Date_now ;;
  let request := mkApiRequest url "GET"
                   (Some (or_empty (get_headers options))) Js.Undefined in
  requestId <-
    match logRepository this with
    | Some repo =>
        i <- ApiLogRepository.logRequest repo request ;;
        ret (Some i)
    | None => ret None
    end ;;
  try_catch
    (response <- send this (Http.mkRequest Http.GET url Js.Undefined (get_headers options)) ;;
     match requestId with
     | Some i => logResponse this i response startTime
     | None => ret tt
     end ;;;
     ret response)
    (fun error =>
       match requestId with
       | Some i => logErrorResponse this i error startTime
       | None => ret tt
       end ;;;
       throw error).

Definition post (this : t) (endpoint : string) (options : DataOptions)
  : M Http.APIResponse :=
  let url := buildUrl this endpoint None in
  startTime <- Date_now ;;
  let request := mkApiRequest url "POST"
                   (Some (json_content_type (data_headers options))) (data options) in
  requestId <-
    match logRepository this with
    | Some repo =>
        i <- ApiLogRepository.logRequest repo request ;;
        ret (Some i)
    | None => ret None
    end ;;
  try_catch
    (response <- send this (Http.mkRequest Http.POST url (data options) (headers request)) ;;
     match requestId with
     | Some i => logResponse this i response startTime
     | None => ret tt
     end ;;;
     ret response)
    (fun error =>
       match requestId with
       | Some i => logErrorResponse this i error startTime
       | None => ret tt
       end ;;;
       throw error).

Definition put (this : t) (endpoint : string) (options : DataOptions)
  : M Http.APIResponse :=
  let url := buildUrl this endpoint None in
  startTime <- Date_now ;;
  let request := mkApiRequest url "PUT"
                   (Some (json_content_type (data_headers options))) (data options) in
  requestId <-
    match logRepository this with
    | Some repo =>
        i <- ApiLogRepository.logRequest repo request ;;
        ret (Some i)
    | None => ret None
    end ;;
  try_catch
    (response <- send this (Http.mkRequest Http.PUT url (data options) (headers request)) ;;
     match requestId with
     | Some i => logResponse this i response startTime
     | None => ret tt
     end ;;;
     ret response)
    (fun error =>
       match requestId with
       | Some i => logErrorResponse this i error startTime
       | None => ret tt
       end ;;;
       throw error).

Definition patch (this : t) (endpoint : string) (options : DataOptions)
  : M Http.APIResponse :=
  let url := buildUrl this endpoint None in
  startTime <- Date_now ;;
  let request := mkApiRequest url "PATCH"
                   (Some (json_content_type (data_headers options))) (data options) in
  requestId <-
    match logRepository this with
    | Some repo =>
        i <- ApiLogRepository.logRequest repo request ;;
        ret (Some i)
    | None => ret None
    end ;;
  try_catch
    (response <- send this (Http.mkRequest Http.PATCH url (data options) (headers request)) ;;
     match requestId with
     | Some i => logResponse this i response startTime
     | None => ret tt
     end ;;;
     ret response)
    (fun error =>
       match requestId with
       | Some i => logErrorResponse this i error startTime
       | None => ret tt
       end ;;;
       throw error).

Definition delete (this : t) (endpoint : string) (options : DeleteOptions)
  : M Http.APIResponse :=
  let url := buildUrl this endpoint None in
  startTime <- Date_now ;;
  let request := mkApiRequest url "DELETE"
                   (Some (or_empty (delete_headers options))) Js.Undefined in
  requestId <-
    match logRepository this with
    | Some repo =>
        i <- ApiLogRepository.logRequest repo request ;;
        ret (Some i)
    | None => ret None
    end ;;
  try_catch
    (response <- send this (Http.mkRequest Http.DELETE url Js.Undefined (delete_headers options)) ;;
     match requestId with
     | Some i => logResponse this i response startTime
     | None => ret tt
     end ;;;
     ret response)
    (fun error =>
       match requestId with
       | Some i => logErrorResponse this i error startTime
       | None => ret tt
       end ;;;
       throw error).

(** A call of the client, whichever the verb. *)
Inductive Call : Type :=
| Get (endpoint : string) (options : GetOptions)
| Post (endpoint : string) (options : DataOptions)
| Put (endpoint : string) (options : DataOptions)
| Patch (endpoint : string) (options : DataOptions)
| Delete (endpoint : string) (options : DeleteOptions).

Definition perform (this : t) (c : Call) : M Http.APIResponse :=
  match c with
  | Get e o => get this e o
  | Post e o => post this e o
  | Put e o => put this e o
  | Patch e o => patch this e o
  | Delete e o => delete this e o
  end.

End ApiClientService.

(* ===================================================================== *)
(** ** src/fixtures/test.fixture.ts *)
(* ===================================================================== *)

Module Fixture.

(** The [apiClientWithDb] fixture; [use] is the test body. The [return]
    inside the catch block is the flag [returned]. *)
Definition apiClientWithDb (request : Http.APIRequestContext)
    (use : ApiClientService.t -> M unit) : M unit :=
  dbService <- DatabaseService.getInstance ;;
  initialized <- DatabaseService.isInitialized dbService ;;
  returned <-
    (if negb initialized then
       try_catch
         (DatabaseService.initialize dbService true ;;; ret false)
         (fun error =>
            console_log "DB initialization failed, running without DB logging:" ;;;
            client <- ApiClientService.new_ApiClientService request false ;;
            use client ;;;
            ret true)
     else ret false) ;;
  if (returned : bool) then ret tt
  else
    client <- ApiClientService.new_ApiClientService request true ;;
    use client.

End Fixture.

(* ===================================================================== *)
(** ** Reading the verb methods *)
(* ===================================================================== *)

(** The five verb methods are one text with the verb, the headers and the
    body changed.  [request_of] and [http_of] collect what differs, and
    [logged_call] is what is common; [perform_logged_call] below proves that
    every method is [logged_call] at its own request. *)
Module Shape.
Import ApiClientService.

Definition call_endpoint (c : Call) : string :=
  match c with
  | Get e _ | Post e _ | Put e _ | Patch e _ | Delete e _ => e
  end.

Definition call_params (c : Call) : option StringRecord :=
  match c with
  | Get _ o => params o
  | _ => None
  end.

Definition call_url (this : t) (c : Call) : string :=
  buildUrl this (call_endpoint c) (call_params c).

Definition request_of (this : t) (c : Call) : ApiRequest :=
  let url := call_url this c in
  match c with
  | Get _ o => mkApiRequest url "GET" (Some (or_empty (get_headers o))) Js.Undefined
  | Post _ o => mkApiRequest url "POST" (Some (json_content_type (data_headers o))) (data o)
  | Put _ o => mkApiRequest url "PUT" (Some (json_content_type (data_headers o))) (data o)
  | Patch _ o => mkApiRequest url "PATCH" (Some (json_content_type (data_headers o))) (data o)
  | Delete _ o => mkApiRequest url "DELETE" (Some (or_empty (delete_headers o))) Js.Undefined
  end.

Definition http_of (this : t) (c : Call) : Http.Request :=
  let url := call_url this c in
  match c with
  | Get _ o => Http.mkRequest Http.GET url Js.Undefined (get_headers o)
  | Post _ o => Http.mkRequest Http.POST url (data o) (Some (json_content_type (data_headers o)))
  | Put _ o => Http.mkRequest Http.PUT url (data o) (Some (json_content_type (data_headers o)))
  | Patch _ o => Http.mkRequest Http.PATCH url (data o) (Some (json_content_type (data_headers o)))
  | Delete _ o => Http.mkRequest Http.DELETE url Js.Undefined (delete_headers o)
  end.

Definition logged_call (this : t) (request : ApiRequest) (req : Http.Request)
  : M Http.APIResponse :=
  startTime <- Date_now ;;
  requestId <-
    match logRepository this with
    | Some repo =>
        i <- ApiLogRepository.logRequest repo request ;;
        ret (Some i)
    | None => ret None
    end ;;
  try_catch
    (response <- send this req ;;
     match requestId with
     | Some i => logResponse this i response startTime
     | None => ret tt
     end ;;;
     ret response)
    (fun error =>
       match requestId with
       | Some i => logErrorResponse this i error startTime
       | None => ret tt
       end ;;;
       throw error).

(** The world right after the HTTP call [req] of client [this]. *)
Definition after_send (this : t) (req : Http.Request) (w : World) : World :=
  set_network (network w ++ [req])
    (set_now (now w + Http.elapsed (apiContext this req)) w).

(** The record [logResponse] builds from a response. *)
Definition response_log (requestId : Z) (response : Http.APIResponse)
    (responseTime : Z) : ApiResponseLog :=
  mkApiResponseLog requestId (Http.status response)
    (Some match Http.response_headers response with inr h => h | inl _ => [] end)
    match Http.json response with
    | inr v => v
    | inl _ => match Http.text response with inr s => Js.Str s | inl _ => Js.Null end
    end
    responseTime.

(** The record [logErrorResponse] builds from a caught error. *)
Definition error_log (requestId : Z) (error : Js.Error) (responseTime : Z)
  : ApiResponseLog :=
  mkApiResponseLog requestId (status_or_500 error) (Some [])
    (Js.Obj [("error", Js.Str (message_or_unknown error))]) responseTime.

End Shape.

(* ===================================================================== *)
(** ** Spec-side definitions *)
(* ===================================================================== *)

(** Every code unit of [s] is in the class [p]. *)
Fixpoint all_chars (p : ascii -> bool) (s : string) : bool :=
  match s with
  | EmptyString => true
  | String c s' => p c && all_chars p s'
  end.

(** *** URLs, as the standards word them *)


















(** *** What the store takes *)

(** No code unit U+0000 in [s]: the server refuses a text that has one. *)
Definition no_nul (s : string) : bool :=
  all_chars (fun c => negb (nat_of_ascii c =? 0)%nat) s.

(** A value of an [INTEGER] column or parameter: 32 bits, signed. *)
Definition int4 (n : Z) : bool := (-2147483648 <=? n) && (n <=? 2147483647).

(** [p] occurs in [s] as a substring, compared character by character. *)
Fixpoint includes (p s : string) : bool :=
  String.prefix p s ||
  match s with
  | EmptyString => false
  | String _ s' => includes p s'
  end.

(** A JSON text the server takes as [jsonb]: the escape of U+0000 does
    not occur in it. *)
Definition storable_json (x : option string) : bool :=
  match x with
  | None => true
  | Some text => negb (includes "\u0000" text)
  end.

(** No LIKE metacharacter in [p]. *)
Fixpoint plain (p : string) : bool :=
  match p with
  | EmptyString => true
  | String c p' =>
      negb (Ascii.eqb c "%") && negb (Ascii.eqb c "_") && negb (Ascii.eqb c "\")
      && plain p'
  end.

(** The service object at [this] holds a pool that is live. *)
Definition connected (this : nat) (w : World) : bool :=
  match nth_error (heap w) this with
  | Some o =>
      match pool o with
      | Some p => alive p (live_pools w)
      | None => false
      end
  | None => false
  end.

(** Both log tables exist. *)
Definition provisioned (s : Pg.Store) : bool :=
  Pg.has_table s "api_test" "api_requests" && Pg.has_table s "api_test" "api_responses".

(** The integrity the server keeps: the primary key of [api_requests] comes
    from its sequence, and every response references a request. *)
Record consistent (s : Pg.Store) : Prop := mkConsistent {
  ids_below : Forall (fun r => Pg.id r < Pg.requests_seq s) (Pg.requests s);
  ids_unique : NoDup (map Pg.id (Pg.requests s));
  references_hold :
    Forall (fun res => In (Pg.request_id res) (map Pg.id (Pg.requests s))) (Pg.responses s)
}.

(** The keys of a store as a server has them: consistent, the ids of the
    responses below their sequence, and both sequences within the range of
    [SERIAL]. *)
Record keyed (s : Pg.Store) : Prop := mkKeyed {
  keyed_consistent : consistent s;
  response_ids_below : Forall (fun r => Pg.res_id r < Pg.responses_seq s) (Pg.responses s);
  requests_seq_fits : 1 <= Pg.requests_seq s <= 2147483647;
  responses_seq_fits : 1 <= Pg.responses_seq s <= 2147483647
}.

(** *** Histories of a process *)

(** The process at start: no [DatabaseService] yet, no resource, and a
    server in state [s0]. *)
Definition boot (s0 : Pg.Store) (fs : list bool) (t0 : Z) (prod : bool) (base : string)
  : World :=
  mkWorld [] None [] [] 0 0 s0 [] fs t0 prod base [] [].

(** What test code and the environment can do, one step at a time. *)
Inductive Op : Type :=
| OpGetInstance
| OpInitialize (useTestContainer : bool)
| OpClose
| OpQuery (q : Pg.Sql)
| OpGetClient
| OpLogRequest (request : ApiRequest)
| OpLogResponse (response : ApiResponseLog)
| OpPerform (client : ApiClientService.t) (call : ApiClientService.Call)
| OpNewClient (apiContext : Http.APIRequestContext) (enableDbLogging : bool)
| OpFaults (fs : list bool)
| OpTick (dt : Z).

Definition discard {A} (c : M A) : M unit :=
  fun w => (Return tt, snd (c w)).

Definition run_op (op : Op) : M unit :=
  match op with
  | OpGetInstance => discard DatabaseService.getInstance
  | OpInitialize b =>
      discard (a <- DatabaseService.getInstance ;; DatabaseService.initialize a b)
  | OpClose => discard (a <- DatabaseService.getInstance ;; DatabaseService.close a)
  | OpQuery q => discard (a <- DatabaseService.getInstance ;; DatabaseService.query a q)
  | OpGetClient => discard (a <- DatabaseService.getInstance ;; DatabaseService.getClient a)
  | OpLogRequest r =>
      discard (repo <- ApiLogRepository.new_ApiLogRepository ;;
               ApiLogRepository.logRequest repo r)
  | OpLogResponse r =>
      discard (repo <- ApiLogRepository.new_ApiLogRepository ;;
               ApiLogRepository.logResponse repo r)
  | OpPerform client call => discard (ApiClientService.perform client call)
  | OpNewClient ctx b => discard (ApiClientService.new_ApiClientService ctx b)
  | OpFaults fs => modify (set_faults fs)
  | OpTick dt => modify (fun w => set_now (now w + Z.max 0 dt) w)
  end.

Definition run_ops (ops : list Op) (w : World) : World :=
  fold_left (fun w op => snd (run_op op w)) ops w.

(** [logErrorResponse]'s guarded write: the repository call inside its own
    try/catch. *)
Definition guarded_error_write (repo : ApiLogRepository.t) (record : ApiResponseLog)
  : M unit :=
  try_catch
    (ApiLogRepository.logResponse repo record ;;; ret tt)
    (fun logError => console_log "Failed to log error response:").

(* ===================================================================== *)
(** ** Vocabulary of the statements *)
(* ===================================================================== *)

(** The world once statement [q] was sent and the environment gave its
    outcome. *)
Definition sent (q : Pg.Sql) (w : World) : World :=
  let w1 := set_statements (statements w ++ [q]) w in
  match faults w with
  | [] => w1
  | _ :: fs => set_faults fs w1
  end.

(** What no query touches. *)
Record untouched (w w' : World) : Prop := mkUntouched {
  same_heap : heap w' = heap w;
  same_instance : instance w' = instance w;
  same_live_pools : live_pools w' = live_pools w;
  same_live_containers : live_containers w' = live_containers w;
  same_now : now w' = now w;
  same_network : network w' = network w
}.

(** The world after statement [q] ran on a healthy connection and left the
    store as [s']. *)
Definition ran (q : Pg.Sql) (s' : Pg.Store) (w : World) : World :=
  set_store s' (set_statements (statements w ++ [q]) w).

(** The world after [msg] went to the console. *)
Definition said (msg : string) (w : World) : World :=
  set_console (console w ++ [msg]) w.

(** The connection of [client] is live and the environment has no failure
    in store for it. *)
Definition healthy (client : nat) (w : World) : Prop :=
  alive client (live_pools w) = true /\ faults w = [].

(** The store with schema [n] in it. *)
Definition schema_created (n : string) (s : Pg.Store) : Pg.Store :=
  if Pg.has_schema s n then s
  else Pg.mkStore (Pg.schemata s ++ [n]) (Pg.tables s) (Pg.requests s) (Pg.responses s)
                  (Pg.requests_seq s) (Pg.responses_seq s).

(** The store with table [n.t] in it. *)
Definition table_created (n t : string) (s : Pg.Store) : Pg.Store :=
  if Pg.has_table s n t then s
  else Pg.mkStore (Pg.schemata s) (Pg.tables s ++ [(n, t)]) (Pg.requests s)
                  (Pg.responses s) (Pg.requests_seq s) (Pg.responses_seq s).

(** Every run of [c] takes a world to one that [R] relates to it. *)
Definition steps (R : World -> World -> Prop) {A : Type} (c : M A) : Prop :=
  forall w, R w (snd (c w)).

(** A consistent store stays consistent. *)
Definition keeps_consistent (w w' : World) : Prop :=
  consistent (store w) -> consistent (store w').

(** The singleton: no service object and no pool, or the one service
    object at address 0 and no live pool but the one it holds. *)
Definition single (w : World) : Prop :=
  match instance w with
  | None => heap w = [] /\ live_pools w = []
  | Some a =>
      a = 0%nat
      /\ exists o, heap w = [o]
                   /\ live_pools w = match pool o with Some p => [p] | None => [] end
  end.

Definition keeps_single (w w' : World) : Prop := single w -> single w'.

(** What the provisioning and the queries leave alone: the service
    objects and the registry of live pools. *)
Definition same_service (w w' : World) : Prop :=
  heap w' = heap w /\ instance w' = instance w /\ live_pools w' = live_pools w.

(** The strings a regular expression matches. *)
Inductive matches : RegExp.t -> string -> Prop :=
| matches_empty : matches RegExp.Empty ""
| matches_class p c : p c = true -> matches (RegExp.Class p) (String c "")
| matches_seq r1 r2 s1 s2 :
    matches r1 s1 -> matches r2 s2 -> matches (RegExp.Seq r1 r2) (s1 ++ s2)
| matches_alt_l r1 r2 s : matches r1 s -> matches (RegExp.Alt r1 r2) s
| matches_alt_r r1 r2 s : matches r2 s -> matches (RegExp.Alt r1 r2) s
| matches_star_nil r : matches (RegExp.Star r) ""
| matches_star_cons r s1 s2 :
    matches r s1 -> matches (RegExp.Star r) s2 -> matches (RegExp.Star r) (s1 ++ s2).

(** A part of an address: not empty, no white space and no at sign in it. *)
Definition address_part (s : string) : Prop :=
  s <> "" /\ all_chars ValidationUtil.not_space_or_at s = true.

(** [r[k]]: the value of property [k] of a record, if it has one. *)
Fixpoint record_get (k : string) (r : list (string * string)) : option string :=
  match r with
  | [] => None
  | (k', v) :: r' => if String.eqb k k' then Some v else record_get k r'
  end.

(** Nothing was deleted between [s] and [s']: the rows and the sequences
    are the same, the catalog has what it had. *)
Definition store_grows (s s' : Pg.Store) : Prop :=
  Pg.requests s' = Pg.requests s
  /\ Pg.responses s' = Pg.responses s
  /\ Pg.requests_seq s' = Pg.requests_seq s
  /\ Pg.responses_seq s' = Pg.responses_seq s
  /\ incl (Pg.schemata s) (Pg.schemata s')
  /\ incl (Pg.tables s) (Pg.tables s').

Definition grows (w w' : World) : Prop := store_grows (store w) (store w').

(** The rest of [initialize] once the pool is there. *)
Definition provision (this : nat) : M unit :=
  bind (DatabaseService.this_fields this)
    (fun o' =>
       match pool o' with
       | None => throw (Js.new_Error
                          "TypeError: Cannot read properties of null (reading 'connect')")
       | Some p =>
           bind (pool_connect p)
             (fun client =>
                try_finally (DatabaseUtil.initializeDatabase client)
                            (client_release client))
       end).

(** As many pool clients are out as before. *)
Definition same_checked_out (w w' : World) : Prop :=
  checked_out w' = checked_out w.

(** The statements a client call may send: the two inserts. *)
Definition is_insert (q : Pg.Sql) : bool :=
  match q with
  | Pg.InsertRequest _ _ _ _ | Pg.InsertResponse _ _ _ _ _ => true
  | _ => false
  end.

Definition is_request_insert (q : Pg.Sql) : bool :=
  match q with
  | Pg.InsertRequest _ _ _ _ => true
  | _ => false
  end.

(** Rows in descending order of [key], ties in any order. *)
Definition descending {A : Type} (key : A -> Z) (l : list A) : Prop :=
  Sorted (fun a b => key b <= key a) l.

(** The store [initializeDatabase] leaves. *)
Definition initialized (s : Pg.Store) : Pg.Store :=
  table_created "api_test" "api_responses"
    (table_created "api_test" "api_requests" (schema_created "api_test" s)).

(* ===================================================================== *)
(** ** A test run *)
(* ===================================================================== *)

(** Concrete worlds and clients, as the fixtures of
    [src/fixtures/test.fixture.ts] set them up against dummyjson.com. *)
Module Scenario.

Definition base : string := "https://dummyjson.com".

(** GET /users/1 answered 200 with a JSON body. *)
Definition ok_response : Http.APIResponse :=
  Http.mkAPIResponse 200
    (inr (Js.Obj [("id", Js.Num 1); ("firstName", Js.Str "Emily")]))
    (inr "{ id: 1, firstName: Emily }")
    (inr [("content-type", "application/json")]).

Definition ctx_ok : Http.APIRequestContext :=
  fun _ => Http.mkOutcome (inr ok_response) 35.

Definition refused : Js.Error := Js.new_Error "connect ECONNREFUSED".

Definition ctx_down : Http.APIRequestContext :=
  fun _ => Http.mkOutcome (inl refused) 12.

(** The worker before anything ran, with an empty server. *)
Definition fresh : World := boot Pg.empty [] 1000 false base.

(** After [DatabaseService.getInstance().initialize(false)]. *)
Definition ready : World := run_ops [OpInitialize false] fresh.

Definition repo : ApiLogRepository.t := ApiLogRepository.mk 0.

(** [new ApiClientService(request, true)] in [ready]. *)
Definition client (ctx : Http.APIRequestContext) : ApiClientService.t :=
  ApiClientService.mk ctx (Some repo) base true.

Definition no_get_options : ApiClientService.GetOptions :=
  ApiClientService.mkGetOptions None None.

Definition get_user : ApiClientService.Call :=
  ApiClientService.Get "/users/1" no_get_options.

Definition delete_user : ApiClientService.Call :=
  ApiClientService.Delete "/users/1" (ApiClientService.mkDeleteOptions None).

(** A POST whose body is the JSON value [false]. *)
Definition post_false : ApiRequest :=
  mkApiRequest "https://dummyjson.com/users/add" "POST"
    (Some [("Content-Type", "application/json")]) (Js.Bool false).


Definition not_found : Http.APIResponse :=
  Http.mkAPIResponse 404
    (inr (Js.Obj [("message", Js.Str "Post with id '9999' not found")]))
    (inr "{ message: not found }")
    (inr [("content-type", "application/json")]).

(** The remote service: users exist, nothing else does. *)
Definition ctx_site : Http.APIRequestContext :=
  fun req =>
    if includes "users" (Http.url req) then Http.mkOutcome (inr ok_response) 35
    else Http.mkOutcome (inr not_found) 20.

Definition new_user : ApiClientService.DataOptions :=
  ApiClientService.mkDataOptions
    (Js.Obj [("firstName", Js.Str "Ada"); ("age", Js.Num 36)]) None.

(** A worker's history: initialization, then three logged calls, GET
    /users/1 (200), GET /posts/9999 (404) and POST /users/add (200). *)
Definition history : list Op :=
  [OpInitialize false;
   OpPerform (client ctx_site) get_user;
   OpPerform (client ctx_site) (ApiClientService.Get "/posts/9999" no_get_options);
   OpPerform (client ctx_site) (ApiClientService.Post "/users/add" new_user)].

Definition logged : World := run_ops history fresh.

(** An endpoint of 601 characters. *)
Definition long_endpoint : string :=
  String "/" (string_of_list_ascii (List.repeat "a"%char 600)).

(** The server drops the connection on the next query. *)
Definition down : World := set_faults [true] ready.

(** The server answers the next query and drops the one after. *)
Definition flaky : World := set_faults [false; true] ready.

End Scenario.

(* ===================================================================== *)
(** * Theorems *)
(* ===================================================================== *)

(** ** The definitions at work *)

Example stringify_object :
  Js.stringify (Js.Obj [("error", Js.Str "boom"); ("n", Js.Num (-12)); ("u", Js.Undefined)])
  = "{" ++ Js.quote "error" ++ ":" ++ Js.quote "boom" ++ "," ++ Js.quote "n" ++ ":-12}".
Proof. reflexivity. Qed.

Example spread_overrides :
  ApiClientService.json_content_type
    (Some [("Authorization", "Bearer t"); ("Content-Type", "text/plain")])
  = [("Content-Type", "text/plain"); ("Authorization", "Bearer t")].
Proof. reflexivity. Qed.

Example buildUrl_relative :
  ApiClientService.buildUrl (Scenario.client Scenario.ctx_ok) "/users"
    (Some [("limit", "5"); ("q", "a b&c")])
  = "https://dummyjson.com/users?limit=5&q=a+b%26c".
Proof. reflexivity. Qed.

Example buildUrl_absolute :
  ApiClientService.buildUrl (Scenario.client Scenario.ctx_ok)
    "https://example.org/ping" None
  = "https://example.org/ping".
Proof. reflexivity. Qed.

Example like_underscore : Pg.like "%user_%" "/users/1" = Some true.
Proof. reflexivity. Qed.

Example like_escaped_underscore : Pg.like "%user\_%" "/users/1" = Some false.
Proof. reflexivity. Qed.

Example like_lone_escape : Pg.like "%\" "/users/1" = None.
Proof. reflexivity. Qed.

Example varchar_cuts_spaces : Pg.varchar 3 "GET  " = Some "GET".
Proof. reflexivity. Qed.

Example varchar_too_long : Pg.varchar 10 "PROPPATCHED" = None.
Proof. reflexivity. Qed.

Example ready_is_provisioned :
  provisioned (store Scenario.ready) = true
  /\ connected 0 Scenario.ready = true
  /\ statements Scenario.ready
     = [Pg.SelectNow;
        Pg.SchemaExists "api_test"; Pg.CreateSchema true "api_test";
        Pg.TableExists "api_test" "api_requests";
        DatabaseUtil.createRequestsTableQuery "api_test";
        Pg.TableExists "api_test" "api_responses";
        DatabaseUtil.createResponsesTableQuery "api_test"].
Proof. repeat split. Qed.

Example logged_calls :
  map (fun r => (Pg.id r, Pg.method r, Pg.endpoint r, Pg.timestamp r))
      (Pg.requests (store Scenario.logged))
  = [(1, "GET", "https://dummyjson.com/users/1", 1000);
     (2, "GET", "https://dummyjson.com/posts/9999", 1035);
     (3, "POST", "https://dummyjson.com/users/add", 1055)]
  /\ map (fun r => (Pg.request_id r, Pg.status_code r, Pg.response_time_ms r))
         (Pg.responses (store Scenario.logged))
     = [(1, 200, 35); (2, 404, 20); (3, 200, 35)].
Proof. split; vm_compute; reflexivity. Qed.

(** ** The instrumented client, step by step *)

Section ClientRuns.
Import ApiClientService Shape.

Lemma perform_logged_call (this : t) (c : Call) :
  perform this c = logged_call this (request_of this c) (http_of this c).
Proof. destruct c; reflexivity. Qed.

Lemma send_run (this : t) (req : Http.Request) (w : World) :
  send this req w =
  (match Http.result (apiContext this req) with
   | inr response => Return response
   | inl error => Throw error
   end, after_send this req w).
Proof. unfold send, after_send. destruct (Http.result _); reflexivity. Qed.

Lemma logResponse_run (this : t) repo i response startTime w :
  logRepository this = Some repo ->
  logResponse this i response startTime w =
  match ApiLogRepository.logResponse repo (response_log i response (now w - startTime)) w with
  | (Return _, w') => (Return tt, w')
  | (Throw e, w') => (Throw e, w')
  end.
Proof.
  intros H. unfold logResponse. rewrite H.
  unfold bind, Date_now, gets, response_log, ret.
  destruct (ApiLogRepository.logResponse _ _ w) as [[x|e] w']; reflexivity.
Qed.

Lemma logErrorResponse_run (this : t) repo i error startTime w :
  logRepository this = Some repo ->
  logErrorResponse this i error startTime w =
  guarded_error_write repo (error_log i error (now w - startTime)) w.
Proof. intros H. unfold logErrorResponse. rewrite H. reflexivity. Qed.

(** The guarded write never throws. *)
Lemma guarded_error_write_returns repo record w :
  fst (guarded_error_write repo record w) = Return tt.
Proof.
  unfold guarded_error_write, try_catch, bind, ret, console_log, modify.
  destruct (ApiLogRepository.logResponse repo record w) as [[x|e] w']; reflexivity.
Qed.

(** Every run of a verb method, by cases on the repository, the request
    write, the HTTP call and the response write. *)
Lemma logged_call_run (this : t) request req w :
  logged_call this request req w =
  match logRepository this with
  | None =>
      (match Http.result (apiContext this req) with
       | inr response => Return response
       | inl error => Throw error
       end, after_send this req w)
  | Some repo =>
      match ApiLogRepository.logRequest repo request w with
      | (Throw e, w1) => (Throw e, w1)
      | (Return i, w1) =>
          let w2 := after_send this req w1 in
          match Http.result (apiContext this req) with
          | inr response =>
              match ApiLogRepository.logResponse repo
                      (response_log i response (now w2 - now w)) w2 with
              | (Return _, w3) => (Return response, w3)
              | (Throw e, w3) =>
                  (Throw e,
                   snd (guarded_error_write repo (error_log i e (now w3 - now w)) w3))
              end
          | inl error =>
              (Throw error,
               snd (guarded_error_write repo (error_log i error (now w2 - now w)) w2))
          end
      end
  end.
Proof.
  unfold logged_call. unfold bind at 1. unfold Date_now, gets.
  destruct (logRepository this) as [repo|] eqn:Hrepo.
  - unfold bind at 1. unfold bind at 1.
    destruct (ApiLogRepository.logRequest repo request w) as [[i|e] w1]; [|reflexivity].
    unfold ret at 1. unfold try_catch. unfold bind at 1. rewrite send_run.
    cbv zeta.
    destruct (Http.result (apiContext this req)) as [error|response].
    + unfold bind. rewrite (logErrorResponse_run _ repo) by assumption.
      pose proof (guarded_error_write_returns repo
                    (error_log i error (now (after_send this req w1) - now w))
                    (after_send this req w1)) as G.
      destruct (guarded_error_write _ _ _) as [c w4]. simpl in G. subst c. reflexivity.
    + unfold bind at 1. rewrite (logResponse_run _ repo) by assumption.
      destruct (ApiLogRepository.logResponse _ _ _) as [[x|e] w3]; [reflexivity|].
      unfold bind. rewrite (logErrorResponse_run _ repo) by assumption.
      pose proof (guarded_error_write_returns repo (error_log i e (now w3 - now w)) w3) as G.
      destruct (guarded_error_write _ _ _) as [c w4]. simpl in G. subst c. reflexivity.
  - unfold bind at 1. unfold ret at 1. unfold try_catch, bind. rewrite send_run.
    destruct (Http.result (apiContext this req)); reflexivity.
Qed.

End ClientRuns.

(** ** What a query does to the world *)

Section QueryRuns.

Lemma pool_query_run (p : nat) (q : Pg.Sql) (w : World) :
  alive p (live_pools w) = true ->
  pool_query p q w =
  match faults w with
  | true :: _ => (Throw (Js.new_Error "query failed"), sent q w)
  | _ =>
      match Pg.exec q (now w) (store w) with
      | (inl e, s') => (Throw e, set_store s' (sent q w))
      | (inr r, s') => (Return r, set_store s' (sent q w))
      end
  end.
Proof.
  intros Hp. unfold pool_query, bind, gets, modify, external, run_statement, sent, throw.
  rewrite Hp. simpl.
  destruct (faults w) as [|[|] fs]; simpl; try reflexivity;
    destruct (Pg.exec q (now w) (store w)) as [[e|r] s']; reflexivity.
Qed.

Lemma query_run (this : nat) (q : Pg.Sql) (w : World) :
  connected this w = true ->
  DatabaseService.query this q w =
  match faults w with
  | true :: _ => (Throw (Js.new_Error "query failed"), sent q w)
  | _ =>
      match Pg.exec q (now w) (store w) with
      | (inl e, s') => (Throw e, set_store s' (sent q w))
      | (inr r, s') => (Return r, set_store s' (sent q w))
      end
  end.
Proof.
  unfold connected. intros H.
  destruct (nth_error (heap w) this) as [o|] eqn:Ho; [|discriminate].
  destruct (pool o) as [p|] eqn:Hp; [|discriminate].
  rewrite <- (pool_query_run p q w H).
  unfold DatabaseService.query, DatabaseService.getPool, DatabaseService.this_fields.
  unfold bind at 1. unfold bind at 1. rewrite Ho, Hp. reflexivity.
Qed.

(** Without a live pool behind [this], the query throws and nothing
    changes: no statement leaves the process. *)
Lemma query_unconnected (this : nat) (q : Pg.Sql) (w : World) :
  connected this w = false ->
  exists e, DatabaseService.query this q w = (Throw e, w).
Proof.
  unfold connected, DatabaseService.query, DatabaseService.getPool,
    DatabaseService.this_fields, pool_query, bind, gets, throw.
  intros H.
  destruct (nth_error (heap w) this) as [o|]; [|eauto].
  destruct (pool o) as [p|]; [|eauto].
  simpl. rewrite H. simpl. eauto.
Qed.

(** A query that returns was sent over a live pool. *)
Lemma query_returns_connected (this : nat) (q : Pg.Sql) (w w' : World) r :
  DatabaseService.query this q w = (Return r, w') ->
  connected this w = true.
Proof.
  intros H. destruct (connected this w) eqn:C; [reflexivity|].
  destruct (query_unconnected this q w C) as [e He]. congruence.
Qed.

Lemma untouched_refl w : untouched w w.
Proof. constructor; reflexivity. Qed.

Lemma untouched_trans w1 w2 w3 : untouched w1 w2 -> untouched w2 w3 -> untouched w1 w3.
Proof.
  intros A B. destruct A, B.
  constructor; etransitivity; eassumption.
Qed.

Lemma untouched_sent q w s' : untouched w (set_store s' (sent q w)).
Proof. unfold sent. destruct (faults w); constructor; reflexivity. Qed.

Lemma untouched_sent' q w : untouched w (sent q w).
Proof. unfold sent. destruct (faults w); constructor; reflexivity. Qed.

Lemma query_untouched (this : nat) (q : Pg.Sql) (w : World) :
  untouched w (snd (DatabaseService.query this q w)).
Proof.
  destruct (connected this w) eqn:C.
  - rewrite query_run by assumption.
    destruct (faults w) as [|[|] fs]; simpl;
      try apply untouched_sent';
      destruct (Pg.exec q (now w) (store w)) as [[e|r] s']; apply untouched_sent.
  - destruct (query_unconnected this q w C) as [e ->]. apply untouched_refl.
Qed.

Lemma connected_untouched this w w' :
  untouched w w' -> connected this w' = connected this w.
Proof.
  intros U. unfold connected.
  rewrite (same_heap _ _ U), (same_live_pools _ _ U). reflexivity.
Qed.

Lemma row_id_run r w : snd (row_id r w) = w.
Proof. destruct r; reflexivity. Qed.

Lemma logRequest_run (repo : ApiLogRepository.t) (request : ApiRequest) (w : World) :
  ApiLogRepository.logRequest repo request w =
  match DatabaseService.query (ApiLogRepository.dbService repo)
          (Pg.InsertRequest (endpoint request) (method request)
             (ApiLogRepository.json_or_null (record_value (headers request)))
             (ApiLogRepository.json_or_null (body request))) w with
  | (Return r, w') => row_id r w'
  | (Throw e, w') => (Throw e, w')
  end.
Proof. reflexivity. Qed.

Lemma logResponse_repo_run (repo : ApiLogRepository.t) (response : ApiResponseLog) (w : World) :
  ApiLogRepository.logResponse repo response w =
  match DatabaseService.query (ApiLogRepository.dbService repo)
          (Pg.InsertResponse (requestId response) (statusCode response)
             (ApiLogRepository.json_or_null (record_value (log_headers response)))
             (ApiLogRepository.json_or_null (log_body response))
             (responseTimeMs response)) w with
  | (Return r, w') => row_id r w'
  | (Throw e, w') => (Throw e, w')
  end.
Proof. reflexivity. Qed.

Lemma logRequest_untouched repo request w :
  untouched w (snd (ApiLogRepository.logRequest repo request w)).
Proof.
  rewrite logRequest_run.
  pose proof (query_untouched (ApiLogRepository.dbService repo)
    (Pg.InsertRequest (endpoint request) (method request)
       (ApiLogRepository.json_or_null (record_value (headers request)))
       (ApiLogRepository.json_or_null (body request))) w) as U.
  destruct (DatabaseService.query _ _ w) as [[r|e] w']; simpl in *; [|exact U].
  rewrite row_id_run. exact U.
Qed.

Lemma logRequest_returns_connected repo request w i w' :
  ApiLogRepository.logRequest repo request w = (Return i, w') ->
  connected (ApiLogRepository.dbService repo) w = true.
Proof.
  rewrite logRequest_run. intros H.
  destruct (DatabaseService.query _ _ w) as [[r|e] w1] eqn:Q; [|discriminate].
  eapply query_returns_connected; eauto.
Qed.


Lemma guarded_error_write_eq repo record w :
  guarded_error_write repo record w =
  match ApiLogRepository.logResponse repo record w with
  | (Return _, w') => (Return tt, w')
  | (Throw e, w') =>
      (Return tt, set_console (console w' ++ ["Failed to log error response:"]) w')
  end.
Proof.
  unfold guarded_error_write, try_catch, bind, ret.
  destruct (ApiLogRepository.logResponse repo record w) as [[x|e] w']; reflexivity.
Qed.


Lemma statements_sent q w : statements (sent q w) = (statements w ++ [q])%list.
Proof. unfold sent. destruct (faults w); reflexivity. Qed.

End QueryRuns.

(** ** The claims on the instrumented client *)

Section ClientClaims.
Import ApiClientService Shape.

Lemma guarded_error_write_run repo record w :
  connected (ApiLogRepository.dbService repo) w = true ->
  let q := Pg.InsertResponse (requestId record) (statusCode record)
             (ApiLogRepository.json_or_null (record_value (log_headers record)))
             (ApiLogRepository.json_or_null (log_body record))
             (responseTimeMs record) in
  statements (snd (guarded_error_write repo record w)) = (statements w ++ [q])%list
  /\ forall e w3,
       ApiLogRepository.logResponse repo record w = (Throw e, w3) ->
       snd (guarded_error_write repo record w)
       = set_console (console w3 ++ ["Failed to log error response:"]) w3.
Proof.
  intros C q. rewrite guarded_error_write_eq. split.
  - rewrite logResponse_repo_run. fold q. clearbody q.
    rewrite query_run by assumption.
    rewrite <- (statements_sent q w).
    destruct (faults w) as [|[|] fs]; try reflexivity;
      destruct (Pg.exec q (now w) (store w)) as [[e|r] s']; try reflexivity;
      destruct r; reflexivity.
  - intros e w3 H. rewrite H. reflexivity.
Qed.

(** C2. When a request id was captured and the HTTP call throws a
    transport error, the client sends one error ResponseRecord to the store:
    status 500 unless the error has a status of its own, body
    [{ error: message }]; when that write fails, only a console warning
    remains of the failure; and whatever the write did, the caller gets the
    transport error itself. *)
Theorem C2_transport_error_logged_and_reraised :
  forall (this : t) (repo : ApiLogRepository.t) (call : Call) (w w1 : World)
         (i : Z) (err : Js.Error),
    logRepository this = Some repo ->
    ApiLogRepository.logRequest repo (request_of this call) w = (Return i, w1) ->
    Http.result (apiContext this (http_of this call)) = inl err ->
    let w2 := after_send this (http_of this call) w1 in
    let record := error_log i err (now w2 - now w) in
    exists w' : World,
      perform this call w = (Throw err, w')
      /\ statements w' =
         (statements w1 ++
          [Pg.InsertResponse i (statusCode record) (Some "{}")
             (Some (Js.stringify (Js.Obj [("error", Js.Str (message_or_unknown err))])))
             (now w2 - now w)])%list
      /\ (Js.status err = None -> statusCode record = 500)
      /\ (forall s, Js.status err = Some s -> s <> 0 -> statusCode record = s)
      /\ (Js.message err <> "" -> message_or_unknown err = Js.message err)
      /\ (forall e w3,
            ApiLogRepository.logResponse repo record w2 = (Throw e, w3) ->
            w' = set_console (console w3 ++ ["Failed to log error response:"]) w3).
Proof.
  intros this repo call w w1 i err Hrepo Hreq Herr w2 record.
  exists (snd (guarded_error_write repo record w2)).
  assert (C2 : connected (ApiLogRepository.dbService repo) w2 = true).
  { pose proof (logRequest_returns_connected _ _ _ _ _ Hreq) as C.
    pose proof (logRequest_untouched repo (request_of this call) w) as U.
    rewrite Hreq in U. simpl in U.
    unfold w2, after_send, connected. simpl.
    unfold connected in C.
    rewrite (same_heap _ _ U), (same_live_pools _ _ U). exact C. }
  destruct (guarded_error_write_run repo record w2 C2) as [S1 S2].
  split; [|split; [|split; [|split; [|split]]]].
  - rewrite perform_logged_call, logged_call_run, Hrepo, Hreq. cbv zeta.
    rewrite Herr. reflexivity.
  - rewrite S1. reflexivity.
  - intros H. simpl. unfold status_or_500. rewrite H. reflexivity.
  - intros s H Hs. simpl. unfold status_or_500. rewrite H.
    destruct (Z.eqb_spec s 0); [contradiction|reflexivity].
  - intros H. unfold message_or_unknown.
    destruct (String.eqb_spec (Js.message err) ""); [contradiction|reflexivity].
  - exact S2.
Qed.

Lemma request_write_failure_stops_call :
  forall (this : t) (repo : ApiLogRepository.t) (call : Call) (w w1 : World)
         (e : Js.Error),
    logRepository this = Some repo ->
    ApiLogRepository.logRequest repo (request_of this call) w = (Throw e, w1) ->
    perform this call w = (Throw e, w1) /\ network w1 = network w.
Proof.
  intros this repo call w w1 e Hrepo Hreq. split.
  - rewrite perform_logged_call, logged_call_run, Hrepo, Hreq. reflexivity.
  - pose proof (logRequest_untouched repo (request_of this call) w) as U.
    rewrite Hreq in U. exact (same_network _ _ U).
Qed.

(** C4. With a log repository in place, a failing request write is what
    the call throws, and the HTTP call is not made. *)
Theorem C4_request_write_failure_propagates :
  forall (this : t) (repo : ApiLogRepository.t) (call : Call) (w w1 : World)
         (e : Js.Error),
    logRepository this = Some repo ->
    ApiLogRepository.logRequest repo (request_of this call) w = (Throw e, w1) ->
    perform this call w = (Throw e, w1) /\ network w1 = network w.
Proof.
  intros this repo call w w1 e Hrepo Hreq. split.
  - rewrite perform_logged_call, logged_call_run, Hrepo, Hreq. reflexivity.
  - pose proof (logRequest_untouched repo (request_of this call) w) as U.
    rewrite Hreq in U. exact (same_network _ _ U).
Qed.

(** C10. A client built with logging asked for while the DatabaseService
    has no pool gets no repository; from then on each of its calls is the
    HTTP call and nothing else, in whatever world it is made. *)
Theorem C10_logging_stays_disabled :
  forall (ctx : Http.APIRequestContext) (w w1 : World),
    bind DatabaseService.getInstance DatabaseService.isInitialized w = (Return false, w1) ->
    exists client : t,
      new_ApiClientService ctx true w = (Return client, w1)
      /\ logRepository client = None
      /\ forall (call : Call) (w2 : World),
           let w' := snd (perform client call w2) in
           fst (perform client call w2)
           = match Http.result (ctx (http_of client call)) with
             | inr response => Return response
             | inl error => Throw error
             end
           /\ network w' = (network w2 ++ [http_of client call])%list
           /\ statements w' = statements w2
           /\ store w' = store w2
           /\ console w' = console w2.
Proof.
  intros ctx w w1 H.
  exists (mk ctx None (baseUrl w) true). split; [|split].
  - unfold new_ApiClientService, bind, gets in *.
    destruct (DatabaseService.getInstance w) as [[a|e] wa]; [|discriminate].
    destruct (DatabaseService.isInitialized a wa) as [[b|e] wb]; [|discriminate].
    inversion H; subst. reflexivity.
  - reflexivity.
  - intros call w2. rewrite perform_logged_call, logged_call_run. simpl.
    repeat split; reflexivity.
Qed.

(** C2 for DELETE /users/1 against a host that refuses the connection. *)
Lemma C2_witness :
  let this := Scenario.client Scenario.ctx_down in
  let call := Scenario.delete_user in
  let w1 := snd (ApiLogRepository.logRequest Scenario.repo (request_of this call)
                   Scenario.ready) in
  logRepository this = Some Scenario.repo
  /\ ApiLogRepository.logRequest Scenario.repo (request_of this call) Scenario.ready
     = (Return 1, w1)
  /\ Http.result (apiContext this (http_of this call)) = inl Scenario.refused
  /\ exists w', perform this call Scenario.ready = (Throw Scenario.refused, w').
Proof.
  cbv zeta.
  assert (H1 : logRepository (Scenario.client Scenario.ctx_down) = Some Scenario.repo)
    by reflexivity.
  assert (H2 : ApiLogRepository.logRequest Scenario.repo
                 (request_of (Scenario.client Scenario.ctx_down) Scenario.delete_user)
                 Scenario.ready
               = (Return 1,
                  snd (ApiLogRepository.logRequest Scenario.repo
                         (request_of (Scenario.client Scenario.ctx_down)
                            Scenario.delete_user) Scenario.ready)))
    by (vm_compute; reflexivity).
  assert (H3 : Http.result (apiContext (Scenario.client Scenario.ctx_down)
                              (http_of (Scenario.client Scenario.ctx_down)
                                 Scenario.delete_user)) = inl Scenario.refused)
    by reflexivity.
  repeat split; try assumption.
  destruct (C2_transport_error_logged_and_reraised _ _ _ _ _ _ _ H1 H2 H3)
    as [w' [H _]].
  exists w'. exact H.
Defined.

(** C4 for GET /users/1 with the server dropping the request insert. *)
Lemma C4_witness :
  let this := Scenario.client Scenario.ctx_ok in
  let e := Js.new_Error "query failed" in
  let w1 := snd (ApiLogRepository.logRequest Scenario.repo
                   (request_of this Scenario.get_user) Scenario.down) in
  logRepository this = Some Scenario.repo
  /\ ApiLogRepository.logRequest Scenario.repo (request_of this Scenario.get_user)
       Scenario.down = (Throw e, w1)
  /\ perform this Scenario.get_user Scenario.down = (Throw e, w1)
  /\ network w1 = network Scenario.down.
Proof.
  cbv zeta.
  assert (H1 : logRepository (Scenario.client Scenario.ctx_ok) = Some Scenario.repo)
    by reflexivity.
  assert (H2 : ApiLogRepository.logRequest Scenario.repo
                 (request_of (Scenario.client Scenario.ctx_ok) Scenario.get_user)
                 Scenario.down
               = (Throw (Js.new_Error "query failed"),
                  snd (ApiLogRepository.logRequest Scenario.repo
                         (request_of (Scenario.client Scenario.ctx_ok)
                            Scenario.get_user) Scenario.down)))
    by (vm_compute; reflexivity).
  split; [exact H1|]. split; [exact H2|].
  exact (C4_request_write_failure_propagates _ _ _ _ _ _ H1 H2).
Defined.

(** C10 for a client built before any [initialize]. *)
Lemma C10_witness :
  bind DatabaseService.getInstance DatabaseService.isInitialized Scenario.fresh
  = (Return false, snd (DatabaseService.getInstance Scenario.fresh))
  /\ exists client,
       new_ApiClientService Scenario.ctx_ok true Scenario.fresh
       = (Return client, snd (DatabaseService.getInstance Scenario.fresh))
       /\ logRepository client = None.
Proof.
  assert (H : bind DatabaseService.getInstance DatabaseService.isInitialized
                Scenario.fresh
              = (Return false, snd (DatabaseService.getInstance Scenario.fresh)))
    by reflexivity.
  split; [exact H|].
  destruct (C10_logging_stays_disabled Scenario.ctx_ok _ _ H) as [client [A [B _]]].
  exists client. split; assumption.
Defined.

(** A response write that fails after a successful HTTP call is thrown to
    the caller in place of the response. *)
Lemma response_write_failure_escapes :
  forall (this : t) (repo : ApiLogRepository.t) (call : Call) (w w1 w3 : World)
         (i : Z) (response : Http.APIResponse) (e : Js.Error),
    logRepository this = Some repo ->
    ApiLogRepository.logRequest repo (request_of this call) w = (Return i, w1) ->
    Http.result (apiContext this (http_of this call)) = inr response ->
    let w2 := after_send this (http_of this call) w1 in
    ApiLogRepository.logResponse repo (response_log i response (now w2 - now w)) w2
    = (Throw e, w3) ->
    fst (perform this call w) = Throw e.
Proof.
  intros this repo call w w1 w3 i response e Hrepo Hreq Hres w2 Hlog.
  rewrite perform_logged_call, logged_call_run, Hrepo, Hreq. cbv zeta.
  rewrite Hres. fold w2. rewrite Hlog. reflexivity.
Qed.

(** C1, at the failing input: logging is on, GET /users/1 is answered 200,
    and the server drops the connection for the response write.  The call
    throws the logging error instead of returning the response, and the one
    response row left in the store is an error row with status 500. *)
Theorem C1_response_write_failure_reaches_caller :
  let r := perform (Scenario.client Scenario.ctx_ok) Scenario.get_user Scenario.flaky in
  Http.result (Scenario.ctx_ok (http_of (Scenario.client Scenario.ctx_ok) Scenario.get_user))
  = inr Scenario.ok_response
  /\ fst r = Throw (Js.new_Error "query failed")
  /\ fst r <> Return Scenario.ok_response
  /\ map Pg.status_code (Pg.responses (store (snd r))) = [500].
Proof.
  cbv zeta. split; [reflexivity|].
  split; [vm_compute; reflexivity|].
  split; [vm_compute; discriminate|].
  vm_compute. reflexivity.
Qed.

(** C9, at the failing input: a request whose body is the JSON value
    [false] is present in the record and is stored as SQL null, exactly as
    a request with no body is. *)
Theorem C9_present_falsy_body_stored_null :
  let r := ApiLogRepository.logRequest Scenario.repo Scenario.post_false Scenario.ready in
  body Scenario.post_false = Js.Bool false
  /\ fst r = Return 1
  /\ map Pg.body (Pg.requests (store (snd r))) = [None]
  /\ ApiLogRepository.json_or_null Js.Undefined = None
  /\ ApiLogRepository.json_or_null (Js.Num 0) = None
  /\ ApiLogRepository.json_or_null (Js.Str "") = None.
Proof.
  cbv zeta. split; [reflexivity|].
  split; [vm_compute; reflexivity|].
  split; [vm_compute; reflexivity|].
  repeat split.
Qed.

End ClientClaims.

(** ** The URL of a call *)

Section UrlClaims.
Import ApiClientService Shape.



Lemma prefix_iff (p s : string) :
  String.prefix p s = true <-> exists b, s = p ++ b.
Proof.
  revert s. induction p as [|c p IH]; intros s.
  - split; [intros _; exists s; reflexivity | destruct s; reflexivity].
  - destruct s as [|d s]; simpl.
    + split; [discriminate | intros [b H]; discriminate].
    + destruct (ascii_dec c d) as [->|Hne].
      * rewrite IH. split; intros [b H]; exists b; [rewrite H; reflexivity|].
        inversion H. reflexivity.
      * split; [discriminate|]. intros [b H]. inversion H. congruence.
Qed.


(** *** The query string reads back as the parameters *)





















Lemma request_of_endpoint (this : t) (c : Call) :
  endpoint (request_of this c) = call_url this c.
Proof. destruct c; reflexivity. Qed.








End UrlClaims.

(** ** The schema provisioner *)

Section Provisioner.
Import DatabaseUtil.

Lemma client_query_healthy (client : nat) (q : Pg.Sql) (w : World) :
  alive client (live_pools w) = true ->
  faults w = [] ->
  client_query client q w =
  (match fst (Pg.exec q (now w) (store w)) with
   | inl e => Throw e
   | inr r => Return r
   end, ran q (snd (Pg.exec q (now w) (store w))) w).
Proof.
  intros A F. unfold client_query. rewrite pool_query_run by assumption.
  unfold ran, sent. rewrite F.
  destruct (Pg.exec q (now w) (store w)) as [[e|r] s']; reflexivity.
Qed.

Lemma has_schema_added (s : list string) (n : string) :
  existsb (String.eqb n) (s ++ [n]) = true.
Proof.
  rewrite existsb_app. simpl. rewrite String.eqb_refl.
  rewrite orb_true_r. reflexivity.
Qed.

Lemma has_table_added (l : list (string * string)) (n t : string) :
  existsb (fun x => String.eqb n (fst x) && String.eqb t (snd x)) (l ++ [(n, t)]) = true.
Proof.
  rewrite existsb_app. simpl. rewrite !String.eqb_refl.
  rewrite orb_true_r. reflexivity.
Qed.

(** One call of [ensureSchema] on a healthy connection. *)
Lemma ensureSchema_healthy (client : nat) (n : string) (w : World) :
  alive client (live_pools w) = true ->
  faults w = [] ->
  ensureSchema client n w =
  (Return tt,
   if Pg.has_schema (store w) n then
     said ("Schema '" ++ n ++ "' already exists")
          (ran (Pg.SchemaExists n) (store w) w)
   else
     said ("Schema '" ++ n ++ "' created successfully")
          (ran (Pg.CreateSchema true n) (schema_created n (store w))
               (ran (Pg.SchemaExists n) (store w) w))).
Proof.
  intros A F. unfold ensureSchema. unfold bind at 1.
  rewrite client_query_healthy by assumption. simpl fst. simpl snd. cbv iota.
  unfold bind at 1. unfold row_exists at 1. unfold ret at 1.
  destruct (Pg.has_schema (store w) n) eqn:E; cbn [negb].
  - reflexivity.
  - unfold bind at 1.
    rewrite client_query_healthy by (simpl; assumption).
    simpl. rewrite E. unfold schema_created. rewrite E. reflexivity.
Qed.

(** One call of [ensureTable] on a healthy connection. *)
Lemma ensureTable_healthy (client : nat) (n t : string) (q : Pg.Sql) (w : World) :
  alive client (live_pools w) = true ->
  faults w = [] ->
  ensureTable client n t q w =
  if Pg.has_table (store w) n t then
    (Return tt,
     said ("Table '" ++ n ++ "." ++ t ++ "' already exists")
          (ran (Pg.TableExists n t) (store w) w))
  else
    let w1 := ran (Pg.TableExists n t) (store w) w in
    match Pg.exec q (now w) (store w) with
    | (inl e, s') => (Throw e, ran q s' w1)
    | (inr _, s') =>
        (Return tt,
         said ("Table '" ++ n ++ "." ++ t ++ "' created successfully") (ran q s' w1))
    end.
Proof.
  intros A F. unfold ensureTable. unfold bind at 1.
  rewrite client_query_healthy by assumption. simpl fst. simpl snd. cbv iota.
  unfold bind at 1. unfold row_exists at 1. unfold ret at 1.
  destruct (Pg.has_table (store w) n t) eqn:E; cbn [negb].
  - reflexivity.
  - unfold bind at 1.
    rewrite client_query_healthy by (simpl; assumption).
    simpl. destruct (Pg.exec q (now w) (store w)) as [[e|r] s']; reflexivity.
Qed.

Lemma has_schema_schema_created n s : Pg.has_schema (schema_created n s) n = true.
Proof.
  unfold schema_created. destruct (Pg.has_schema s n) eqn:E; [exact E|].
  apply has_schema_added.
Qed.

Lemma has_table_schema_created n s a b :
  Pg.has_table (schema_created n s) a b = Pg.has_table s a b.
Proof. unfold schema_created. destruct (Pg.has_schema s n); reflexivity. Qed.

Lemma has_schema_table_created n t s a :
  Pg.has_schema (table_created n t s) a = Pg.has_schema s a.
Proof. unfold table_created. destruct (Pg.has_table s n t); reflexivity. Qed.

Lemma has_table_table_created n t s : Pg.has_table (table_created n t s) n t = true.
Proof.
  unfold table_created. destruct (Pg.has_table s n t) eqn:E; [exact E|].
  apply has_table_added.
Qed.

Lemma has_table_kept n t s a b :
  Pg.has_table s a b = true -> Pg.has_table (table_created n t s) a b = true.
Proof.
  unfold table_created. destruct (Pg.has_table s n t); [tauto|].
  unfold Pg.has_table. simpl. rewrite existsb_app. intros ->. reflexivity.
Qed.

Lemma schema_created_idem n s : schema_created n (schema_created n s) = schema_created n s.
Proof.
  unfold schema_created at 1. rewrite has_schema_schema_created. reflexivity.
Qed.



Lemma NoDup_snoc {A} (l : list A) (x : A) : NoDup l -> ~ In x l -> NoDup (l ++ [x]).
Proof.
  intros Hl Hx. induction Hl as [|y l Hy Hl IH]; simpl.
  - constructor; [intros []|constructor].
  - constructor.
    + rewrite in_app_iff. simpl. intros [H|[H|[]]]; [contradiction|].
      subst. apply Hx. left. reflexivity.
    + apply IH. intros H. apply Hx. right. exact H.
Qed.



(** What a call of [ensureSchema] amounts to. *)
Lemma ensureSchema_spec (client : nat) (n : string) (w : World) :
  healthy client w ->
  exists w1,
    ensureSchema client n w = (Return tt, w1)
    /\ healthy client w1
    /\ now w1 = now w
    /\ store w1 = schema_created n (store w)
    /\ statements w1 =
       (statements w ++
        if Pg.has_schema (store w) n then [Pg.SchemaExists n]
        else [Pg.SchemaExists n; Pg.CreateSchema true n])%list.
Proof.
  intros [A F]. rewrite ensureSchema_healthy by assumption.
  unfold schema_created.
  destruct (Pg.has_schema (store w) n) eqn:E; eexists; (split; [reflexivity|]);
    repeat split; simpl; try assumption; try reflexivity.
  rewrite <- app_assoc. reflexivity.
Qed.

(** What a call of [ensureTable] amounts to when its statement creates the
    table it names, in a schema that exists, referencing a table that
    exists. *)
Lemma ensureTable_spec (client : nat) (n t : string) (ine : bool)
    (refs : option (string * string)) (w : World) :
  healthy client w ->
  Pg.has_schema (store w) n = true ->
  match refs with
  | Some (n', t') => Pg.has_table (store w) n' t' = true
  | None => True
  end ->
  exists w1,
    ensureTable client n t (Pg.CreateTable ine n t refs) w = (Return tt, w1)
    /\ healthy client w1
    /\ now w1 = now w
    /\ store w1 = table_created n t (store w)
    /\ statements w1 =
       (statements w ++
        if Pg.has_table (store w) n t then [Pg.TableExists n t]
        else [Pg.TableExists n t; Pg.CreateTable ine n t refs])%list.
Proof.
  intros [A F] Hs Hr. rewrite ensureTable_healthy by assumption.
  unfold table_created.
  destruct (Pg.has_table (store w) n t) eqn:E.
  - eexists; (split; [reflexivity|]); repeat split; simpl; try assumption.
  - cbv zeta. simpl Pg.exec. rewrite Hs, E. cbn [negb].
    assert (R : match refs with
                | Some (n', t') => negb (Pg.has_table (store w) n' t')
                | None => false
                end = false).
    { destruct refs as [[n' t']|]; [rewrite Hr|]; reflexivity. }
    rewrite R.
    eexists; (split; [reflexivity|]); repeat split; simpl; try assumption.
    rewrite <- app_assoc. reflexivity.
Qed.

Lemma has_table_table_created_other n t s a b :
  String.eqb a n && String.eqb b t = false ->
  Pg.has_table (table_created n t s) a b = Pg.has_table s a b.
Proof.
  intros H. unfold table_created. destruct (Pg.has_table s n t); [reflexivity|].
  unfold Pg.has_table. simpl. rewrite existsb_app. simpl.
  rewrite H. rewrite !orb_false_r. reflexivity.
Qed.

Lemma table_created_idem n t s : table_created n t (table_created n t s) = table_created n t s.
Proof.
  unfold table_created at 1. rewrite has_table_table_created. reflexivity.
Qed.

Lemma bind_returns {A B} (c : M A) (k : A -> M B) (w w1 : World) (a : A) :
  c w = (Return a, w1) -> bind c k w = k a w1.
Proof. intros H. unfold bind. rewrite H. reflexivity. Qed.

Lemma initialized_provisioned s : provisioned (initialized s) = true.
Proof.
  unfold provisioned, initialized.
  rewrite has_table_table_created, andb_true_r.
  apply has_table_kept. apply has_table_table_created.
Qed.

(** What a call of [initializeDatabase] amounts to. *)
Lemma initializeDatabase_spec (client : nat) (w : World) :
  healthy client w ->
  exists w1,
    initializeDatabase client w = (Return tt, w1)
    /\ healthy client w1
    /\ now w1 = now w
    /\ store w1 = initialized (store w)
    /\ statements w1 =
       (statements w
        ++ (if Pg.has_schema (store w) "api_test" then [Pg.SchemaExists "api_test"]
            else [Pg.SchemaExists "api_test"; Pg.CreateSchema true "api_test"])
        ++ (if Pg.has_table (store w) "api_test" "api_requests"
            then [Pg.TableExists "api_test" "api_requests"]
            else [Pg.TableExists "api_test" "api_requests";
                  createRequestsTableQuery "api_test"])
        ++ (if Pg.has_table (store w) "api_test" "api_responses"
            then [Pg.TableExists "api_test" "api_responses"]
            else [Pg.TableExists "api_test" "api_responses";
                  createResponsesTableQuery "api_test"]))%list.
Proof.
  intros H.
  destruct (ensureSchema_spec client "api_test" w H) as (wa & Ea & Ha & Na & Sa & Ta).
  assert (Hsa : Pg.has_schema (store wa) "api_test" = true)
    by (rewrite Sa; apply has_schema_schema_created).
  destruct (ensureTable_spec client "api_test" "api_requests" true None wa Ha Hsa I)
    as (wb & Eb & Hb & Nb & Sb & Tb).
  assert (Hsb : Pg.has_schema (store wb) "api_test" = true)
    by (rewrite Sb, has_schema_table_created; exact Hsa).
  assert (Hrb : Pg.has_table (store wb) "api_test" "api_requests" = true)
    by (rewrite Sb; apply has_table_table_created).
  destruct (ensureTable_spec client "api_test" "api_responses" true
              (Some ("api_test", "api_requests")) wb Hb Hsb Hrb)
    as (wc & Ec & Hc & Nc & Sc & Tc).
  exists (said "Database initialization completed" wc).
  split; [|split; [|split; [|split]]].
  - unfold initializeDatabase. cbv zeta.
    rewrite (bind_returns _ _ _ _ _ Ea).
    unfold createRequestsTableQuery, createResponsesTableQuery in *.
    rewrite (bind_returns _ _ _ _ _ Eb).
    rewrite (bind_returns _ _ _ _ _ Ec).
    reflexivity.
  - exact Hc.
  - simpl. congruence.
  - simpl. unfold initialized. rewrite Sc, Sb, Sa. reflexivity.
  - simpl. rewrite Tc, Tb, Ta, Sb, Sa.
    rewrite has_table_schema_created.
    rewrite (has_table_table_created_other "api_test" "api_requests" _
               "api_test" "api_responses" eq_refl).
    rewrite has_table_schema_created.
    rewrite <- !app_assoc. reflexivity.
Qed.






End Provisioner.

(** ** LIKE against substring search *)

Section Like.

Lemma like_percent (p s : string) :
  Pg.like (String "%" p) s =
  match Pg.like p s with
  | None => None
  | Some true => Some true
  | Some false =>
      match s with
      | EmptyString => Some false
      | String _ s' => Pg.like (String "%" p) s'
      end
  end.
Proof. destruct s; reflexivity. Qed.

Lemma like_percent_only (s : string) : Pg.like "%" s = Some true.
Proof.
  induction s as [|c s IH].
  - reflexivity.
  - rewrite like_percent. simpl. exact IH.
Qed.

Lemma plain_cons (c : ascii) (p : string) :
  plain (String c p) = true ->
  Ascii.eqb c "%" = false /\ Ascii.eqb c "_" = false /\ Ascii.eqb c "\" = false
  /\ plain p = true.
Proof.
  simpl. rewrite !andb_true_iff, !negb_true_iff. tauto.
Qed.

(** A pattern without metacharacters, followed by [%], matches the strings
    it is a prefix of. *)
Lemma like_plain_prefix (p : string) :
  plain p = true ->
  forall s, Pg.like (p ++ "%") s = Some (String.prefix p s).
Proof.
  induction p as [|c p IH]; intros Hp s.
  - simpl append. rewrite like_percent_only. destruct s; reflexivity.
  - destruct (plain_cons c p Hp) as (H1 & H2 & H3 & H4).
    simpl append. simpl Pg.like. rewrite H1.
    destruct s as [|d s]; [reflexivity|].
    rewrite H2, H3. simpl.
    destruct (ascii_dec c d) as [->|Hne].
    + rewrite Ascii.eqb_refl. apply IH. exact H4.
    + destruct (Ascii.eqb_spec c d); [contradiction|reflexivity].
Qed.

(** [endpoint LIKE '%p%'] for a pattern without metacharacters is the
    substring test. *)
Lemma like_plain_includes (p : string) :
  plain p = true ->
  forall s, Pg.like ("%" ++ p ++ "%") s = Some (includes p s).
Proof.
  intros Hp s. change ("%" ++ p ++ "%") with (String "%" (p ++ "%")).
  induction s as [|c s IH].
  - rewrite like_percent, like_plain_prefix by assumption.
    clear Hp. destruct p; reflexivity.
  - rewrite like_percent, like_plain_prefix by assumption.
    change (includes p (String c s))
      with (String.prefix p (String c s) || includes p s).
    destruct (String.prefix p (String c s)); [reflexivity|].
    simpl orb. exact IH.
Qed.

(** [includes] is occurrence as a substring. *)
Lemma includes_iff (p s : string) :
  includes p s = true <-> exists a b, s = a ++ p ++ b.
Proof.
  induction s as [|c s IH].
  - change (includes p "") with (String.prefix p "" || false).
    rewrite orb_false_r, prefix_iff. split.
    + intros [b H]. exists "", b. exact H.
    + intros [a [b H]]. destruct a; [exists b; exact H | discriminate].
  - change (includes p (String c s))
      with (String.prefix p (String c s) || includes p s).
    rewrite orb_true_iff, prefix_iff, IH. split.
    + intros [[b H]|[a [b H]]].
      * exists "", b. exact H.
      * exists (String c a), b. simpl. rewrite H. reflexivity.
    + intros [a [b H]]. destruct a as [|c' a].
      * left. exists b. exact H.
      * right. exists a, b. simpl in H. inversion H. reflexivity.
Qed.

Lemma select_like_plain (p : string) (rows : list Pg.RequestRow) :
  plain p = true ->
  Pg.select_like ("%" ++ p ++ "%") rows
  = Some (filter (fun r => includes p (Pg.endpoint r)) rows).
Proof.
  intros Hp. induction rows as [|r rows IH].
  - reflexivity.
  - cbn [Pg.select_like]. rewrite IH, like_plain_includes by assumption.
    cbn [filter]. destruct (includes p (Pg.endpoint r)); reflexivity.
Qed.

End Like.

(** ** ORDER BY *)

Section Ordering.
Context {A : Type} (key : A -> Z).

Lemma insert_desc_perm (x : A) (l : list A) :
  Permutation (Pg.insert_desc key x l) (x :: l).
Proof.
  induction l as [|y l IH]; simpl.
  - apply Permutation_refl.
  - destruct (key y <? key x).
    + apply Permutation_refl.
    + eapply Permutation_trans; [apply perm_skip; exact IH | apply perm_swap].
Qed.

Lemma order_by_desc_perm (l : list A) : Permutation (Pg.order_by_desc key l) l.
Proof.
  induction l as [|x l IH]; simpl.
  - constructor.
  - eapply Permutation_trans; [apply insert_desc_perm | apply perm_skip; exact IH].
Qed.

Lemma insert_desc_hd (x a : A) (l : list A) :
  key x <= key a ->
  HdRel (fun a b => key b <= key a) a l ->
  HdRel (fun a b => key b <= key a) a (Pg.insert_desc key x l).
Proof.
  intros Hx H. destruct l as [|y l]; simpl.
  - constructor. exact Hx.
  - destruct (key y <? key x); constructor; [exact Hx|].
    inversion H. assumption.
Qed.

Lemma insert_desc_sorted (x : A) (l : list A) :
  descending key l -> descending key (Pg.insert_desc key x l).
Proof.
  unfold descending. induction l as [|y l IH]; intros H; simpl.
  - repeat constructor.
  - destruct (Z.ltb_spec (key y) (key x)).
    + constructor; [exact H|]. constructor. lia.
    + inversion H; subst. constructor; [apply IH; assumption|].
      apply insert_desc_hd; assumption.
Qed.

Lemma order_by_desc_sorted (l : list A) : descending key (Pg.order_by_desc key l).
Proof.
  induction l as [|x l IH]; simpl.
  - constructor.
  - apply insert_desc_sorted. exact IH.
Qed.

End Ordering.

(** ** Relations that every step of a computation keeps *)

Section Steps.
Context (R : World -> World -> Prop) (preorder : PreOrder R).

Lemma steps_ret {A} (a : A) : steps R (ret a).
Proof. intros w. simpl. reflexivity. Qed.

Lemma steps_throw {A} (e : Js.Error) : steps R (@throw A e).
Proof. intros w. simpl. reflexivity. Qed.

Lemma steps_gets {A} (f : World -> A) : steps R (gets f).
Proof. intros w. simpl. reflexivity. Qed.

Lemma steps_bind {A B} (c : M A) (k : A -> M B) :
  steps R c -> (forall a, steps R (k a)) -> steps R (bind c k).
Proof.
  intros Hc Hk w. unfold bind. specialize (Hc w).
  destruct (c w) as [[a|e] w1]; simpl in *.
  - etransitivity; [exact Hc | apply Hk].
  - exact Hc.
Qed.

Lemma steps_try_catch {A} (c : M A) (h : Js.Error -> M A) :
  steps R c -> (forall e, steps R (h e)) -> steps R (try_catch c h).
Proof.
  intros Hc Hh w. unfold try_catch. specialize (Hc w).
  destruct (c w) as [[a|e] w1]; simpl in *.
  - exact Hc.
  - etransitivity; [exact Hc | apply Hh].
Qed.

Lemma steps_try_finally {A} (c : M A) (f : M unit) :
  steps R c -> steps R f -> steps R (try_finally c f).
Proof.
  intros Hc Hf w. unfold try_finally. specialize (Hc w).
  destruct (c w) as [[a|e] w1]; simpl in *;
    specialize (Hf w1); destruct (f w1) as [[u|e'] w2]; simpl in *;
    etransitivity; eassumption.
Qed.

Lemma steps_discard {A} (c : M A) : steps R c -> steps R (discard c).
Proof. intros Hc w. exact (Hc w). Qed.

Lemma steps_modify (f : World -> World) :
  (forall w, R w (f w)) -> steps R (modify f).
Proof. intros H w. apply H. Qed.

End Steps.

(** ** The store stays consistent *)

#[local] Instance keeps_consistent_preorder : PreOrder keeps_consistent.
Proof.
  split.
  - intros w H. exact H.
  - intros a b c H1 H2 H. apply H2, H1, H.
Qed.

Section Consistency.

Lemma consistent_rows (s s' : Pg.Store) :
  Pg.requests s' = Pg.requests s ->
  Pg.responses s' = Pg.responses s ->
  Pg.requests_seq s' = Pg.requests_seq s ->
  consistent s -> consistent s'.
Proof.
  intros Hq Hr Hs [A B C]. constructor; rewrite ?Hq, ?Hr, ?Hs; assumption.
Qed.

Lemma consistent_empty : consistent Pg.empty.
Proof. constructor; simpl; constructor. Qed.

Lemma exec_consistent (q : Pg.Sql) (t : Z) (s : Pg.Store) :
  consistent s -> consistent (snd (Pg.exec q t s)).
Proof.
  intros H.
  destruct q as [n | n tb | ine n | ine n tb refs | | e m h b | rid sc h b ms
                | | | i | pat | m | ];
    simpl; unfold Pg.with_requests, Pg.with_responses; simpl; try exact H.
  - destruct (Pg.has_schema s n); [destruct ine; exact H|].
    simpl. eapply consistent_rows; [| | |exact H]; reflexivity.
  - destruct (negb (Pg.has_schema s n)); [exact H|].
    destruct (Pg.has_table s n tb); [destruct ine; exact H|].
    destruct (match refs with Some (n', t') => _ | None => false end); [exact H|].
    simpl. eapply consistent_rows; [| | |exact H]; reflexivity.
  - destruct (Pg.has_table s "api_test" "api_requests"); [|exact H].
    destruct H as [A B C].
    destruct (Pg.varchar 500 e) as [e'|];
      [destruct (Pg.varchar 10 m) as [m'|]|]; simpl.
    2, 3: constructor; simpl; [|assumption|assumption];
      eapply Forall_impl; [|exact A]; simpl; intros; lia.
    constructor; simpl.
    + apply Forall_app. split.
      * eapply Forall_impl; [|exact A]. simpl. intros. lia.
      * constructor; [simpl; lia|constructor].
    + rewrite map_app. simpl. apply NoDup_snoc; [exact B|].
      intros Hin. apply in_map_iff in Hin. destruct Hin as [r [E Hr]].
      rewrite Forall_forall in A. specialize (A r Hr). simpl in A. lia.
    + eapply Forall_impl; [|exact C]. simpl. intros res Hres.
      rewrite map_app. apply in_or_app. left. exact Hres.
  - destruct (Pg.has_table s "api_test" "api_responses"); [|exact H].
    destruct H as [A B C].
    unfold Pg.find_request.
    destruct (find (fun r => Pg.id r =? rid) (Pg.requests s)) as [r|] eqn:F; simpl.
    + constructor; simpl; try assumption.
      apply Forall_app. split; [exact C|]. constructor; [|constructor]. simpl.
      apply find_some in F. destruct F as [Hin Heq].
      apply Z.eqb_eq in Heq. subst. apply in_map. exact Hin.
    + constructor; simpl; assumption.
  - destruct (Pg.has_table s "api_test" "api_requests"); exact H.
  - destruct (Pg.has_table s "api_test" "api_responses"); exact H.
  - destruct (Pg.has_table s "api_test" "api_requests"); [|exact H].
    destruct (Pg.has_table s "api_test" "api_responses"); exact H.
  - destruct (Pg.has_table s "api_test" "api_requests"); [|exact H].
    destruct (Pg.select_like pat (Pg.requests s)); exact H.
  - destruct (Pg.has_table s "api_test" "api_requests"); exact H.
  - destruct (Pg.has_table s "api_test" "api_responses"); [|exact H].
    destruct (Pg.has_table s "api_test" "api_requests"); exact H.
Qed.

End Consistency.

Ltac step_with P same :=
  lazymatch goal with
  | |- steps _ (ret _) => apply (steps_ret _ P)
  | |- steps _ (throw _) => apply (steps_throw _ P)
  | |- steps _ (gets _) => apply (steps_gets _ P)
  | |- steps _ (discard _) => apply steps_discard
  | |- steps _ (bind _ _) => apply (steps_bind _ P); [|intros ?]
  | |- steps _ (try_catch _ _) => apply (steps_try_catch _ P); [|intros ?]
  | |- steps _ (try_finally _ _) => apply (steps_try_finally _ P)
  | |- steps _ (modify _) => apply steps_modify; intros ?; solve [same]
  | |- steps _ (match ?x with _ => _ end) => destruct x
  | |- steps _ _ => solve [auto with steps]
  end.

Create HintDb steps.

(** *** The methods that neither create nor end a pool *)

(** A relation kept by whatever leaves the service objects, the live
    pools and the store alone, by the server running a statement, and by
    [getInstance], is kept by every method below. *)
Section Methods.
Context (R : World -> World -> Prop) (preorder : PreOrder R).
Hypothesis R_quiet :
  forall w w',
    heap w' = heap w -> instance w' = instance w ->
    live_pools w' = live_pools w -> store w' = store w -> R w w'.
Hypothesis R_run : forall q, steps R (run_statement q).
Hypothesis R_getInstance : steps R DatabaseService.getInstance.

Ltac quiet := apply R_quiet; reflexivity.
Ltac go := repeat step_with preorder quiet.

Lemma external_steps what : steps R (external what).
Proof.
  intros w. unfold external.
  destruct (faults w) as [|[|] fs]; simpl; quiet.
Qed.

Lemma this_fields_steps this : steps R (DatabaseService.this_fields this).
Proof.
  intros w. unfold DatabaseService.this_fields.
  destruct (nth_error (heap w) this); simpl; quiet.
Qed.

Lemma send_steps this req : steps R (ApiClientService.send this req).
Proof. intros w. rewrite send_run. simpl. quiet. Qed.

Hint Resolve external_steps this_fields_steps send_steps R_run R_getInstance : steps.

Lemma console_log_steps msg : steps R (console_log msg).
Proof. unfold console_log. go. Qed.

Lemma row_exists_steps r : steps R (row_exists r).
Proof. unfold row_exists. go. Qed.

Lemma row_id_steps r : steps R (row_id r).
Proof. unfold row_id. go. Qed.

Lemma pool_query_steps p q : steps R (pool_query p q).
Proof. unfold pool_query. go. Qed.

Lemma pool_connect_steps p : steps R (pool_connect p).
Proof. unfold pool_connect. go. Qed.

Lemma client_release_steps c : steps R (client_release c).
Proof. unfold client_release. go. Qed.

Hint Resolve console_log_steps row_exists_steps row_id_steps pool_query_steps
  pool_connect_steps client_release_steps : steps.

Lemma ensureSchema_steps c n : steps R (DatabaseUtil.ensureSchema c n).
Proof. unfold DatabaseUtil.ensureSchema, client_query. go. Qed.

Lemma ensureTable_steps c n t q : steps R (DatabaseUtil.ensureTable c n t q).
Proof. unfold DatabaseUtil.ensureTable, client_query. go. Qed.

Hint Resolve ensureSchema_steps ensureTable_steps : steps.

Lemma initializeDatabase_steps c : steps R (DatabaseUtil.initializeDatabase c).
Proof. unfold DatabaseUtil.initializeDatabase. go. Qed.

Lemma query_steps this q : steps R (DatabaseService.query this q).
Proof. unfold DatabaseService.query, DatabaseService.getPool. go. Qed.

Lemma getClient_steps this : steps R (DatabaseService.getClient this).
Proof. unfold DatabaseService.getClient, DatabaseService.getPool. go. Qed.

Lemma isInitialized_steps this : steps R (DatabaseService.isInitialized this).
Proof. unfold DatabaseService.isInitialized. go. Qed.

Hint Resolve initializeDatabase_steps query_steps getClient_steps
  isInitialized_steps : steps.

Lemma new_ApiLogRepository_steps : steps R ApiLogRepository.new_ApiLogRepository.
Proof. unfold ApiLogRepository.new_ApiLogRepository. go. Qed.

Lemma logRequest_steps repo r : steps R (ApiLogRepository.logRequest repo r).
Proof. unfold ApiLogRepository.logRequest. go. Qed.

Lemma logResponse_steps repo r : steps R (ApiLogRepository.logResponse repo r).
Proof. unfold ApiLogRepository.logResponse. go. Qed.

Hint Resolve new_ApiLogRepository_steps logRequest_steps logResponse_steps : steps.

Lemma new_ApiClientService_steps ctx b :
  steps R (ApiClientService.new_ApiClientService ctx b).
Proof. unfold ApiClientService.new_ApiClientService. go. Qed.

Lemma perform_steps this call : steps R (ApiClientService.perform this call).
Proof.
  rewrite perform_logged_call.
  unfold Shape.logged_call, ApiClientService.logResponse,
    ApiClientService.logErrorResponse, Date_now.
  go.
Qed.

(** The steps of a history other than [initialize] and [close]. *)
Lemma run_op_steps op :
  (forall b, op <> OpInitialize b) -> op <> OpClose -> steps R (run_op op).
Proof.
  intros Hi Hc.
  destruct op; unfold run_op; try (exfalso; congruence);
    try (apply steps_discard);
    auto using new_ApiClientService_steps, perform_steps with steps.
  - go.
  - go.
  - go.
  - go.
  - apply steps_modify. intros w. quiet.
  - apply steps_modify. intros w. quiet.
Qed.

End Methods.

(** *** The store stays consistent through every history *)

Section ConsistencyOfHistories.

Lemma quiet_keeps (w w' : World) :
  heap w' = heap w -> instance w' = instance w ->
  live_pools w' = live_pools w -> store w' = store w -> keeps_consistent w w'.
Proof. intros _ _ _ H C. rewrite H. exact C. Qed.

Lemma run_statement_keeps q : steps keeps_consistent (run_statement q).
Proof.
  intros w C. unfold run_statement.
  pose proof (exec_consistent q (now w) (store w) C) as E.
  destruct (Pg.exec q (now w) (store w)) as [[e|r] s']; exact E.
Qed.

Lemma getInstance_keeps : steps keeps_consistent DatabaseService.getInstance.
Proof.
  intros w. unfold DatabaseService.getInstance.
  destruct (instance w); intros C; exact C.
Qed.

Ltac generic lemma :=
  apply lemma;
  first [ exact keeps_consistent_preorder | exact quiet_keeps
        | exact run_statement_keeps | exact getInstance_keeps ].

Ltac keeps :=
  repeat first
    [ generic external_steps | generic this_fields_steps | generic console_log_steps
    | generic pool_query_steps | generic pool_connect_steps
    | generic client_release_steps | generic initializeDatabase_steps
    | step_with keeps_consistent_preorder
        ltac:(intros C; exact C) ].

Lemma container_start_keeps : steps keeps_consistent container_start.
Proof.
  unfold container_start.
  apply (steps_bind _ keeps_consistent_preorder); [generic external_steps|].
  intros _ w _. simpl. apply consistent_empty.
Qed.

Lemma new_Pool_keeps : steps keeps_consistent new_Pool.
Proof. intros w C. exact C. Qed.

Lemma initialize_keeps this b : steps keeps_consistent (DatabaseService.initialize this b).
Proof.
  unfold DatabaseService.initialize, DatabaseService.initializeTestContainer,
    DatabaseService.initializeFromConfig, DatabaseService.this_update.
  repeat first [ apply container_start_keeps | apply new_Pool_keeps | progress keeps ].
Qed.

Lemma close_keeps this : steps keeps_consistent (DatabaseService.close this).
Proof.
  unfold DatabaseService.close, DatabaseService.this_update, pool_end, container_stop.
  keeps.
Qed.

Lemma run_op_keeps op : steps keeps_consistent (run_op op).
Proof.
  destruct op;
    try (apply (run_op_steps keeps_consistent keeps_consistent_preorder quiet_keeps
                  run_statement_keeps getInstance_keeps); congruence).
  - unfold run_op. apply steps_discard.
    apply (steps_bind _ keeps_consistent_preorder);
      [apply getInstance_keeps | intros a; apply initialize_keeps].
  - unfold run_op. apply steps_discard.
    apply (steps_bind _ keeps_consistent_preorder);
      [apply getInstance_keeps | intros a; apply close_keeps].
Qed.

Lemma run_ops_consistent (ops : list Op) (w : World) :
  consistent (store w) -> consistent (store (run_ops ops w)).
Proof.
  revert w. induction ops as [|op ops IH]; intros w C; simpl.
  - exact C.
  - apply IH. apply (run_op_keeps op w C).
Qed.

End ConsistencyOfHistories.

(** ** The filtered reads of the repository *)

Section Reads.
Import ApiLogRepository.

Lemma query_healthy (this : nat) (q : Pg.Sql) (w : World) :
  connected this w = true ->
  faults w = [] ->
  DatabaseService.query this q w =
  (match fst (Pg.exec q (now w) (store w)) with
   | inl e => Throw e
   | inr r => Return r
   end, ran q (snd (Pg.exec q (now w) (store w))) w).
Proof.
  intros C F. rewrite query_run by assumption. unfold ran, sent. rewrite F.
  destruct (Pg.exec q (now w) (store w)) as [[e|r] s']; reflexivity.
Qed.

Lemma provisioned_tables (s : Pg.Store) :
  provisioned s = true ->
  Pg.has_table s "api_test" "api_requests" = true
  /\ Pg.has_table s "api_test" "api_responses" = true.
Proof. unfold provisioned. apply andb_true_iff. Qed.

(** What [logRequest] does on a live connection to the provisioned store,
    for an endpoint and a method within the column widths: the statement
    carries the record's strings as they are, the headers and the body as
    [JSON.stringify] gives them when they are truthy and null otherwise; the
    row is appended with the next value of the sequence as its id, and that
    id is returned. *)
Lemma logRequest_inserts (repo : t) (request : ApiRequest) (w : World) :
  connected (dbService repo) w = true ->
  faults w = [] ->
  Pg.has_table (store w) "api_test" "api_requests" = true ->
  (String.length (endpoint request) <= 500)%nat ->
  (String.length (method request) <= 10)%nat ->
  let h := json_or_null (record_value (headers request)) in
  let b := json_or_null (body request) in
  let s := store w in
  logRequest repo request w
  = (Return (Pg.requests_seq s),
     ran (Pg.InsertRequest (endpoint request) (method request) h b)
         (Pg.mkStore (Pg.schemata s) (Pg.tables s)
            (Pg.requests s ++
             [Pg.mkRequestRow (Pg.requests_seq s) (endpoint request) (method request)
                h b (now w)])
            (Pg.responses s) (Pg.requests_seq s + 1) (Pg.responses_seq s))
         w).
Proof.
  intros C F T Le Lm. cbv zeta.
  rewrite logRequest_run.
  rewrite query_healthy by assumption.
  cbn [Pg.exec]. unfold Pg.with_requests. cbn [fst snd Pg.requests_table].
  rewrite !T. unfold Pg.varchar.
  apply Nat.leb_le in Le, Lm. rewrite !Le, !Lm. reflexivity.
Qed.

(** C7, as the code has it.  For a pattern with none of the LIKE
    metacharacters (percent sign, underscore, backslash) and without
    U+0000, which the server takes in no text, over a live
    connection to the provisioned store, [getRequestsByEndpoint] returns
    the logged requests whose endpoint contains the pattern as a substring,
    character for character, newest first, and leaves the store as it
    was. *)
Theorem C7_requests_by_endpoint :
  forall (repo : t) (p : string) (w : World),
    plain p = true ->
    no_nul p = true ->
    connected (dbService repo) w = true ->
    faults w = [] ->
    provisioned (store w) = true ->
    exists rows : list Pg.RequestRow,
      getRequestsByEndpoint repo p w
      = (Return rows, ran (Pg.SelectRequestsByEndpoint ("%" ++ p ++ "%")) (store w) w)
      /\ Permutation rows
           (filter (fun r => includes p (Pg.endpoint r)) (Pg.requests (store w)))
      /\ descending Pg.timestamp rows
      /\ (forall r, In r rows <->
                    In r (Pg.requests (store w))
                    /\ exists a b, Pg.endpoint r = a ++ p ++ b).
Proof.
  intros repo p w Hp _ C F P.
  destruct (provisioned_tables _ P) as [Tq _].
  exists (Pg.order_by_desc Pg.timestamp
            (filter (fun r => includes p (Pg.endpoint r)) (Pg.requests (store w)))).
  split; [|split; [|split]].
  - unfold getRequestsByEndpoint. unfold bind.
    rewrite query_healthy by assumption.
    cbn [Pg.exec]. unfold Pg.with_requests. cbn [fst snd Pg.requests_table].
    rewrite Tq, select_like_plain by assumption. reflexivity.
  - apply order_by_desc_perm.
  - apply order_by_desc_sorted.
  - intros r. rewrite <- includes_iff.
    pose proof (filter_In (fun r => includes p (Pg.endpoint r)) r
                  (Pg.requests (store w))) as FI.
    cbv beta in FI. rewrite <- FI. split; intros H.
    + eapply Permutation_in; [apply order_by_desc_perm | exact H].
    + eapply Permutation_in; [apply Permutation_sym, order_by_desc_perm | exact H].
Qed.

(** C7 at the pattern of the spec, over the three logged calls. *)
Lemma C7_witness :
  plain "users" = true
  /\ no_nul "users" = true
  /\ connected (dbService Scenario.repo) Scenario.logged = true
  /\ faults Scenario.logged = []
  /\ provisioned (store Scenario.logged) = true
  /\ exists rows,
       fst (getRequestsByEndpoint Scenario.repo "users" Scenario.logged) = Return rows
       /\ Permutation rows
            (filter (fun r => includes "users" (Pg.endpoint r))
                    (Pg.requests (store Scenario.logged))).
Proof.
  assert (H1 : plain "users" = true) by reflexivity.
  assert (H0 : no_nul "users" = true) by reflexivity.
  assert (H2 : connected (dbService Scenario.repo) Scenario.logged = true)
    by (vm_compute; reflexivity).
  assert (H3 : faults Scenario.logged = []) by (vm_compute; reflexivity).
  assert (H4 : provisioned (store Scenario.logged) = true) by (vm_compute; reflexivity).
  repeat (split; [assumption|]).
  destruct (C7_requests_by_endpoint Scenario.repo "users" Scenario.logged H1 H0 H2 H3 H4)
    as (rows & E & Pm & _).
  exists rows. split; [rewrite E; reflexivity | exact Pm].
Defined.

(** C7 as stated fails for a pattern with a LIKE metacharacter: the
    underscore matches any character, so the pattern [_] selects the three
    logged requests, none of whose endpoints contains an underscore. *)
Lemma C7_counterexample :
  exists rows,
    fst (getRequestsByEndpoint Scenario.repo "_" Scenario.logged) = Return rows
    /\ map Pg.endpoint rows
       = ["https://dummyjson.com/users/add";
          "https://dummyjson.com/posts/9999";
          "https://dummyjson.com/users/1"]
    /\ filter (fun r => includes "_" (Pg.endpoint r)) (Pg.requests (store Scenario.logged))
       = [].
Proof.
  eexists. split; [vm_compute; reflexivity|].
  split; vm_compute; reflexivity.
Qed.

Lemma filter_none {A} (f : A -> Z) (l : list A) (k : Z) :
  ~ In k (map f l) -> filter (fun x => f x =? k) l = [].
Proof.
  induction l as [|y l IH]; intros H; [reflexivity|]. simpl.
  destruct (Z.eqb_spec (f y) k) as [E|E].
  - exfalso. apply H. left. exact E.
  - apply IH. intros Hin. apply H. right. exact Hin.
Qed.

Lemma filter_unique {A} (f : A -> Z) (l : list A) (r : A) :
  NoDup (map f l) -> In r l -> filter (fun x => f x =? f r) l = [r].
Proof.
  induction l as [|x l IH]; intros ND Hin; [destruct Hin|].
  simpl in ND. inversion ND as [|? ? Hx ND']; subst.
  destruct Hin as [->|Hin]; simpl.
  - rewrite Z.eqb_refl. f_equal. apply filter_none. exact Hx.
  - destruct (Z.eqb_spec (f x) (f r)) as [E|E].
    + exfalso. apply Hx. rewrite E. apply in_map. exact Hin.
    + apply IH; assumption.
Qed.

(** In a consistent store the join pairs a response with one request, its
    own. *)
Lemma join_request_one (s : Pg.Store) (res : Pg.ResponseRow) :
  consistent s ->
  In res (Pg.responses s) ->
  exists r,
    In r (Pg.requests s)
    /\ Pg.id r = Pg.request_id res
    /\ Pg.join_request s res = [Pg.mkFailedRow (Pg.endpoint r) (Pg.method r) res].
Proof.
  intros [A B C] Hin.
  rewrite Forall_forall in C. specialize (C res Hin).
  apply in_map_iff in C. destruct C as [r [E Hr]].
  exists r. split; [exact Hr|]. split; [exact E|].
  unfold Pg.join_request. rewrite <- E.
  rewrite (filter_unique Pg.id (Pg.requests s) r B Hr). reflexivity.
Qed.

Lemma join_all (s : Pg.Store) (l : list Pg.ResponseRow) :
  consistent s ->
  incl l (Pg.responses s) ->
  map Pg.f_response (flat_map (Pg.join_request s) l) = l
  /\ Forall (fun f =>
              In (Pg.f_response f) l
              /\ exists r, In r (Pg.requests s)
                           /\ Pg.id r = Pg.request_id (Pg.f_response f)
                           /\ Pg.f_endpoint f = Pg.endpoint r
                           /\ Pg.f_method f = Pg.method r)
            (flat_map (Pg.join_request s) l).
Proof.
  intros C. induction l as [|res l IH]; intros Hl.
  - split; [reflexivity | constructor].
  - destruct IH as [IH1 IH2]; [intros x Hx; apply Hl; right; exact Hx|].
    destruct (join_request_one s res C (Hl res (or_introl eq_refl)))
      as (r & Hr & E & J).
    simpl flat_map. rewrite J. simpl. split.
    + rewrite IH1. reflexivity.
    + constructor.
      * simpl. split; [left; reflexivity|]. exists r. repeat split; assumption.
      * eapply Forall_impl; [|exact IH2]. simpl.
        intros f [H1 H2]. split; [right; exact H1 | exact H2].
Qed.

(** C6. After any history of the process from a consistent store, over a
    live connection to the provisioned store, [getFailedResponses] returns
    the response rows with status code 400 or more, each with the endpoint
    and method of the request it references, latest response first; the
    store is left as it was. *)
Theorem C6_failed_responses :
  forall (s0 : Pg.Store) (fs : list bool) (t0 : Z) (prod : bool) (base : string)
         (ops : list Op) (repo : t),
    consistent s0 ->
    let w := run_ops ops (boot s0 fs t0 prod base) in
    connected (dbService repo) w = true ->
    faults w = [] ->
    provisioned (store w) = true ->
    exists rows : list Pg.FailedRow,
      getFailedResponses repo w
      = (Return rows, ran Pg.SelectFailedResponses (store w) w)
      /\ Permutation (map Pg.f_response rows)
           (filter (fun res => 400 <=? Pg.status_code res) (Pg.responses (store w)))
      /\ descending (fun f => Pg.res_timestamp (Pg.f_response f)) rows
      /\ Forall (fun f =>
                  400 <= Pg.status_code (Pg.f_response f)
                  /\ exists r, In r (Pg.requests (store w))
                               /\ Pg.id r = Pg.request_id (Pg.f_response f)
                               /\ Pg.f_endpoint f = Pg.endpoint r
                               /\ Pg.f_method f = Pg.method r) rows.
Proof.
  intros s0 fs t0 prod base ops repo C0 w C F P.
  assert (Cw : consistent (store w)) by (apply run_ops_consistent; exact C0).
  destruct (provisioned_tables _ P) as [Tq Tr].
  set (failed := filter (fun res => 400 <=? Pg.status_code res) (Pg.responses (store w))).
  assert (Hincl : incl failed (Pg.responses (store w))).
  { intros x Hx. apply filter_In in Hx. tauto. }
  destruct (join_all (store w) failed Cw Hincl) as [J1 J2].
  exists (Pg.order_by_desc (fun f => Pg.res_timestamp (Pg.f_response f))
            (flat_map (Pg.join_request (store w)) failed)).
  split; [|split; [|split]].
  - unfold getFailedResponses. unfold bind.
    rewrite query_healthy by assumption.
    cbn [Pg.exec]. unfold Pg.with_requests, Pg.with_responses.
    cbn [fst snd Pg.requests_table Pg.responses_table].
    rewrite Tq, Tr. reflexivity.
  - rewrite <- J1 at 2. apply Permutation_map. apply order_by_desc_perm.
  - apply order_by_desc_sorted.
  - rewrite Forall_forall in *. intros f Hf.
    assert (Hf' : In f (flat_map (Pg.join_request (store w)) failed)).
    { eapply Permutation_in; [apply order_by_desc_perm | exact Hf]. }
    destruct (J2 f Hf') as [H1 H2]. split; [|exact H2].
    apply filter_In in H1. destruct H1 as [_ H1]. apply Z.leb_le. exact H1.
Qed.

(** C6 over the three logged calls, one of which was answered 404. *)
Lemma C6_witness :
  consistent Pg.empty
  /\ connected (dbService Scenario.repo) Scenario.logged = true
  /\ faults Scenario.logged = []
  /\ provisioned (store Scenario.logged) = true
  /\ exists rows,
       fst (getFailedResponses Scenario.repo Scenario.logged) = Return rows
       /\ Permutation (map Pg.f_response rows)
            (filter (fun res => 400 <=? Pg.status_code res)
                    (Pg.responses (store Scenario.logged))).
Proof.
  unfold Scenario.logged, Scenario.fresh.
  assert (H2 : connected (dbService Scenario.repo)
                 (run_ops Scenario.history (boot Pg.empty [] 1000 false Scenario.base))
               = true)
    by (vm_compute; reflexivity).
  assert (H3 : faults (run_ops Scenario.history
                         (boot Pg.empty [] 1000 false Scenario.base)) = [])
    by (vm_compute; reflexivity).
  assert (H4 : provisioned
                 (store (run_ops Scenario.history
                           (boot Pg.empty [] 1000 false Scenario.base))) = true)
    by (vm_compute; reflexivity).
  split; [exact consistent_empty|].
  repeat (split; [assumption|]).
  destruct (C6_failed_responses Pg.empty [] 1000 false Scenario.base
              Scenario.history Scenario.repo consistent_empty H2 H3 H4)
    as (rows & E & Pm & _).
  exists rows. split; [|exact Pm].
  rewrite E. reflexivity.
Defined.

End Reads.

(** ** The connection manager is a singleton *)

#[local] Instance keeps_single_preorder : PreOrder keeps_single.
Proof.
  split.
  - intros w H. exact H.
  - intros a b c H1 H2 H. apply H2, H1, H.
Qed.

Section Singleton.
Import DatabaseService.

Lemma single_same (w w' : World) :
  heap w' = heap w -> instance w' = instance w -> live_pools w' = live_pools w ->
  keeps_single w w'.
Proof. intros H1 H2 H3. unfold keeps_single, single. rewrite H1, H2, H3. tauto. Qed.

Lemma quiet_single (w w' : World) :
  heap w' = heap w -> instance w' = instance w ->
  live_pools w' = live_pools w -> store w' = store w -> keeps_single w w'.
Proof. intros H1 H2 H3 _. apply single_same; assumption. Qed.

Lemma run_statement_single q : steps keeps_single (run_statement q).
Proof.
  intros w. unfold run_statement.
  destruct (Pg.exec q (now w) (store w)) as [[e|r] s']; apply single_same; reflexivity.
Qed.

Lemma getInstance_single : steps keeps_single getInstance.
Proof.
  intros w S. unfold getInstance.
  destruct (instance w) as [a|] eqn:I; simpl; [exact S|].
  unfold single in *. rewrite I in S. simpl.
  destruct S as [H1 H2]. rewrite H1, H2. simpl.
  split; [reflexivity|]. exists new_DatabaseService. split; reflexivity.
Qed.

Lemma single_at (w : World) (this : nat) (o : DatabaseServiceFields) :
  single w ->
  nth_error (heap w) this = Some o ->
  this = 0%nat /\ instance w = Some 0%nat /\ heap w = [o]
  /\ live_pools w = match pool o with Some p => [p] | None => [] end.
Proof.
  unfold single. intros S E.
  destruct (instance w) as [a|].
  - destruct S as [-> [o' [H1 H2]]]. rewrite H1 in E.
    destruct this as [|n]; simpl in E.
    + inversion E; subst. repeat split; assumption.
    + destruct n; discriminate.
  - destruct S as [H1 _]. rewrite H1 in E. destruct this; discriminate.
Qed.

Lemma single_intro (w : World) (o : DatabaseServiceFields) :
  instance w = Some 0%nat ->
  heap w = [o] ->
  live_pools w = match pool o with Some p => [p] | None => [] end ->
  single w.
Proof.
  intros H1 H2 H3. unfold single. rewrite H1. split; [reflexivity|].
  exists o. split; assumption.
Qed.

(** Assigning a field other than [pool]. *)
Lemma this_update_single this f :
  (forall o, pool (f o) = pool o) -> steps keeps_single (this_update this f).
Proof.
  intros Hf w S. unfold this_update, modify. simpl.
  unfold single in *. simpl.
  destruct (instance w) as [a|].
  - destruct S as [-> [o [H1 H2]]]. split; [reflexivity|]. rewrite H1.
    destruct this as [|n]; simpl.
    + exists (f o). rewrite Hf. split; [reflexivity | exact H2].
    + exists o. split; [destruct n; reflexivity | exact H2].
  - destruct S as [H1 H2]. rewrite H1. simpl.
    split; [destruct this; reflexivity | exact H2].
Qed.

Ltac generic_single lemma :=
  apply lemma;
  first [ exact keeps_single_preorder | exact quiet_single
        | exact run_statement_single | exact getInstance_single ].

Ltac singles :=
  repeat first
    [ generic_single external_steps | generic_single this_fields_steps
    | generic_single console_log_steps
    | generic_single pool_query_steps | generic_single pool_connect_steps
    | generic_single client_release_steps | generic_single initializeDatabase_steps
    | apply this_update_single; intros ?; reflexivity
    | step_with keeps_single_preorder ltac:(apply single_same; reflexivity) ].

(** What follows the creation of the pool in [initialize]. *)
Lemma provision_single this :
  steps keeps_single
    (bind (this_fields this)
       (fun o' =>
          match pool o' with
          | None => throw (Js.new_Error
                             "TypeError: Cannot read properties of null (reading 'connect')")
          | Some p =>
              bind (pool_connect p)
                (fun client =>
                   try_finally (DatabaseUtil.initializeDatabase client)
                               (client_release client))
          end)).
Proof. singles. Qed.

Lemma initializeTestContainer_single (w : World) (o : DatabaseServiceFields) :
  instance w = Some 0%nat -> heap w = [o] -> pool o = None -> live_pools w = [] ->
  single (snd (initializeTestContainer 0 w)).
Proof.
  intros H1 H2 H3 H4.
  unfold initializeTestContainer, container_start, new_Pool, this_update, console_log,
    bind, modify, external.
  simpl. destruct (faults w) as [|[|] fs]; simpl.
  - eapply single_intro; simpl; [exact H1 | rewrite H2; reflexivity |].
    simpl. rewrite H4. reflexivity.
  - eapply single_intro; simpl; [exact H1 | exact H2 | rewrite H3; exact H4].
  - eapply single_intro; simpl; [exact H1 | rewrite H2; reflexivity |].
    simpl. rewrite H4. reflexivity.
Qed.

Lemma initializeFromConfig_single (w : World) (o : DatabaseServiceFields) :
  instance w = Some 0%nat -> heap w = [o] -> pool o = None -> live_pools w = [] ->
  single (snd (initializeFromConfig 0 w)).
Proof.
  intros H1 H2 H3 H4.
  unfold initializeFromConfig.
  unfold bind at 1. unfold console_log at 1, modify at 1.
  unfold bind at 1. unfold new_Pool at 1.
  unfold bind at 1. unfold this_update at 1, modify at 1.
  match goal with |- single (snd (try_catch ?c ?h ?w1)) =>
    assert (S1 : single w1);
    [ | assert (T : steps keeps_single (try_catch c h)) by singles;
        exact (T w1 S1) ]
  end.
  eapply single_intro; simpl; [exact H1 | rewrite H2; reflexivity |].
  simpl. rewrite H4. reflexivity.
Qed.

Lemma initialize_single this b : steps keeps_single (initialize this b).
Proof.
  intros w S. unfold initialize. unfold bind at 1. unfold this_fields at 1.
  destruct (nth_error (heap w) this) as [o|] eqn:E; [|exact S].
  destruct (single_at w this o S E) as (-> & H1 & H2 & H3).
  destruct (pool o) as [p|] eqn:P.
  - generalize S. apply single_same; reflexivity.
  - unfold bind at 1. unfold gets at 1.
    assert (B : single (snd ((if b && negb (production w)
                               then initializeTestContainer 0
                               else initializeFromConfig 0) w))).
    { destruct (b && negb (production w)).
      - eapply initializeTestContainer_single; eauto.
      - eapply initializeFromConfig_single; eauto. }
    unfold bind at 1.
    destruct ((if b && negb (production w)
               then initializeTestContainer 0
               else initializeFromConfig 0) w) as [[u|e] w1]; simpl in B.
    + exact (provision_single 0 w1 B).
    + exact B.
Qed.

(** The second half of [close]. *)
Lemma close_container_single this :
  steps keeps_single
    (bind (this_fields this)
       (fun o' =>
          match container o' with
          | Some c =>
              bind (container_stop c)
                (fun _ => bind (this_update this (set_container None))
                            (fun _ => console_log "PostgreSQL container stopped"))
          | None => ret tt
          end)).
Proof. unfold container_stop. singles. Qed.

Lemma close_single this : steps keeps_single (close this).
Proof.
  intros w S. unfold close. unfold bind at 1. unfold bind at 1.
  unfold this_fields at 1.
  destruct (nth_error (heap w) this) as [o|] eqn:E; [|exact S].
  destruct (single_at w this o S E) as (-> & H1 & H2 & H3).
  destruct (pool o) as [p|] eqn:P.
  - assert (B : single (snd ((bind (pool_end p)
                                (fun _ => bind (this_update 0 (set_pool None))
                                  (fun _ => console_log "Database connection pool closed")))
                               w))).
    { unfold pool_end, this_update, console_log, bind, gets, modify, external, throw.
      rewrite H3. simpl. rewrite Nat.eqb_refl. simpl.
      destruct (faults w) as [|[|] fs]; simpl.
      - eapply single_intro; simpl; [exact H1 | rewrite H2; reflexivity |].
        simpl. rewrite H3. simpl. rewrite Nat.eqb_refl. reflexivity.
      - eapply single_intro; simpl; [exact H1 | exact H2 | rewrite P; exact H3].
      - eapply single_intro; simpl; [exact H1 | rewrite H2; reflexivity |].
        simpl. rewrite H3. simpl. rewrite Nat.eqb_refl. reflexivity. }
    destruct (bind (pool_end p) _ w) as [[u|e] w1]; simpl in B.
    + exact (close_container_single 0 w1 B).
    + exact B.
  - unfold ret at 1. exact (close_container_single 0 w S).
Qed.

Lemma run_op_single op : steps keeps_single (run_op op).
Proof.
  destruct op;
    try (apply (run_op_steps keeps_single keeps_single_preorder quiet_single
                  run_statement_single getInstance_single); congruence).
  - unfold run_op. apply steps_discard.
    apply (steps_bind _ keeps_single_preorder);
      [apply getInstance_single | intros a; apply initialize_single].
  - unfold run_op. apply steps_discard.
    apply (steps_bind _ keeps_single_preorder);
      [apply getInstance_single | intros a; apply close_single].
Qed.

Lemma run_ops_single (ops : list Op) (w : World) :
  single w -> single (run_ops ops w).
Proof.
  revert w. induction ops as [|op ops IH]; intros w S; simpl.
  - exact S.
  - apply IH. apply (run_op_single op w S).
Qed.

Lemma boot_single s0 fs t0 prod base : single (boot s0 fs t0 prod base).
Proof. unfold single. simpl. split; reflexivity. Qed.

Lemma single_getInstance (w : World) : single w -> fst (getInstance w) = Return 0%nat.
Proof.
  unfold single, getInstance. intros S.
  destruct (instance w) as [a|]; simpl.
  - destruct S as [-> _]. reflexivity.
  - destruct S as [-> _]. reflexivity.
Qed.

Lemma run_ops_app (ops ops' : list Op) (w : World) :
  run_ops (ops ++ ops') w = run_ops ops' (run_ops ops w).
Proof. unfold run_ops. apply fold_left_app. Qed.

(** C5. Through every history of a process: at most one pool is live and
    at most one [DatabaseService] object was ever constructed;
    [getInstance] returns the same object now and after any continuation;
    and [initialize] on a service that holds a pool returns at once,
    leaving the world as it was but for its line on the console. *)
Theorem C5_single_pool :
  forall (s0 : Pg.Store) (fs : list bool) (t0 : Z) (prod : bool) (base : string)
         (ops : list Op),
    let w := run_ops ops (boot s0 fs t0 prod base) in
    (List.length (live_pools w) <= 1)%nat
    /\ (List.length (heap w) <= 1)%nat
    /\ (forall ops' : list Op,
          fst (getInstance (run_ops ops' w)) = fst (getInstance w))
    /\ (forall (this : nat) (o : DatabaseServiceFields) (p : nat) (b : bool),
          nth_error (heap w) this = Some o ->
          pool o = Some p ->
          live_pools w = [p]
          /\ initialize this b w
             = (Return tt, said "Database connection already initialized" w)).
Proof.
  intros s0 fs t0 prod base ops w.
  assert (S : single w) by (apply run_ops_single, boot_single).
  split; [|split; [|split]].
  - unfold single in S. destruct (instance w).
    + destruct S as [_ [o [_ H]]]. rewrite H. destruct (pool o); simpl; lia.
    + destruct S as [_ H]. rewrite H. simpl. lia.
  - unfold single in S. destruct (instance w).
    + destruct S as [_ [o [H _]]]. rewrite H. simpl. lia.
    + destruct S as [H _]. rewrite H. simpl. lia.
  - intros ops'. rewrite !single_getInstance; [reflexivity | exact S |].
    apply run_ops_single. exact S.
  - intros this o p b E P.
    destruct (single_at w this o S E) as (_ & _ & _ & H). rewrite P in H.
    split; [exact H|].
    unfold initialize, bind, this_fields. rewrite E, P. reflexivity.
Qed.

End Singleton.

(* ===================================================================== *)
(** * Further properties *)
(* ===================================================================== *)

(** ** The log store: writes *)

Section RepositoryWrites.
Import ApiLogRepository.

Lemma find_app_last {A} (f : A -> bool) (l : list A) (x : A) :
  f x = true -> exists y, find f (l ++ [x]) = Some y.
Proof.
  intros H. induction l as [|a l IH]; simpl.
  - rewrite H. eauto.
  - destruct (f a); eauto.
Qed.

Lemma find_all_false {A} (f : A -> bool) (l : list A) :
  (forall x, In x l -> f x = false) -> find f l = None.
Proof.
  induction l as [|a l IH]; intros H; [reflexivity|]. simpl.
  rewrite (H a (or_introl eq_refl)). apply IH. intros x Hx. apply H. right. exact Hx.
Qed.

(** What [logResponse] does on a live connection to the provisioned store
    when the request it references exists. *)
Lemma logResponse_inserts (repo : t) (response : ApiResponseLog) (w : World) :
  connected (dbService repo) w = true ->
  faults w = [] ->
  Pg.has_table (store w) "api_test" "api_responses" = true ->
  (exists r, Pg.find_request (store w) (requestId response) = Some r) ->
  let h := json_or_null (record_value (log_headers response)) in
  let b := json_or_null (log_body response) in
  let s := store w in
  logResponse repo response w
  = (Return (Pg.responses_seq s),
     ran (Pg.InsertResponse (requestId response) (statusCode response) h b
            (responseTimeMs response))
         (Pg.mkStore (Pg.schemata s) (Pg.tables s) (Pg.requests s)
            (Pg.responses s ++
             [Pg.mkResponseRow (Pg.responses_seq s) (requestId response)
                (statusCode response) h b (responseTimeMs response) (now w)])
            (Pg.requests_seq s) (Pg.responses_seq s + 1))
         w).
Proof.
  intros C F T [r Hr]. cbv zeta.
  rewrite logResponse_repo_run.
  rewrite query_healthy by assumption.
  cbn [Pg.exec]. unfold Pg.with_responses. cbn [fst snd Pg.responses_table].
  rewrite !T, !Hr. reflexivity.
Qed.

(** In the model a response that references no logged request is refused
    by the foreign key. *)
Lemma dangling_reference_run :
  forall (repo : t) (response : ApiResponseLog) (w : World),
    connected (dbService repo) w = true ->
    faults w = [] ->
    provisioned (store w) = true ->
    (forall r, In r (Pg.requests (store w)) -> Pg.id r <> requestId response) ->
    let w' := snd (logResponse repo response w) in
    fst (logResponse repo response w)
    = Throw (Pg.error "insert on api_responses violates foreign key constraint")
    /\ Pg.requests (store w') = Pg.requests (store w)
    /\ Pg.responses (store w') = Pg.responses (store w).
Proof.
  intros repo response w C F P N. cbv zeta.
  destruct (provisioned_tables _ P) as [_ Tr].
  assert (Hf : Pg.find_request (store w) (requestId response) = None).
  { unfold Pg.find_request. apply find_all_false. intros r Hr.
    apply Z.eqb_neq. apply N. exact Hr. }
  rewrite logResponse_repo_run.
  rewrite query_healthy by assumption.
  cbn [Pg.exec]. unfold Pg.with_responses. cbn [fst snd Pg.responses_table].
  rewrite !Tr, !Hf. repeat split.
Qed.

(** X2. A response that references no logged request cannot be logged:
    over a live connection to the provisioned store, [logResponse] throws
    and neither table gains a row. *)
Theorem logResponse_dangling_reference_fails :
  forall (repo : t) (response : ApiResponseLog) (w : World),
    connected (dbService repo) w = true ->
    faults w = [] ->
    provisioned (store w) = true ->
    (forall r, In r (Pg.requests (store w)) -> Pg.id r <> requestId response) ->
    let w' := snd (logResponse repo response w) in
    (exists e : Js.Error, fst (logResponse repo response w) = Throw e)
    /\ Pg.requests (store w') = Pg.requests (store w)
    /\ Pg.responses (store w') = Pg.responses (store w).
Proof.
  intros repo response w C F P N. cbv zeta.
  destruct (dangling_reference_run repo response w C F P N) as (E & Rq & Rs).
  split; [eexists; exact E|]. split; assumption.
Qed.

(** X2 on the provisioned store before any request was logged. *)
Lemma logResponse_dangling_reference_fails_witness :
  connected (dbService Scenario.repo) Scenario.ready = true
  /\ faults Scenario.ready = []
  /\ provisioned (store Scenario.ready) = true
  /\ exists e : Js.Error,
       fst (logResponse Scenario.repo
              (mkApiResponseLog 42 200 None Js.Undefined 10) Scenario.ready)
       = Throw e.
Proof.
  assert (H1 : connected (dbService Scenario.repo) Scenario.ready = true) by reflexivity.
  assert (H2 : faults Scenario.ready = []) by reflexivity.
  assert (H3 : provisioned (store Scenario.ready) = true) by reflexivity.
  split; [exact H1|]. split; [exact H2|]. split; [exact H3|].
  refine (proj1 (logResponse_dangling_reference_fails Scenario.repo
                   (mkApiResponseLog 42 200 None Js.Undefined 10)
                   Scenario.ready H1 H2 H3 _)).
  intros r Hr. vm_compute in Hr. destruct Hr.
Defined.

End RepositoryWrites.

(** ** The instrumented client: the successful path *)

Section ClientSuccess.
Import ApiClientService Shape.

Lemma method_fits (this : t) (call : Call) :
  (String.length (method (request_of this call)) <= 10)%nat.
Proof. destruct call; simpl; lia. Qed.

(** What an answered call leaves in the model. *)
Lemma answered_call_run :
  forall (this : t) (repo : ApiLogRepository.t) (call : Call) (w : World)
         (response : Http.APIResponse),
    logRepository this = Some repo ->
    connected (ApiLogRepository.dbService repo) w = true ->
    faults w = [] ->
    provisioned (store w) = true ->
    (String.length (call_url this call) <= 500)%nat ->
    Http.result (apiContext this (http_of this call)) = inr response ->
    let s := store w in
    let w' := snd (perform this call w) in
    let elapsed := Http.elapsed (apiContext this (http_of this call)) in
    let request := request_of this call in
    let record := response_log (Pg.requests_seq s) response elapsed in
    fst (perform this call w) = Return response
    /\ Pg.requests (store w')
       = (Pg.requests s ++
          [Pg.mkRequestRow (Pg.requests_seq s) (call_url this call) (method request)
             (ApiLogRepository.json_or_null (record_value (headers request)))
             (ApiLogRepository.json_or_null (body request)) (now w)])%list
    /\ Pg.responses (store w')
       = (Pg.responses s ++
          [Pg.mkResponseRow (Pg.responses_seq s) (Pg.requests_seq s)
             (Http.status response)
             (ApiLogRepository.json_or_null (record_value (log_headers record)))
             (ApiLogRepository.json_or_null (log_body record))
             elapsed (now w + elapsed)])%list
    /\ network w' = (network w ++ [http_of this call])%list.
Proof.
  intros this repo call w response Hrepo C F P Len Hres. cbv zeta.
  destruct (provisioned_tables _ P) as [Tq Tr].
  pose proof (method_fits this call) as Lm.
  assert (Le : (String.length (endpoint (request_of this call)) <= 500)%nat)
    by (rewrite request_of_endpoint; exact Len).
  pose proof (logRequest_inserts repo (request_of this call) w C F Tq Le Lm) as E1.
  cbv zeta in E1. rewrite request_of_endpoint in E1.
  rewrite perform_logged_call, logged_call_run, Hrepo, E1. cbv zeta. rewrite Hres.
  match goal with |- context [after_send this ?req (ran ?q ?s1 w)] =>
    set (w2 := after_send this req (ran q s1 w)) end.
  assert (N2 : now w2 - now w = Http.elapsed (apiContext this (http_of this call)))
    by (unfold w2, after_send, ran; simpl; lia).
  rewrite N2.
  assert (C2 : connected (ApiLogRepository.dbService repo) w2 = true) by exact C.
  assert (F2 : faults w2 = []) by exact F.
  assert (T2 : Pg.has_table (store w2) "api_test" "api_responses" = true) by exact Tr.
  assert (R2 : exists r,
             Pg.find_request (store w2)
               (requestId (response_log (Pg.requests_seq (store w)) response
                             (Http.elapsed (apiContext this (http_of this call)))))
             = Some r).
  { unfold w2, after_send, ran, Pg.find_request. simpl.
    apply find_app_last. simpl. apply Z.eqb_refl. }
  rewrite (logResponse_inserts repo _ w2 C2 F2 T2 R2).
  unfold w2, after_send, ran. simpl. repeat split.
Qed.

Lemma keyed_ready : keyed (store Scenario.ready).
Proof.
  constructor.
  - unfold Scenario.ready. apply run_ops_consistent. exact consistent_empty.
  - vm_compute. constructor.
  - split; apply Z.leb_le; vm_compute; reflexivity.
  - split; apply Z.leb_le; vm_compute; reflexivity.
Qed.

Lemma keyed_logged : keyed (store Scenario.logged).
Proof.
  constructor.
  - unfold Scenario.logged. apply run_ops_consistent. exact consistent_empty.
  - vm_compute. repeat (constructor; [reflexivity|]). constructor.
  - split; apply Z.leb_le; vm_compute; reflexivity.
  - split; apply Z.leb_le; vm_compute; reflexivity.
Qed.

(** X1. A call that the server answers, made through a client that logs
    over a live connection to the provisioned store, with keys as a
    server has them, a URL that fits the endpoint column, and texts and
    numbers the columns take: the response is returned as it is, one HTTP
    call is made, and the store gains one request row and one response
    row; the request row has the next id of the sequence, the URL and the
    method, the response row references it and has the status of the
    response. *)
Theorem answered_call_logs_one_pair :
  forall (this : t) (repo : ApiLogRepository.t) (call : Call) (w : World)
         (response : Http.APIResponse),
    logRepository this = Some repo ->
    connected (ApiLogRepository.dbService repo) w = true ->
    faults w = [] ->
    provisioned (store w) = true ->
    keyed (store w) ->
    (String.length (call_url this call) <= 500)%nat ->
    no_nul (call_url this call) = true ->
    Http.result (apiContext this (http_of this call)) = inr response ->
    let request := request_of this call in
    let elapsed := Http.elapsed (apiContext this (http_of this call)) in
    let record := response_log (Pg.requests_seq (store w)) response elapsed in
    storable_json (ApiLogRepository.json_or_null (record_value (headers request))) = true ->
    storable_json (ApiLogRepository.json_or_null (body request)) = true ->
    storable_json (ApiLogRepository.json_or_null (record_value (log_headers record)))
    = true ->
    storable_json (ApiLogRepository.json_or_null (log_body record)) = true ->
    int4 (Http.status response) = true ->
    int4 elapsed = true ->
    let w' := snd (perform this call w) in
    fst (perform this call w) = Return response
    /\ (exists (q : Pg.RequestRow) (res : Pg.ResponseRow),
          Pg.requests (store w') = (Pg.requests (store w) ++ [q])%list
          /\ Pg.responses (store w') = (Pg.responses (store w) ++ [res])%list
          /\ Pg.id q = Pg.requests_seq (store w)
          /\ Pg.endpoint q = call_url this call
          /\ Pg.method q = method request
          /\ Pg.res_id res = Pg.responses_seq (store w)
          /\ Pg.request_id res = Pg.id q
          /\ Pg.status_code res = Http.status response)
    /\ network w' = (network w ++ [http_of this call])%list.
Proof.
  intros this repo call w response Hrepo C F P K Len _ Hres request elapsed record
         _ _ _ _ _ _ w'.
  destruct (answered_call_run this repo call w response Hrepo C F P Len Hres)
    as (R & Rq & Rs & N).
  split; [exact R|]. split; [|exact N].
  eexists. eexists. split; [exact Rq|]. split; [exact Rs|].
  repeat split.
Qed.

(** X1 for GET /users/1 in the provisioned world. *)
Lemma answered_call_logs_one_pair_witness :
  let this := Scenario.client Scenario.ctx_ok in
  logRepository this = Some Scenario.repo
  /\ connected (ApiLogRepository.dbService Scenario.repo) Scenario.ready = true
  /\ faults Scenario.ready = []
  /\ provisioned (store Scenario.ready) = true
  /\ keyed (store Scenario.ready)
  /\ (String.length (call_url this Scenario.get_user) <= 500)%nat
  /\ no_nul (call_url this Scenario.get_user) = true
  /\ int4 (Http.status Scenario.ok_response) = true
  /\ fst (perform this Scenario.get_user Scenario.ready) = Return Scenario.ok_response.
Proof.
  cbv zeta.
  assert (H1 : logRepository (Scenario.client Scenario.ctx_ok) = Some Scenario.repo)
    by reflexivity.
  assert (H2 : connected (ApiLogRepository.dbService Scenario.repo) Scenario.ready = true)
    by reflexivity.
  assert (H3 : faults Scenario.ready = []) by reflexivity.
  assert (H4 : provisioned (store Scenario.ready) = true) by reflexivity.
  assert (H5 : (String.length (call_url (Scenario.client Scenario.ctx_ok)
                                 Scenario.get_user) <= 500)%nat)
    by (apply Nat.leb_le; vm_compute; reflexivity).
  assert (H6 : no_nul (call_url (Scenario.client Scenario.ctx_ok) Scenario.get_user)
               = true) by (vm_compute; reflexivity).
  assert (H7 : int4 (Http.status Scenario.ok_response) = true) by reflexivity.
  split; [exact H1|]. split; [exact H2|]. split; [exact H3|]. split; [exact H4|].
  split; [exact keyed_ready|]. split; [exact H5|]. split; [exact H6|].
  split; [exact H7|].
  refine (proj1 (answered_call_logs_one_pair (Scenario.client Scenario.ctx_ok)
                   Scenario.repo Scenario.get_user Scenario.ready
                   Scenario.ok_response H1 H2 H3 H4 keyed_ready H5 H6 eq_refl
                   _ _ _ _ H7 _));
    vm_compute; reflexivity.
Defined.

End ClientSuccess.

(** ** The log store: reads *)

Section RepositoryReads.
Import ApiLogRepository.

Lemma filter_nil_all {A} (f : A -> bool) (l : list A) :
  filter f l = [] -> forall x, In x l -> f x = false.
Proof.
  induction l as [|a l IH]; intros H x Hx; [destruct Hx|].
  simpl in H. destruct (f a) eqn:E; [discriminate|].
  destruct Hx as [->|Hx]; [exact E | apply IH; assumption].
Qed.

Lemma filter_head {A} (f : A -> bool) (l : list A) (x : A) (l' : list A) :
  filter f l = x :: l' -> In x l /\ f x = true.
Proof.
  intros H. apply filter_In. rewrite H. left. reflexivity.
Qed.

(** X3. [getRequestWithResponse(id)] for an id within the range of the
    [INTEGER] column, over a live connection to the provisioned store: the
    result is undefined exactly when no request has that id; otherwise it
    is a logged request with that id, joined to a logged response that
    references it, or to no response exactly when no response references
    it.  The store is left as it was. *)
Theorem getRequestWithResponse_joins :
  forall (repo : t) (i : Z) (w : World),
    int4 i = true ->
    connected (dbService repo) w = true ->
    faults w = [] ->
    provisioned (store w) = true ->
    exists result : option Pg.JoinedRow,
      getRequestWithResponse repo i w
      = (Return result, ran (Pg.SelectRequestWithResponse i) (store w) w)
      /\ match result with
         | None => forall r, In r (Pg.requests (store w)) -> Pg.id r <> i
         | Some j =>
             In (Pg.j_request j) (Pg.requests (store w))
             /\ Pg.id (Pg.j_request j) = i
             /\ match Pg.j_response j with
                | None =>
                    forall res, In res (Pg.responses (store w)) ->
                                Pg.request_id res <> i
                | Some res =>
                    In res (Pg.responses (store w)) /\ Pg.request_id res = i
                end
         end.
Proof.
  intros repo i w _ C F P.
  destruct (provisioned_tables _ P) as [Tq Tr].
  eexists. split.
  - unfold getRequestWithResponse. unfold bind.
    rewrite query_healthy by assumption.
    cbn [Pg.exec]. unfold Pg.with_requests, Pg.with_responses.
    cbn [fst snd Pg.requests_table Pg.responses_table].
    rewrite !Tq, !Tr. cbn [fst snd joined_rows]. reflexivity.
  - destruct (filter (fun r => Pg.id r =? i) (Pg.requests (store w)))
      as [|r rs] eqn:L; simpl.
    + intros r Hr. apply Z.eqb_neq. exact (filter_nil_all _ _ L r Hr).
    + destruct (filter_head _ _ _ _ L) as [Hr Hi]. apply Z.eqb_eq in Hi.
      unfold Pg.left_join_responses.
      destruct (filter (fun res => Pg.id r =? Pg.request_id res) (Pg.responses (store w)))
        as [|res rest] eqn:R; simpl.
      * repeat split; try assumption.
        intros res Hres Heq.
        pose proof (filter_nil_all _ _ R res Hres) as X. simpl in X.
        apply Z.eqb_neq in X. congruence.
      * destruct (filter_head _ _ _ _ R) as [Hres Hq]. apply Z.eqb_eq in Hq.
        repeat split; try assumption. congruence.
Qed.

(** X3 for the request answered 404 among the three logged calls. *)
Lemma getRequestWithResponse_joins_witness :
  int4 2 = true
  /\ connected (dbService Scenario.repo) Scenario.logged = true
  /\ faults Scenario.logged = []
  /\ provisioned (store Scenario.logged) = true
  /\ exists result,
       fst (getRequestWithResponse Scenario.repo 2 Scenario.logged) = Return result.
Proof.
  assert (H2 : connected (dbService Scenario.repo) Scenario.logged = true)
    by (vm_compute; reflexivity).
  assert (H3 : faults Scenario.logged = []) by (vm_compute; reflexivity).
  assert (H4 : provisioned (store Scenario.logged) = true) by (vm_compute; reflexivity).
  split; [reflexivity|]. split; [exact H2|]. split; [exact H3|]. split; [exact H4|].
  destruct (getRequestWithResponse_joins Scenario.repo 2 Scenario.logged
              eq_refl H2 H3 H4)
    as (result & E & _).
  exists result. rewrite E. reflexivity.
Defined.

(** X4. [getAllRequests] and [getAllResponses] over a live connection to
    the provisioned store return every row of their table, each once,
    latest first, and leave the store as it was. *)
Theorem getAll_complete_and_ordered :
  forall (repo : t) (w : World),
    connected (dbService repo) w = true ->
    faults w = [] ->
    provisioned (store w) = true ->
    (exists rows,
        getAllRequests repo w = (Return rows, ran Pg.SelectAllRequests (store w) w)
        /\ Permutation rows (Pg.requests (store w))
        /\ descending Pg.timestamp rows)
    /\ (exists rows,
          getAllResponses repo w = (Return rows, ran Pg.SelectAllResponses (store w) w)
          /\ Permutation rows (Pg.responses (store w))
          /\ descending Pg.res_timestamp rows).
Proof.
  intros repo w C F P.
  destruct (provisioned_tables _ P) as [Tq Tr].
  split; eexists; (split; [|split; [apply order_by_desc_perm|apply order_by_desc_sorted]]).
  - unfold getAllRequests. unfold bind. rewrite query_healthy by assumption.
    cbn [Pg.exec]. unfold Pg.with_requests. cbn [fst snd Pg.requests_table].
    rewrite !Tq. reflexivity.
  - unfold getAllResponses. unfold bind. rewrite query_healthy by assumption.
    cbn [Pg.exec]. unfold Pg.with_responses. cbn [fst snd Pg.responses_table].
    rewrite !Tr. reflexivity.
Qed.

(** X4 over the three logged calls. *)
Lemma getAll_complete_and_ordered_witness :
  connected (dbService Scenario.repo) Scenario.logged = true
  /\ faults Scenario.logged = []
  /\ provisioned (store Scenario.logged) = true
  /\ exists rows,
       fst (getAllRequests Scenario.repo Scenario.logged) = Return rows
       /\ Permutation rows (Pg.requests (store Scenario.logged)).
Proof.
  assert (H2 : connected (dbService Scenario.repo) Scenario.logged = true)
    by (vm_compute; reflexivity).
  assert (H3 : faults Scenario.logged = []) by (vm_compute; reflexivity).
  assert (H4 : provisioned (store Scenario.logged) = true) by (vm_compute; reflexivity).
  repeat (split; [assumption|]).
  destruct (getAll_complete_and_ordered Scenario.repo Scenario.logged H2 H3 H4)
    as [(rows & E & Pm & _) _].
  exists rows. split; [rewrite E; reflexivity | exact Pm].
Defined.

(** X5. [getRequestsByMethod(m)] for a method without U+0000, which the
    server takes in no text, over a live connection to the provisioned
    store returns the logged requests whose method is [m], compared
    character for character, latest first, and leaves the store as it
    was. *)
Theorem getRequestsByMethod_exact :
  forall (repo : t) (m : string) (w : World),
    no_nul m = true ->
    connected (dbService repo) w = true ->
    faults w = [] ->
    provisioned (store w) = true ->
    exists rows,
      getRequestsByMethod repo m w
      = (Return rows, ran (Pg.SelectRequestsByMethod m) (store w) w)
      /\ descending Pg.timestamp rows
      /\ (forall r, In r rows <-> In r (Pg.requests (store w)) /\ Pg.method r = m)
      /\ Permutation rows
           (filter (fun r => String.eqb (Pg.method r) m) (Pg.requests (store w))).
Proof.
  intros repo m w _ C F P.
  destruct (provisioned_tables _ P) as [Tq _].
  eexists. split; [|split; [apply order_by_desc_sorted|split]].
  - unfold getRequestsByMethod. unfold bind. rewrite query_healthy by assumption.
    cbn [Pg.exec]. unfold Pg.with_requests. cbn [fst snd Pg.requests_table].
    rewrite !Tq. reflexivity.
  - intros r.
    pose proof (filter_In (fun r => String.eqb (Pg.method r) m) r
                  (Pg.requests (store w))) as FI.
    cbv beta in FI. rewrite String.eqb_eq in FI. rewrite <- FI.
    split; intros H.
    + eapply Permutation_in; [apply order_by_desc_perm | exact H].
    + eapply Permutation_in; [apply Permutation_sym, order_by_desc_perm | exact H].
  - apply order_by_desc_perm.
Qed.

(** X5 for the method POST over the three logged calls. *)
Lemma getRequestsByMethod_exact_witness :
  no_nul "POST" = true
  /\ connected (dbService Scenario.repo) Scenario.logged = true
  /\ faults Scenario.logged = []
  /\ provisioned (store Scenario.logged) = true
  /\ exists rows,
       fst (getRequestsByMethod Scenario.repo "POST" Scenario.logged) = Return rows
       /\ (forall r, In r rows -> Pg.method r = "POST").
Proof.
  assert (H2 : connected (dbService Scenario.repo) Scenario.logged = true)
    by (vm_compute; reflexivity).
  assert (H3 : faults Scenario.logged = []) by (vm_compute; reflexivity).
  assert (H4 : provisioned (store Scenario.logged) = true) by (vm_compute; reflexivity).
  split; [reflexivity|]. split; [exact H2|]. split; [exact H3|]. split; [exact H4|].
  destruct (getRequestsByMethod_exact Scenario.repo "POST" Scenario.logged
              eq_refl H2 H3 H4)
    as (rows & E & _ & I & _).
  exists rows. split; [rewrite E; reflexivity|].
  intros r Hr. apply I in Hr. tauto.
Defined.

End RepositoryReads.

(** ** Writing and reading back *)

Section RoundTrip.
Import ApiLogRepository.

Lemma getRequestWithResponse_run (repo : t) (i : Z) (w : World) :
  connected (dbService repo) w = true ->
  faults w = [] ->
  provisioned (store w) = true ->
  getRequestWithResponse repo i w
  = (Return (hd_error
               (flat_map (Pg.left_join_responses (store w))
                  (filter (fun r => Pg.id r =? i) (Pg.requests (store w))))),
     ran (Pg.SelectRequestWithResponse i) (store w) w).
Proof.
  intros C F P. destruct (provisioned_tables _ P) as [Tq Tr].
  unfold getRequestWithResponse. unfold bind.
  rewrite query_healthy by assumption.
  cbn [Pg.exec]. unfold Pg.with_requests, Pg.with_responses.
  cbn [fst snd Pg.requests_table Pg.responses_table].
  rewrite !Tq, !Tr. reflexivity.
Qed.

Lemma filter_all_false {A} (f : A -> bool) (l : list A) :
  (forall x, In x l -> f x = false) -> filter f l = [].
Proof.
  induction l as [|a l IH]; intros H; [reflexivity|]. simpl.
  rewrite (H a (or_introl eq_refl)). apply IH. intros x Hx. apply H. right. exact Hx.
Qed.

(** In a consistent store the next value of the sequence is the id of no
    request, and no response references it. *)
Lemma next_id_fresh (s : Pg.Store) :
  consistent s ->
  filter (fun r => Pg.id r =? Pg.requests_seq s) (Pg.requests s) = []
  /\ filter (fun res => Pg.requests_seq s =? Pg.request_id res) (Pg.responses s) = [].
Proof.
  intros [A B C]. rewrite Forall_forall in A, C. split.
  - apply filter_all_false. intros r Hr. apply Z.eqb_neq.
    specialize (A r Hr). simpl in A. lia.
  - apply filter_all_false. intros res Hres. apply Z.eqb_neq.
    specialize (C res Hres). apply in_map_iff in C. destruct C as [r [E Hr]].
    specialize (A r Hr). simpl in A. lia.
Qed.

(** The round trip through the store of the model. *)
Lemma log_then_read_back_run :
  forall (repo : t) (request : ApiRequest) (w : World),
    connected (dbService repo) w = true ->
    faults w = [] ->
    provisioned (store w) = true ->
    consistent (store w) ->
    (String.length (endpoint request) <= 500)%nat ->
    (String.length (method request) <= 10)%nat ->
    let i := Pg.requests_seq (store w) in
    let row := Pg.mkRequestRow i (endpoint request) (method request)
                 (json_or_null (record_value (headers request)))
                 (json_or_null (body request)) (now w) in
    exists w1,
      logRequest repo request w = (Return i, w1)
      /\ fst (getRequestWithResponse repo i w1) = Return (Some (Pg.mkJoinedRow row None))
      /\ forall response : ApiResponseLog,
           requestId response = i ->
           exists w2,
             logResponse repo response w1 = (Return (Pg.responses_seq (store w)), w2)
             /\ fst (getRequestWithResponse repo i w2)
                = Return (Some (Pg.mkJoinedRow row
                     (Some (Pg.mkResponseRow (Pg.responses_seq (store w)) i
                              (statusCode response)
                              (json_or_null (record_value (log_headers response)))
                              (json_or_null (log_body response))
                              (responseTimeMs response) (now w))))).
Proof.
  intros repo request w C F P K Le Lm. cbv zeta.
  destruct (provisioned_tables _ P) as [Tq Tr].
  destruct (next_id_fresh _ K) as [Fq Fr].
  pose proof (logRequest_inserts repo request w C F Tq Le Lm) as E1. cbv zeta in E1.
  eexists. split; [exact E1|].
  match type of E1 with _ = (_, ?w1') => set (w1 := w1') in * end.
  assert (C1 : connected (dbService repo) w1 = true) by exact C.
  assert (F1 : faults w1 = []) by exact F.
  assert (P1 : provisioned (store w1) = true) by exact P.
  assert (Q1 : filter (fun r => Pg.id r =? Pg.requests_seq (store w))
                 (Pg.requests (store w1))
               = [Pg.mkRequestRow (Pg.requests_seq (store w)) (endpoint request)
                    (method request)
                    (json_or_null (record_value (headers request)))
                    (json_or_null (body request)) (now w)]).
  { unfold w1, ran. simpl. rewrite filter_app, Fq. simpl.
    rewrite Z.eqb_refl. reflexivity. }
  split.
  - rewrite getRequestWithResponse_run by assumption. cbn [fst].
    rewrite Q1. cbn [flat_map]. unfold Pg.left_join_responses.
    change (Pg.responses (store w1)) with (Pg.responses (store w)).
    cbn [Pg.id]. rewrite Fr. reflexivity.
  - intros response Hid.
    assert (R1 : exists r, Pg.find_request (store w1) (requestId response) = Some r).
    { rewrite Hid. unfold w1, ran, Pg.find_request. simpl.
      apply find_app_last. simpl. apply Z.eqb_refl. }
    pose proof (logResponse_inserts repo response w1 C1 F1
                  (proj2 (provisioned_tables _ P1)) R1) as E2.
    cbv zeta in E2.
    eexists. split; [exact E2|].
    match type of E2 with _ = (_, ?w2') => set (w2 := w2') in * end.
    assert (C2 : connected (dbService repo) w2 = true) by exact C.
    assert (F2 : faults w2 = []) by exact F.
    assert (P2 : provisioned (store w2) = true) by exact P.
    rewrite getRequestWithResponse_run by assumption. cbn [fst].
    change (Pg.requests (store w2)) with (Pg.requests (store w1)).
    rewrite Q1. cbn [flat_map]. unfold Pg.left_join_responses.
    assert (X : filter (fun res => Pg.requests_seq (store w) =? Pg.request_id res)
                  (Pg.responses (store w2))
                = [Pg.mkResponseRow (Pg.responses_seq (store w))
                     (Pg.requests_seq (store w)) (statusCode response)
                     (json_or_null (record_value (log_headers response)))
                     (json_or_null (log_body response))
                     (responseTimeMs response) (now w)]).
    { unfold w2, w1, ran. simpl. rewrite filter_app, Fr. simpl.
      rewrite Hid, Z.eqb_refl. reflexivity. }
    cbn [Pg.id]. rewrite X. reflexivity.
Qed.

(** X6. Round trip through the store.  On a live connection to a
    provisioned store with keys as a server has them, a request whose
    endpoint and method fit their columns, with texts the columns take, is
    logged under the next id of the sequence; read back by that id it
    comes with the endpoint and the method it was logged with and no
    response; once a response that references it is logged, with numbers
    and texts the columns take, reading back by the id gives the request
    joined to that response: its id, its reference, its status and its
    duration as they were written. *)
Theorem log_then_read_back :
  forall (repo : t) (request : ApiRequest) (w : World),
    connected (dbService repo) w = true ->
    faults w = [] ->
    provisioned (store w) = true ->
    keyed (store w) ->
    (String.length (endpoint request) <= 500)%nat ->
    (String.length (method request) <= 10)%nat ->
    no_nul (endpoint request) = true ->
    no_nul (method request) = true ->
    storable_json (json_or_null (record_value (headers request))) = true ->
    storable_json (json_or_null (body request)) = true ->
    let i := Pg.requests_seq (store w) in
    exists w1 : World,
      logRequest repo request w = (Return i, w1)
      /\ (exists j : Pg.JoinedRow,
            fst (getRequestWithResponse repo i w1) = Return (Some j)
            /\ Pg.id (Pg.j_request j) = i
            /\ Pg.endpoint (Pg.j_request j) = endpoint request
            /\ Pg.method (Pg.j_request j) = method request
            /\ Pg.j_response j = None)
      /\ forall response : ApiResponseLog,
           requestId response = i ->
           int4 (statusCode response) = true ->
           int4 (responseTimeMs response) = true ->
           storable_json (json_or_null (record_value (log_headers response))) = true ->
           storable_json (json_or_null (log_body response)) = true ->
           exists (w2 : World) (j : Pg.JoinedRow) (res : Pg.ResponseRow),
             logResponse repo response w1 = (Return (Pg.responses_seq (store w)), w2)
             /\ fst (getRequestWithResponse repo i w2) = Return (Some j)
             /\ Pg.id (Pg.j_request j) = i
             /\ Pg.endpoint (Pg.j_request j) = endpoint request
             /\ Pg.method (Pg.j_request j) = method request
             /\ Pg.j_response j = Some res
             /\ Pg.res_id res = Pg.responses_seq (store w)
             /\ Pg.request_id res = i
             /\ Pg.status_code res = statusCode response
             /\ Pg.response_time_ms res = responseTimeMs response.
Proof.
  intros repo request w C F P K Le Lm _ _ _ _ i.
  destruct (log_then_read_back_run repo request w C F P (keyed_consistent _ K) Le Lm)
    as (w1 & E1 & G1 & Rest).
  exists w1. split; [exact E1|]. split.
  - eexists. split; [exact G1|]. repeat split.
  - intros response Hid _ _ _ _.
    destruct (Rest response Hid) as (w2 & E2 & G2).
    exists w2. eexists. eexists. split; [exact E2|]. split; [exact G2|].
    repeat split.
Qed.

(** X6 for a POST logged after the three calls. *)
Lemma log_then_read_back_witness :
  connected (dbService Scenario.repo) Scenario.logged = true
  /\ faults Scenario.logged = []
  /\ provisioned (store Scenario.logged) = true
  /\ keyed (store Scenario.logged)
  /\ (String.length (endpoint Scenario.post_false) <= 500)%nat
  /\ (String.length (method Scenario.post_false) <= 10)%nat
  /\ no_nul (endpoint Scenario.post_false) = true
  /\ no_nul (method Scenario.post_false) = true
  /\ exists w1,
       logRequest Scenario.repo Scenario.post_false Scenario.logged = (Return 4, w1).
Proof.
  assert (H2 : connected (dbService Scenario.repo) Scenario.logged = true)
    by (vm_compute; reflexivity).
  assert (H3 : faults Scenario.logged = []) by (vm_compute; reflexivity).
  assert (H4 : provisioned (store Scenario.logged) = true) by (vm_compute; reflexivity).
  assert (H5 : (String.length (endpoint Scenario.post_false) <= 500)%nat)
    by (apply Nat.leb_le; vm_compute; reflexivity).
  assert (H6 : (String.length (method Scenario.post_false) <= 10)%nat)
    by (apply Nat.leb_le; vm_compute; reflexivity).
  assert (H7 : no_nul (endpoint Scenario.post_false) = true)
    by (vm_compute; reflexivity).
  assert (H8 : no_nul (method Scenario.post_false) = true)
    by (vm_compute; reflexivity).
  assert (H9 : storable_json (json_or_null (record_value (headers Scenario.post_false)))
               = true) by (vm_compute; reflexivity).
  assert (H10 : storable_json (json_or_null (body Scenario.post_false)) = true)
    by (vm_compute; reflexivity).
  split; [exact H2|]. split; [exact H3|]. split; [exact H4|].
  split; [exact keyed_logged|]. split; [exact H5|]. split; [exact H6|].
  split; [exact H7|]. split; [exact H8|].
  destruct (log_then_read_back Scenario.repo Scenario.post_false Scenario.logged
              H2 H3 H4 keyed_logged H5 H6 H7 H8 H9 H10) as (w1 & E & _).
  exists w1. rewrite E.
  replace (Pg.requests_seq (store Scenario.logged)) with 4 by (vm_compute; reflexivity).
  reflexivity.
Defined.

End RoundTrip.

(** ** The instrumented client: bounds *)

Section ClientBounds.
Import ApiClientService Shape.

(** In the model a URL that does not fit the endpoint column is refused
    by the store. *)
Lemma oversized_url_run :
  forall (this : t) (repo : ApiLogRepository.t) (call : Call) (w : World),
    logRepository this = Some repo ->
    connected (ApiLogRepository.dbService repo) w = true ->
    faults w = [] ->
    provisioned (store w) = true ->
    Pg.varchar 500 (call_url this call) = None ->
    let w' := snd (perform this call w) in
    fst (perform this call w)
    = Throw (Pg.error "value too long for type character varying")
    /\ network w' = network w
    /\ Pg.requests (store w') = Pg.requests (store w)
    /\ Pg.responses (store w') = Pg.responses (store w).
Proof.
  intros this repo call w Hrepo C F P V. cbv zeta.
  destruct (provisioned_tables _ P) as [Tq _].
  assert (E : ApiLogRepository.logRequest repo (request_of this call) w
              = (Throw (Pg.error "value too long for type character varying"),
                 snd (ApiLogRepository.logRequest repo (request_of this call) w))
              /\ Pg.requests (store (snd (ApiLogRepository.logRequest repo
                                            (request_of this call) w)))
                 = Pg.requests (store w)
              /\ Pg.responses (store (snd (ApiLogRepository.logRequest repo
                                             (request_of this call) w)))
                 = Pg.responses (store w)).
  { rewrite logRequest_run. rewrite query_healthy by assumption.
    cbn [Pg.exec]. unfold Pg.with_requests. cbn [fst snd Pg.requests_table].
    rewrite !Tq. rewrite request_of_endpoint, !V. repeat split. }
  destruct E as (E & Rq & Rs).
  destruct (request_write_failure_stops_call this repo call w _ _ Hrepo E) as [H1 H2].
  rewrite H1. cbn [fst snd]. repeat split; assumption.
Qed.

(** X7. A URL that does not fit the endpoint column, [varchar(500)], cannot
    be logged: through a client that logs, over a live connection to the
    provisioned store, the call throws before the HTTP call is made, and
    no row is written. *)
Theorem oversized_url_fails_before_http :
  forall (this : t) (repo : ApiLogRepository.t) (call : Call) (w : World),
    logRepository this = Some repo ->
    connected (ApiLogRepository.dbService repo) w = true ->
    faults w = [] ->
    provisioned (store w) = true ->
    Pg.varchar 500 (call_url this call) = None ->
    let w' := snd (perform this call w) in
    (exists e : Js.Error, fst (perform this call w) = Throw e)
    /\ network w' = network w
    /\ Pg.requests (store w') = Pg.requests (store w)
    /\ Pg.responses (store w') = Pg.responses (store w).
Proof.
  intros this repo call w Hrepo C F P V. cbv zeta.
  destruct (oversized_url_run this repo call w Hrepo C F P V) as (E & N & Rq & Rs).
  split; [eexists; exact E|]. repeat split; assumption.
Qed.

(** X7 for a GET of a 601-character endpoint. *)
Lemma oversized_url_fails_before_http_witness :
  let this := Scenario.client Scenario.ctx_ok in
  let call := Get Scenario.long_endpoint Scenario.no_get_options in
  logRepository this = Some Scenario.repo
  /\ connected (ApiLogRepository.dbService Scenario.repo) Scenario.ready = true
  /\ faults Scenario.ready = []
  /\ provisioned (store Scenario.ready) = true
  /\ Pg.varchar 500 (call_url this call) = None
  /\ network (snd (perform this call Scenario.ready)) = network Scenario.ready.
Proof.
  cbv zeta.
  assert (H1 : logRepository (Scenario.client Scenario.ctx_ok) = Some Scenario.repo)
    by reflexivity.
  assert (H2 : connected (ApiLogRepository.dbService Scenario.repo) Scenario.ready = true)
    by reflexivity.
  assert (H3 : faults Scenario.ready = []) by reflexivity.
  assert (H4 : provisioned (store Scenario.ready) = true) by reflexivity.
  assert (H5 : Pg.varchar 500
                 (call_url (Scenario.client Scenario.ctx_ok)
                    (Get Scenario.long_endpoint Scenario.no_get_options)) = None)
    by (vm_compute; reflexivity).
  split; [exact H1|]. split; [exact H2|]. split; [exact H3|].
  split; [exact H4|]. split; [exact H5|].
  exact (proj1 (proj2 (oversized_url_fails_before_http
                         (Scenario.client Scenario.ctx_ok) Scenario.repo
                         (Get Scenario.long_endpoint Scenario.no_get_options)
                         Scenario.ready H1 H2 H3 H4 H5))).
Defined.

Lemma query_statements (this : nat) (q : Pg.Sql) (w : World) :
  statements (snd (DatabaseService.query this q w)) = statements w
  \/ statements (snd (DatabaseService.query this q w)) = (statements w ++ [q])%list.
Proof.
  destruct (connected this w) eqn:C.
  - right. rewrite query_run by assumption.
    rewrite <- (statements_sent q w).
    destruct (faults w) as [|[|] fs]; try reflexivity;
      destruct (Pg.exec q (now w) (store w)) as [[e|r] s']; reflexivity.
  - left. destruct (query_unconnected this q w C) as [e ->]. reflexivity.
Qed.

Lemma logRequest_sends repo request w :
  exists l,
    statements (snd (ApiLogRepository.logRequest repo request w))
    = (statements w ++ l)%list
    /\ (List.length l <= 1)%nat
    /\ forallb is_request_insert l = true.
Proof.
  rewrite logRequest_run.
  match goal with |- context [DatabaseService.query ?a ?q w] =>
    destruct (query_statements a q w) as [H|H];
    destruct (DatabaseService.query a q w) as [[r|e] w1] end;
    simpl in H; simpl; rewrite ?row_id_run, H.
  1, 2: exists []; rewrite app_nil_r; repeat split; simpl; lia.
  1, 2: eexists [_]; split; [reflexivity|]; split; [simpl; lia | reflexivity].
Qed.

Lemma logResponse_sends repo record w :
  exists l,
    statements (snd (ApiLogRepository.logResponse repo record w))
    = (statements w ++ l)%list
    /\ (List.length l <= 1)%nat
    /\ forallb is_insert l = true
    /\ filter is_request_insert l = [].
Proof.
  rewrite logResponse_repo_run.
  match goal with |- context [DatabaseService.query ?a ?q w] =>
    destruct (query_statements a q w) as [H|H];
    destruct (DatabaseService.query a q w) as [[r|e] w1] end;
    simpl in H; simpl; rewrite ?row_id_run, H.
  1, 2: exists []; rewrite app_nil_r; repeat split; simpl; lia.
  1, 2: eexists [_]; split; [reflexivity|]; split; [simpl; lia | split; reflexivity].
Qed.

Lemma guarded_error_write_sends repo record w :
  exists l,
    statements (snd (guarded_error_write repo record w)) = (statements w ++ l)%list
    /\ (List.length l <= 1)%nat
    /\ forallb is_insert l = true
    /\ filter is_request_insert l = [].
Proof.
  rewrite guarded_error_write_eq.
  destruct (logResponse_sends repo record w) as (l & H & R).
  destruct (ApiLogRepository.logResponse repo record w) as [[x|e] w'];
    exists l; split; try exact R; exact H.
Qed.

Lemma request_insert_is_insert (l : list Pg.Sql) :
  forallb is_request_insert l = true -> forallb is_insert l = true.
Proof.
  induction l as [|q l IH]; [reflexivity|]. simpl.
  rewrite !andb_true_iff. intros [H1 H2]. split; [|apply IH; exact H2].
  destruct q; try discriminate; reflexivity.
Qed.

(** X8. Whatever happens, one call of the client sends the store at most
    three statements, all of them inserts into the two log tables and at
    most one of them a request insert; a client without a repository sends
    none. *)
Theorem call_sends_at_most_three_inserts :
  forall (this : t) (call : Call) (w : World),
    exists l : list Pg.Sql,
      statements (snd (perform this call w)) = (statements w ++ l)%list
      /\ (List.length l <= 3)%nat
      /\ forallb is_insert l = true
      /\ (List.length (filter is_request_insert l) <= 1)%nat
      /\ (logRepository this = None -> l = []).
Proof.
  intros this call w.
  rewrite perform_logged_call, logged_call_run.
  destruct (logRepository this) as [repo|] eqn:Hrepo.
  2: { exists []. simpl. rewrite app_nil_r. repeat split; simpl; lia. }
  destruct (logRequest_sends repo (request_of this call) w) as (l1 & S1 & N1 & A1).
  destruct (ApiLogRepository.logRequest repo (request_of this call) w)
    as [[i|e] w1]; simpl in S1.
  2: { exists l1. simpl. repeat split; try assumption; try lia.
       - apply request_insert_is_insert. exact A1.
       - etransitivity; [apply filter_length_le | exact N1].
       - discriminate. }
  cbv zeta.
  assert (S2 : statements (after_send this (http_of this call) w1) = statements w1)
    by reflexivity.
  assert (Fin : forall l2 wf,
            statements wf = (statements (after_send this (http_of this call) w1) ++ l2)%list ->
            (List.length l2 <= 2)%nat ->
            forallb is_insert l2 = true ->
            filter is_request_insert l2 = [] ->
            exists l,
              statements wf = (statements w ++ l)%list
              /\ (List.length l <= 3)%nat
              /\ forallb is_insert l = true
              /\ (List.length (filter is_request_insert l) <= 1)%nat
              /\ (Some repo = None -> l = [])).
  { intros l2 wf H N2 A2 Q2. exists (l1 ++ l2)%list.
    rewrite H, S2, S1, <- app_assoc. split; [reflexivity|].
    rewrite length_app, forallb_app, filter_app, Q2, app_nil_r.
    rewrite (request_insert_is_insert _ A1), A2.
    repeat split; try lia.
    - etransitivity; [apply filter_length_le | exact N1].
    - discriminate. }
  destruct (Http.result (apiContext this (http_of this call))) as [err|response].
  - match goal with |- context [guarded_error_write ?r ?x ?y] =>
      destruct (guarded_error_write_sends r x y) as (l3 & S3 & N3 & A3 & Q3) end.
    cbn [snd]. apply (Fin l3); try assumption. lia.
  - match goal with |- context [ApiLogRepository.logResponse ?r ?x ?y] =>
      destruct (logResponse_sends r x y) as (l2 & H2 & N2 & A2 & Q2);
      destruct (ApiLogRepository.logResponse r x y) as [[x3|e3] w3] end;
      cbn [snd] in *.
    + apply (Fin l2); try assumption. lia.
    + match goal with |- context [guarded_error_write ?r ?x ?y] =>
        destruct (guarded_error_write_sends r x y) as (l3 & S3 & N3 & A3 & Q3) end.
      apply (Fin (l2 ++ l3)%list).
      * rewrite S3, H2, <- app_assoc. reflexivity.
      * rewrite length_app. lia.
      * rewrite forallb_app, A2, A3. reflexivity.
      * rewrite filter_app, Q2, Q3. reflexivity.
Qed.

End ClientBounds.

(** ** The connection manager: life cycle *)

#[local] Instance same_service_preorder : PreOrder same_service.
Proof.
  split.
  - intros w. repeat split.
  - intros a b c (H1 & H2 & H3) (K1 & K2 & K3).
    repeat split; etransitivity; eassumption.
Qed.

#[local] Instance same_checked_out_preorder : PreOrder same_checked_out.
Proof.
  split.
  - intros w. reflexivity.
  - intros a b c H K. unfold same_checked_out in *. congruence.
Qed.

Section ServiceFrames.
Import DatabaseService.

Lemma quiet_service (w w' : World) :
  heap w' = heap w -> instance w' = instance w ->
  live_pools w' = live_pools w -> store w' = store w -> same_service w w'.
Proof. intros H1 H2 H3 _. repeat split; assumption. Qed.

Lemma run_statement_service q : steps same_service (run_statement q).
Proof.
  intros w. unfold run_statement.
  destruct (Pg.exec q (now w) (store w)) as [[e|r] s']; repeat split.
Qed.

(** Connecting, provisioning and releasing leave the service alone. *)
Lemma provision_service (p : nat) :
  steps same_service
    (bind (pool_connect p)
       (fun client =>
          try_finally (DatabaseUtil.initializeDatabase client) (client_release client))).
Proof.
  apply (steps_bind _ same_service_preorder).
  - apply pool_connect_steps;
      first [exact same_service_preorder | exact quiet_service].
  - intros client. apply (steps_try_finally _ same_service_preorder).
    + apply initializeDatabase_steps;
        first [exact same_service_preorder | exact quiet_service
              | exact run_statement_service].
    + apply client_release_steps;
        first [exact same_service_preorder | exact quiet_service].
Qed.

Lemma probe_service (p : nat) :
  steps same_service
    (try_catch
       (bind (pool_query p Pg.SelectNow)
          (fun _ => console_log "PostgreSQL connection established successfully"))
       (fun error =>
          bind (console_log "Failed to connect to PostgreSQL:") (fun _ => throw error))).
Proof.
  apply (steps_try_catch _ same_service_preorder).
  - apply (steps_bind _ same_service_preorder).
    + apply pool_query_steps;
        first [exact same_service_preorder | exact quiet_service
              | exact run_statement_service].
    + intros _. apply console_log_steps;
        first [exact same_service_preorder | exact quiet_service].
  - intros e. apply (steps_bind _ same_service_preorder).
    + apply console_log_steps;
        first [exact same_service_preorder | exact quiet_service].
    + intros _. apply (steps_throw _ same_service_preorder).
Qed.

(** *** The client taken from the pool is given back *)

Ltac checked_step :=
  step_with same_checked_out_preorder ltac:(reflexivity).

Lemma external_checked what : steps same_checked_out (external what).
Proof.
  intros w. unfold external. destruct (faults w) as [|[|] fs]; reflexivity.
Qed.

Lemma run_statement_checked q : steps same_checked_out (run_statement q).
Proof.
  intros w. unfold run_statement.
  destruct (Pg.exec q (now w) (store w)) as [[e|r] s']; reflexivity.
Qed.

Lemma this_fields_checked this : steps same_checked_out (this_fields this).
Proof.
  intros w. unfold this_fields. destruct (nth_error (heap w) this); reflexivity.
Qed.

Lemma new_Pool_checked : steps same_checked_out new_Pool.
Proof. intros w. reflexivity. Qed.

Hint Resolve external_checked run_statement_checked this_fields_checked
  new_Pool_checked : steps.

Lemma pool_query_checked p q : steps same_checked_out (pool_query p q).
Proof. unfold pool_query. repeat checked_step. Qed.

Lemma console_log_checked msg : steps same_checked_out (console_log msg).
Proof. unfold console_log. repeat checked_step. Qed.

Lemma row_exists_checked r : steps same_checked_out (row_exists r).
Proof. unfold row_exists. repeat checked_step. Qed.

Hint Resolve pool_query_checked console_log_checked row_exists_checked : steps.

Lemma initializeDatabase_checked c :
  steps same_checked_out (DatabaseUtil.initializeDatabase c).
Proof.
  unfold DatabaseUtil.initializeDatabase, DatabaseUtil.ensureSchema,
    DatabaseUtil.ensureTable, client_query.
  repeat checked_step.
Qed.

Lemma container_start_checked : steps same_checked_out container_start.
Proof.
  unfold container_start. apply (steps_bind _ same_checked_out_preorder).
  - apply external_checked.
  - intros _ w. reflexivity.
Qed.

Hint Resolve initializeDatabase_checked container_start_checked : steps.

Lemma provision_checked (p : nat) :
  steps same_checked_out
    (bind (pool_connect p)
       (fun client =>
          try_finally (DatabaseUtil.initializeDatabase client) (client_release client))).
Proof.
  intros w. unfold bind, pool_connect at 1, bind, gets, throw, modify, external, ret.
  destruct (negb (alive p (live_pools w))); [reflexivity|].
  simpl.
  assert (T : forall w0,
            checked_out
              (snd (try_finally (DatabaseUtil.initializeDatabase p) (client_release p)
                      (set_checked_out (S (checked_out w0)) w0)))
            = checked_out w0).
  { intros w0. unfold try_finally.
    pose proof (initializeDatabase_checked p (set_checked_out (S (checked_out w0)) w0))
      as H.
    unfold same_checked_out in H.
    destruct (DatabaseUtil.initializeDatabase p _) as [[u|e] w1]; simpl in *;
      rewrite H; reflexivity. }
  unfold same_checked_out.
  destruct (faults w) as [|[|] fs]; simpl.
  - apply T.
  - reflexivity.
  - exact (T (set_faults fs w)).
Qed.

Hint Resolve provision_checked : steps.

(** X9. [initialize] gives back the client it takes from the pool:
    whatever fails on the way (the container, the probe, the connection,
    a statement of the provisioning), as many clients are checked out
    after the call as before it. *)
Theorem initialize_releases_its_client :
  forall (this : nat) (useTestContainer : bool) (w : World),
    checked_out (snd (initialize this useTestContainer w)) = checked_out w.
Proof.
  intros this b.
  change (steps same_checked_out (initialize this b)).
  unfold initialize.
  apply (steps_bind _ same_checked_out_preorder); [apply this_fields_checked|].
  intros o. destruct (pool o) as [p|]; [apply console_log_checked|].
  apply (steps_bind _ same_checked_out_preorder);
    [apply (steps_gets _ same_checked_out_preorder)|].
  intros prod. apply (steps_bind _ same_checked_out_preorder).
  - destruct (b && negb prod);
      unfold initializeTestContainer, initializeFromConfig, this_update;
      repeat checked_step.
  - intros _. apply (steps_bind _ same_checked_out_preorder);
      [apply this_fields_checked|].
    intros o'. destruct (pool o') as [p|].
    + apply provision_checked.
    + apply (steps_throw _ same_checked_out_preorder).
Qed.

End ServiceFrames.

Section ServiceLifeCycle.
Import DatabaseService.

(** After [getInstance] the one service object is at address 0. *)
Lemma single_after_getInstance (w : World) :
  single w ->
  exists o, getInstance w = (Return 0%nat, snd (getInstance w))
            /\ single (snd (getInstance w))
            /\ heap (snd (getInstance w)) = [o]
            /\ live_pools (snd (getInstance w))
               = match pool o with Some p => [p] | None => [] end.
Proof.
  intros S.
  pose proof (getInstance_single w S) as S1.
  pose proof (single_getInstance w S) as G.
  assert (I : instance (snd (getInstance w)) = Some 0%nat).
  { unfold getInstance in *. unfold single in S.
    destruct (instance w) as [a|] eqn:I; simpl in *.
    - destruct S as [-> _]. exact I.
    - destruct S as [-> _]. reflexivity. }
  unfold single in S1. rewrite I in S1. destruct S1 as [_ [o [H1 H2]]].
  exists o. repeat split.
  - destruct (getInstance w) as [c w1]. simpl in *. rewrite G. reflexivity.
  - apply getInstance_single, S.
  - exact H1.
  - exact H2.
Qed.

(** X10. Through every history of a process, [isInitialized] tells whether
    a query reaches the server: when it answers true the statement is sent
    over the pool, and when it answers false [query] throws the error of
    [getPool] and nothing else happens. *)
Theorem isInitialized_decides_query :
  forall (s0 : Pg.Store) (fs : list bool) (t0 : Z) (prod : bool) (base : string)
         (ops : list Op) (q : Pg.Sql),
    let w := run_ops ops (boot s0 fs t0 prod base) in
    let w0 := snd (getInstance w) in
    exists b : bool,
      bind getInstance isInitialized w = (Return b, w0)
      /\ connected 0 w0 = b
      /\ if b
         then statements (snd (bind getInstance (fun a => query a q) w))
              = (statements w ++ [q])%list
         else bind getInstance (fun a => query a q) w
              = (Throw (Js.new_Error "Database not initialized. Call initialize() first."),
                 w0).
Proof.
  intros s0 fs t0 prod base ops q w w0.
  assert (S : single w) by (apply run_ops_single, boot_single).
  destruct (single_after_getInstance w S) as (o & G & S0 & H & L).
  fold w0 in G, S0, H, L.
  assert (St : statements w0 = statements w).
  { unfold w0, getInstance. destruct (instance w); reflexivity. }
  exists (match pool o with Some _ => true | None => false end).
  split; [|split].
  - unfold bind. rewrite G. unfold isInitialized, bind, this_fields, ret.
    rewrite H. reflexivity.
  - unfold connected. rewrite H. simpl. rewrite L.
    destruct (pool o) as [p|]; [|reflexivity].
    simpl. rewrite Nat.eqb_refl. reflexivity.
  - destruct (pool o) as [p|] eqn:P.
    + unfold bind at 1. rewrite G.
      assert (C : connected 0 w0 = true).
      { unfold connected. rewrite H. simpl. rewrite P, L. simpl.
        rewrite Nat.eqb_refl. reflexivity. }
      rewrite (query_run 0 q w0 C). rewrite <- St, <- (statements_sent q w0).
      destruct (faults w0) as [|[|] fs']; try reflexivity;
        destruct (Pg.exec q (now w0) (store w0)) as [[e|r] s']; reflexivity.
    + unfold bind at 1. rewrite G.
      unfold query, getPool, bind, this_fields, throw. rewrite H. simpl.
      rewrite P. reflexivity.
Qed.

(** What [close] does to the one service object of a process. *)
Lemma close_run (w : World) (o : DatabaseServiceFields) :
  heap w = [o] ->
  live_pools w = match pool o with Some p => [p] | None => [] end ->
  forall w1, close 0 w = (Return tt, w1) ->
    heap w1 = [mkDatabaseService None None (isTestContainerMode o)]
    /\ live_pools w1 = []
    /\ instance w1 = instance w
    /\ store w1 = store w
    /\ statements w1 = statements w.
Proof.
  intros H L w1.
  unfold close, pool_end, container_stop, this_update, console_log, this_fields,
    bind, gets, modify, external, throw, ret.
  destruct o as [[p|] [c|] m]; simpl in L;
    destruct (faults w) as [|[|] [|[|] fs]] eqn:F;
    repeat (progress (simpl; rewrite ?H, ?L, ?F, ?Nat.eqb_refl));
    intros E; inversion E; subst; simpl; rewrite ?H, ?L; simpl;
    rewrite ?Nat.eqb_refl; repeat split; reflexivity.
Qed.

(** X11. Through every history of a process, a [close] that returns has
    ended the pool: no pool is live, [isInitialized] answers false, and
    closing once more returns at once and changes nothing. *)
Theorem close_ends_the_pool :
  forall (s0 : Pg.Store) (fs : list bool) (t0 : Z) (prod : bool) (base : string)
         (ops : list Op) (w1 : World),
    let w := run_ops ops (boot s0 fs t0 prod base) in
    bind getInstance close w = (Return tt, w1) ->
    live_pools w1 = []
    /\ bind getInstance isInitialized w1 = (Return false, w1)
    /\ bind getInstance close w1 = (Return tt, w1).
Proof.
  intros s0 fs t0 prod base ops w1 w E.
  assert (S : single w) by (apply run_ops_single, boot_single).
  destruct (single_after_getInstance w S) as (o & G & S0 & H & L).
  unfold bind in E at 1. rewrite G in E.
  destruct (close_run _ o H L w1 E) as (H1 & L1 & I1 & St1 & _).
  assert (I0 : instance (snd (getInstance w)) = Some 0%nat).
  { unfold single in S0. destruct (instance (snd (getInstance w))) as [a|].
    - destruct S0 as [-> _]. reflexivity.
    - destruct S0 as [K _]. rewrite K in H. discriminate. }
  assert (G1 : getInstance w1 = (Return 0%nat, w1)).
  { unfold getInstance. rewrite I1, I0. reflexivity. }
  split; [exact L1|]. split.
  - unfold bind. rewrite G1. unfold isInitialized, bind, this_fields, ret.
    rewrite H1. reflexivity.
  - unfold bind at 1. rewrite G1.
    unfold close, this_fields, bind, ret. rewrite H1. simpl. rewrite H1.
    reflexivity.
Qed.

Lemma close_ends_the_pool_witness :
  let w := run_ops [OpInitialize true] (boot Pg.empty [] 1000 false Scenario.base) in
  let w1 := snd (bind getInstance close w) in
  bind getInstance close w = (Return tt, w1)
  /\ live_pools w1 = []
  /\ bind getInstance isInitialized w1 = (Return false, w1)
  /\ bind getInstance close w1 = (Return tt, w1).
Proof.
  cbv zeta.
  assert (E : bind getInstance close
                (run_ops [OpInitialize true] (boot Pg.empty [] 1000 false Scenario.base))
              = (Return tt,
                 snd (bind getInstance close
                        (run_ops [OpInitialize true]
                           (boot Pg.empty [] 1000 false Scenario.base)))))
    by (vm_compute; reflexivity).
  split; [exact E|].
  exact (close_ends_the_pool Pg.empty [] 1000 false Scenario.base [OpInitialize true]
           _ E).
Defined.

End ServiceLifeCycle.

Section ServiceInitialize.
Import DatabaseService.

Lemma nth_error_update_at (this : nat) f (h : list DatabaseServiceFields) o :
  nth_error h this = Some o ->
  nth_error (update_at this f h) this = Some (f o).
Proof.
  revert this. induction h as [|x h IH]; intros [|n] E; simpl in *;
    try discriminate.
  - inversion E. reflexivity.
  - apply IH, E.
Qed.

Lemma alive_snoc (p : nat) (l : list nat) : alive p (l ++ [p]) = true.
Proof.
  unfold alive. rewrite existsb_app. simpl. rewrite Nat.eqb_refl.
  rewrite orb_true_r. reflexivity.
Qed.

Lemma provision_heap this : steps same_service (provision this).
Proof.
  unfold provision. apply (steps_bind _ same_service_preorder).
  - apply this_fields_steps;
      first [exact same_service_preorder | exact quiet_service].
  - intros o. destruct (pool o) as [p|].
    + apply provision_service.
    + apply (steps_throw _ same_service_preorder).
Qed.

Lemma pool_connect_healthy (p : nat) (w : World) :
  alive p (live_pools w) = true ->
  faults w = [] ->
  pool_connect p w = (Return p, set_checked_out (S (checked_out w)) w).
Proof.
  intros A F. unfold pool_connect, bind, gets, modify, external, throw, ret.
  rewrite A. simpl. rewrite F. reflexivity.
Qed.

Lemma provision_run (this : nat) (w : World) (o : DatabaseServiceFields) (p : nat) :
  nth_error (heap w) this = Some o ->
  pool o = Some p ->
  alive p (live_pools w) = true ->
  faults w = [] ->
  exists w',
    provision this w = (Return tt, w')
    /\ heap w' = heap w
    /\ live_pools w' = live_pools w
    /\ store w' = initialized (store w)
    /\ faults w' = [].
Proof.
  intros E P A F.
  assert (X : exists w', provision this w = (Return tt, w')
                         /\ store w' = initialized (store w) /\ faults w' = []).
  { unfold provision. unfold bind at 1, this_fields at 1. rewrite E, P.
    unfold bind at 1. rewrite (pool_connect_healthy p w A F).
    set (w1 := set_checked_out (S (checked_out w)) w).
    assert (Hw1 : healthy p w1) by (split; assumption).
    destruct (initializeDatabase_spec p w1 Hw1)
      as (w2 & R & (A2 & F2) & _ & St & _).
    unfold try_finally. rewrite R.
    unfold client_release, modify.
    eexists. split; [reflexivity|]. simpl. split; assumption. }
  destruct X as (w' & R & St & F').
  pose proof (provision_heap this w) as (Hh & _ & Hl).
  rewrite R in Hh, Hl. simpl in Hh, Hl.
  exists w'. repeat split; assumption.
Qed.

Lemma initializeTestContainer_run (this : nat) (w : World) (o : DatabaseServiceFields) :
  nth_error (heap w) this = Some o ->
  faults w = [] ->
  exists w1,
    initializeTestContainer this w = (Return tt, w1)
    /\ nth_error (heap w1) this
       = Some (set_isTestContainerMode true
                 (set_pool (Some (S (next_handle w)))
                    (set_container (Some (next_handle w)) o)))
    /\ alive (S (next_handle w)) (live_pools w1) = true
    /\ faults w1 = []
    /\ store w1 = Pg.empty.
Proof.
  intros E F.
  unfold initializeTestContainer, container_start, new_Pool, this_update,
    console_log, bind, modify, external.
  repeat (progress (simpl; rewrite ?F)).
  eexists. split; [reflexivity|]. simpl.
  split; [repeat apply nth_error_update_at; exact E|].
  split; [apply alive_snoc|]. split; [exact F | reflexivity].
Qed.

Lemma initializeFromConfig_run (this : nat) (w : World) (o : DatabaseServiceFields) :
  nth_error (heap w) this = Some o ->
  faults w = [] ->
  exists w1,
    initializeFromConfig this w = (Return tt, w1)
    /\ nth_error (heap w1) this = Some (set_pool (Some (next_handle w)) o)
    /\ alive (next_handle w) (live_pools w1) = true
    /\ faults w1 = []
    /\ store w1 = store w.
Proof.
  intros E F.
  unfold initializeFromConfig, new_Pool, this_update, pool_query, run_statement,
    console_log, try_catch, bind, gets, modify, external, throw.
  repeat (progress (simpl; rewrite ?F, ?alive_snoc)).
  eexists. split; [reflexivity|]. simpl.
  split; [apply nth_error_update_at; exact E|].
  split; [apply alive_snoc|]. split; [exact F | reflexivity].
Qed.

(** X12. On a service that holds no pool, with nothing failing,
    [initialize] returns with the service connected and both log tables
    in place. With a test container the server starts empty; from the
    configuration the rows the server holds are kept. *)
Theorem initialize_connects_and_provisions :
  forall (this : nat) (useTestContainer : bool) (w : World) (o : DatabaseServiceFields),
    nth_error (heap w) this = Some o ->
    pool o = None ->
    faults w = [] ->
    exists w' : World,
      initialize this useTestContainer w = (Return tt, w')
      /\ connected this w' = true
      /\ isInitialized this w' = (Return true, w')
      /\ provisioned (store w') = true
      /\ store w'
         = initialized (if useTestContainer && negb (production w)
                        then Pg.empty else store w)
      /\ Pg.requests (store w')
         = (if useTestContainer && negb (production w) then []
            else Pg.requests (store w))
      /\ Pg.responses (store w')
         = (if useTestContainer && negb (production w) then []
            else Pg.responses (store w)).
Proof.
  intros this b w o E P F.
  assert (Rows : forall s, Pg.requests (initialized s) = Pg.requests s
                           /\ Pg.responses (initialized s) = Pg.responses s).
  { intros s. unfold initialized, table_created, schema_created.
    repeat match goal with |- context [if ?c then _ else _] => destruct c end;
      split; reflexivity. }
  assert (Finish : forall w0 w' o' p,
             provision this w0 = (Return tt, w') ->
             heap w' = heap w0 -> live_pools w' = live_pools w0 ->
             nth_error (heap w0) this = Some o' -> pool o' = Some p ->
             alive p (live_pools w0) = true ->
             connected this w' = true /\ isInitialized this w' = (Return true, w')).
  { intros w0 w' o' p _ Hh Hl E' P' A'. split.
    - unfold connected. rewrite Hh, Hl, E', P'. exact A'.
    - unfold isInitialized, bind, this_fields, ret. rewrite Hh, E', P'. reflexivity. }
  unfold initialize. unfold bind at 1, this_fields at 1. rewrite E, P.
  unfold bind at 1, gets at 1.
  fold (provision this).
  destruct (b && negb (production w)) eqn:Mode.
  - (* a test container *)
    unfold bind at 1.
    destruct (initializeTestContainer_run this w o E F)
      as (w1 & R1 & E1 & A1 & F1 & S1).
    rewrite R1.
    destruct (provision_run this w1 _ (S (next_handle w)) E1 eq_refl A1 F1)
      as (w' & R & Hh & Hl & St & _).
    exists w'. split; [exact R|].
    destruct (Finish w1 w' _ _ R Hh Hl E1 eq_refl A1) as [C I].
    split; [exact C|]. split; [exact I|].
    rewrite St, S1.
    split; [apply initialized_provisioned|].
    split; [reflexivity|].
    destruct (Rows Pg.empty) as [R1' R2']. rewrite R1', R2'. split; reflexivity.
  - (* the configured server *)
    unfold bind at 1.
    destruct (initializeFromConfig_run this w o E F)
      as (w1 & R1 & E1 & A1 & F1 & S1).
    rewrite R1.
    destruct (provision_run this w1 _ (next_handle w) E1 eq_refl A1 F1)
      as (w' & R & Hh & Hl & St & _).
    exists w'. split; [exact R|].
    destruct (Finish w1 w' _ _ R Hh Hl E1 eq_refl A1) as [C I].
    split; [exact C|]. split; [exact I|].
    rewrite St, S1.
    split; [apply initialized_provisioned|].
    split; [reflexivity|].
    destruct (Rows (store w)) as [R1' R2']. rewrite R1', R2'. split; reflexivity.
Qed.

Lemma initialize_connects_and_provisions_witness :
  let w := snd (getInstance Scenario.fresh) in
  nth_error (heap w) 0 = Some new_DatabaseService
  /\ pool new_DatabaseService = None
  /\ faults w = []
  /\ exists w' : World,
       initialize 0 true w = (Return tt, w')
       /\ connected 0 w' = true
       /\ provisioned (store w') = true.
Proof.
  cbv zeta.
  assert (H1 : nth_error (heap (snd (getInstance Scenario.fresh))) 0
               = Some new_DatabaseService) by reflexivity.
  assert (H2 : pool new_DatabaseService = None) by reflexivity.
  assert (H3 : faults (snd (getInstance Scenario.fresh)) = []) by reflexivity.
  split; [exact H1|]. split; [exact H2|]. split; [exact H3|].
  destruct (initialize_connects_and_provisions 0 true
              (snd (getInstance Scenario.fresh)) new_DatabaseService H1 H2 H3)
    as (w' & R & C & _ & P & _).
  exists w'. split; [exact R|]. split; [exact C | exact P].
Defined.

Lemma pooled_is_initialized (this : nat) (w : World) (o : DatabaseServiceFields)
    (p : nat) :
  nth_error (heap w) this = Some o ->
  pool o = Some p ->
  isInitialized this w = (Return true, w)
  /\ forall b, initialize this b w
               = (Return tt, said "Database connection already initialized" w).
Proof.
  intros E P. split.
  - unfold isInitialized, bind, this_fields, ret. rewrite E, P. reflexivity.
  - intros b. unfold initialize, bind, this_fields. rewrite E, P. reflexivity.
Qed.

(** What [initializeTestContainer] leaves, started or not. *)
Lemma initializeTestContainer_cases (this : nat) (w : World) (o : DatabaseServiceFields) :
  nth_error (heap w) this = Some o ->
  (exists fs e, faults w = true :: fs
                /\ initializeTestContainer this w
                   = (Throw e, set_faults fs
                                 (said "Starting PostgreSQL container with TestContainers..."
                                    w)))
  \/ (exists w1 o1,
        initializeTestContainer this w = (Return tt, w1)
        /\ nth_error (heap w1) this = Some o1
        /\ pool o1 = Some (S (next_handle w))).
Proof.
  intros E.
  unfold initializeTestContainer, container_start, new_Pool, this_update,
    console_log, bind, modify, external.
  destruct (faults w) as [|[|] fs] eqn:F;
    repeat (progress (simpl; rewrite ?F)).
  - right. eexists. eexists. split; [reflexivity|]. simpl.
    split; [repeat apply nth_error_update_at; exact E | reflexivity].
  - left. exists fs. eexists. split; reflexivity.
  - right. eexists. eexists. split; [reflexivity|]. simpl.
    split; [repeat apply nth_error_update_at; exact E | reflexivity].
Qed.

(** [initializeFromConfig] sets the pool before it tries the server. *)
Lemma initializeFromConfig_pooled (this : nat) (w : World) (o : DatabaseServiceFields) :
  nth_error (heap w) this = Some o ->
  nth_error (heap (snd (initializeFromConfig this w))) this
  = Some (set_pool (Some (next_handle w)) o).
Proof.
  intros E. unfold initializeFromConfig.
  unfold bind at 1, console_log at 1, modify at 1.
  unfold bind at 1, new_Pool at 1.
  unfold bind at 1, this_update at 1, modify at 1.
  match goal with |- nth_error (heap (snd (?c ?w0))) _ = _ =>
    assert (Hh : heap (snd (c w0)) = heap w0)
      by exact (proj1 (probe_service _ w0));
    rewrite Hh
  end.
  simpl. apply nth_error_update_at. exact E.
Qed.

Lemma provision_pooled (this : nat) (w : World) (o : DatabaseServiceFields) (p : nat) :
  nth_error (heap w) this = Some o ->
  pool o = Some p ->
  nth_error (heap (snd (provision this w))) this = Some o.
Proof.
  intros E P. destruct (provision_heap this w) as (Hh & _). rewrite Hh. exact E.
Qed.

(** X13. An [initialize] that fails after it has created the pool leaves
    the pool in place: [isInitialized] answers true and every later
    [initialize] returns at once without provisioning. Only a container
    that did not start leaves the service as it was. *)
Theorem failed_initialize_keeps_the_pool :
  forall (this : nat) (useTestContainer : bool) (w w' : World)
         (o : DatabaseServiceFields) (e : Js.Error),
    nth_error (heap w) this = Some o ->
    pool o = None ->
    initialize this useTestContainer w = (Throw e, w') ->
    (useTestContainer && negb (production w) = true
     /\ (exists fs, faults w = true :: fs)
     /\ heap w' = heap w /\ live_pools w' = live_pools w
     /\ live_containers w' = live_containers w)
    \/ (isInitialized this w' = (Return true, w')
        /\ forall b : bool,
             initialize this b w'
             = (Return tt, said "Database connection already initialized" w')).
Proof.
  intros this b w w' o e E P.
  unfold initialize. unfold bind at 1, this_fields at 1. rewrite E, P.
  unfold bind at 1, gets at 1. fold (provision this).
  destruct (b && negb (production w)) eqn:Mode.
  - destruct (initializeTestContainer_cases this w o E)
      as [(fs & e' & F & R) | (w1 & o1 & R & E1 & P1)].
    + unfold bind at 1. rewrite R. intros X. inversion X; subst.
      left. split; [reflexivity|]. split; [exists fs; exact F|].
      repeat split.
    + unfold bind at 1. rewrite R. intros X.
      pose proof (provision_pooled this w1 o1 _ E1 P1) as E2.
      rewrite X in E2. simpl in E2.
      right. exact (pooled_is_initialized this w' o1 _ E2 P1).
  - pose proof (initializeFromConfig_pooled this w o E) as E1.
    unfold bind at 1.
    destruct (initializeFromConfig this w) as [[u|e1] w1]; simpl in E1; intros X.
    + pose proof (provision_pooled this w1 _ _ E1 eq_refl) as E2.
      rewrite X in E2. simpl in E2.
      right. exact (pooled_is_initialized this w' _ _ E2 eq_refl).
    + inversion X; subst.
      right. exact (pooled_is_initialized this w' _ _ E1 eq_refl).
Qed.

(** X13 where the configured server refuses the first query. *)
Lemma failed_initialize_keeps_the_pool_witness :
  let w := set_faults [true] (snd (getInstance Scenario.fresh)) in
  let w' := snd (initialize 0 false w) in
  nth_error (heap w) 0 = Some new_DatabaseService
  /\ pool new_DatabaseService = None
  /\ initialize 0 false w = (Throw (Js.new_Error "query failed"), w')
  /\ isInitialized 0 w' = (Return true, w')
  /\ provisioned (store w') = false.
Proof.
  cbv zeta.
  assert (H1 : nth_error (heap (set_faults [true] (snd (getInstance Scenario.fresh)))) 0
               = Some new_DatabaseService) by reflexivity.
  assert (H2 : pool new_DatabaseService = None) by reflexivity.
  assert (H3 : initialize 0 false (set_faults [true] (snd (getInstance Scenario.fresh)))
               = (Throw (Js.new_Error "query failed"),
                  snd (initialize 0 false
                         (set_faults [true] (snd (getInstance Scenario.fresh))))))
    by (vm_compute; reflexivity).
  split; [exact H1|]. split; [exact H2|]. split; [exact H3|].
  split; [|vm_compute; reflexivity].
  destruct (failed_initialize_keeps_the_pool 0 false _ _ _ _ H1 H2 H3)
    as [(M & _) | (I & _)].
  - discriminate M.
  - exact I.
Defined.

End ServiceInitialize.

Section ServiceShutdown.
Import DatabaseService.

Lemma alive_remove_handle (c : nat) (l : list nat) : alive c (remove_handle c l) = false.
Proof.
  unfold alive, remove_handle. induction l as [|x l IH]; simpl; [reflexivity|].
  destruct (Nat.eqb c x) eqn:E; simpl; [exact IH|]. rewrite E. exact IH.
Qed.

Lemma close_healthy (w : World) (o : DatabaseServiceFields) :
  heap w = [o] ->
  live_pools w = match pool o with Some p => [p] | None => [] end ->
  faults w = [] ->
  exists w1,
    close 0 w = (Return tt, w1)
    /\ heap w1 = [mkDatabaseService None None (isTestContainerMode o)]
    /\ live_pools w1 = []
    /\ (forall c, container o = Some c -> alive c (live_containers w1) = false).
Proof.
  intros H L F.
  unfold close, pool_end, container_stop, this_update, console_log, this_fields,
    bind, gets, modify, external, throw, ret.
  destruct o as [[p|] [c|] m]; simpl in L;
    repeat (progress (simpl; rewrite ?H, ?L, ?F, ?Nat.eqb_refl));
    eexists; (split; [reflexivity|]); simpl; rewrite ?H, ?L; simpl;
    rewrite ?Nat.eqb_refl; (split; [reflexivity|]); (split; [reflexivity|]);
    intros c' X; inversion X; subst; apply alive_remove_handle.
Qed.

(** X18. Through every history of a process, with no failure pending and
    no client of the pool checked out, [close] returns: it never ends a
    pool twice. Afterwards no pool is live, the container the service held
    is stopped, and [isInitialized] answers false. *)
Theorem close_succeeds_when_nothing_fails :
  forall (s0 : Pg.Store) (fs : list bool) (t0 : Z) (prod : bool) (base : string)
         (ops : list Op),
    let w := run_ops ops (boot s0 fs t0 prod base) in
    faults w = [] ->
    checked_out w = 0%nat ->
    exists w1 : World,
      bind getInstance close w = (Return tt, w1)
      /\ live_pools w1 = []
      /\ (forall o c, nth_error (heap w) 0 = Some o -> container o = Some c ->
                      alive c (live_containers w1) = false)
      /\ bind getInstance isInitialized w1 = (Return false, w1).
Proof.
  intros s0 fs t0 prod base ops w F _.
  assert (S : single w) by (apply run_ops_single, boot_single).
  destruct (single_after_getInstance w S) as (o & G & S0 & H & L).
  assert (F0 : faults (snd (getInstance w)) = []).
  { unfold getInstance. destruct (instance w); exact F. }
  destruct (close_healthy _ o H L F0) as (w1 & R & H1 & L1 & C1).
  destruct (close_run _ o H L w1 R) as (_ & _ & I1 & _).
  assert (I0 : instance (snd (getInstance w)) = Some 0%nat).
  { unfold single in S0. destruct (instance (snd (getInstance w))) as [a|].
    - destruct S0 as [-> _]. reflexivity.
    - destruct S0 as [K _]. rewrite K in H. discriminate. }
  exists w1. split; [|split; [exact L1|split]].
  - unfold bind at 1. rewrite G. exact R.
  - intros o' c E' C'. apply C1.
    assert (X : heap w = [o]).
    { revert H. unfold getInstance. destruct (instance w) eqn:Iw; simpl; [tauto|].
      unfold single in S. rewrite Iw in S. destruct S as [Hh _]. rewrite Hh in E'.
      discriminate E'. }
    rewrite X in E'. simpl in E'. inversion E'; subst. exact C'.
  - assert (G1 : getInstance w1 = (Return 0%nat, w1)).
    { unfold getInstance. rewrite I1, I0. reflexivity. }
    unfold bind. rewrite G1. unfold isInitialized, bind, this_fields, ret.
    rewrite H1. reflexivity.
Qed.

Lemma close_succeeds_when_nothing_fails_witness :
  let w := run_ops [OpInitialize true] (boot Pg.empty [] 1000 false Scenario.base) in
  faults w = []
  /\ checked_out w = 0%nat
  /\ exists w1 : World,
       bind getInstance close w = (Return tt, w1) /\ live_pools w1 = [].
Proof.
  cbv zeta.
  assert (F : faults (run_ops [OpInitialize true]
                        (boot Pg.empty [] 1000 false Scenario.base)) = [])
    by (vm_compute; reflexivity).
  assert (K : checked_out (run_ops [OpInitialize true]
                             (boot Pg.empty [] 1000 false Scenario.base)) = 0%nat)
    by (vm_compute; reflexivity).
  split; [exact F|]. split; [exact K|].
  destruct (close_succeeds_when_nothing_fails Pg.empty [] 1000 false Scenario.base
              [OpInitialize true] F K) as (w1 & R & L & _).
  exists w1. split; [exact R | exact L].
Defined.

End ServiceShutdown.

(** ** The fixtures *)

Section Fixtures.
Import DatabaseService ApiClientService.

Lemma initialize_returns_pooled (this : nat) (b : bool) (w w' : World) :
  initialize this b w = (Return tt, w') ->
  exists o' p, nth_error (heap w') this = Some o' /\ pool o' = Some p.
Proof.
  unfold initialize. unfold bind at 1, this_fields at 1.
  destruct (nth_error (heap w) this) as [o|] eqn:E; [|discriminate].
  destruct (pool o) as [p|] eqn:P.
  - unfold console_log, modify. intros X. inversion X; subst. simpl.
    exists o, p. split; assumption.
  - unfold bind at 1, gets at 1. fold (provision this). unfold bind at 1.
    destruct ((if b && negb (production w)
               then initializeTestContainer this
               else initializeFromConfig this) w) as [[u|e] w1]; [|discriminate].
    intros X.
    pose proof (provision_heap this w1) as (Hh & _). rewrite X in Hh. simpl in Hh.
    unfold provision in X. unfold bind at 1, this_fields at 1 in X.
    destruct (nth_error (heap w1) this) as [o1|] eqn:E1; [|discriminate].
    destruct (pool o1) as [p1|] eqn:P1; [|discriminate].
    exists o1, p1. rewrite Hh. split; assumption.
Qed.

Lemma new_client_logging (request : Http.APIRequestContext) (w : World)
    (o : DatabaseServiceFields) (p : nat) :
  instance w = Some 0%nat ->
  nth_error (heap w) 0 = Some o ->
  pool o = Some p ->
  new_ApiClientService request true w
  = (Return (mk request (Some (ApiLogRepository.mk 0)) (baseUrl w) true), w).
Proof.
  intros I E P.
  unfold new_ApiClientService, ApiLogRepository.new_ApiLogRepository, isInitialized,
    getInstance, this_fields, bind, gets, ret.
  destruct (heap w) as [|o0 h] eqn:Hw; [discriminate|].
  simpl in E. inversion E; subst o0.
  repeat (progress (simpl; rewrite ?I, ?Hw, ?P)). reflexivity.
Qed.

Lemma single_pooled_connected (w : World) (o : DatabaseServiceFields) (p : nat) :
  single w -> nth_error (heap w) 0 = Some o -> pool o = Some p ->
  instance w = Some 0%nat /\ connected 0 w = true.
Proof.
  intros S E P. destruct (single_at w 0 o S E) as (_ & I & _ & L).
  split; [exact I|]. unfold connected. rewrite E, P, L. rewrite P. simpl.
  rewrite Nat.eqb_refl. reflexivity.
Qed.

(** X14. Through every history of a process, the [apiClientWithDb] fixture
    runs the test body exactly once, as its last step, whatever happens to
    the database: a failed initialization never fails the fixture. The
    client it hands over logs unless the initialization was tried and
    threw, and a client that logs has a connected service behind it. *)
Theorem apiClientWithDb_runs_the_body_once :
  forall (s0 : Pg.Store) (fs : list bool) (t0 : Z) (prod : bool) (base : string)
         (ops : list Op) (request : Http.APIRequestContext),
    let w := run_ops ops (boot s0 fs t0 prod base) in
    let w0 := snd (getInstance w) in
    exists (client : ApiClientService.t) (w1 : World),
      (forall use : ApiClientService.t -> M unit,
          Fixture.apiClientWithDb request use w = use client w1)
      /\ apiContext client = request
      /\ clientBaseUrl client = baseUrl w1
      /\ (forall repo, logRepository client = Some repo ->
                       connected (ApiLogRepository.dbService repo) w1 = true)
      /\ (logRepository client = None <->
          isInitialized 0 w0 = (Return false, w0)
          /\ exists e, fst (initialize 0 true w0) = Throw e).
Proof.
  intros s0 fs t0 prod base ops request w w0.
  assert (S : single w) by (apply run_ops_single, boot_single).
  destruct (single_after_getInstance w S) as (o & G & S0 & H & L).
  fold w0 in G, S0, H, L.
  assert (E0 : nth_error (heap w0) 0 = Some o) by (rewrite H; reflexivity).
  assert (I : isInitialized 0 w0
              = (Return (match pool o with Some _ => true | None => false end), w0)).
  { unfold isInitialized, bind, this_fields, ret. rewrite E0. reflexivity. }
  destruct (pool o) as [p|] eqn:P.
  - (* the service holds a pool *)
    destruct (single_pooled_connected w0 o p S0 E0 P) as [I0 C0].
    exists (mk request (Some (ApiLogRepository.mk 0)) (baseUrl w0) true), w0.
    split; [|split; [reflexivity|split; [reflexivity|split]]].
    + intros use. unfold Fixture.apiClientWithDb.
      unfold bind at 1. rewrite G. unfold bind at 1. rewrite I.
      cbn [negb]. unfold bind at 1, ret at 1.
      unfold bind at 1. rewrite (new_client_logging request w0 o p I0 E0 P).
      reflexivity.
    + intros repo X. inversion X; subst. exact C0.
    + split; [discriminate|]. intros [X _]. rewrite I in X. discriminate.
  - (* no pool yet: initialize is tried *)
    destruct (initialize 0 true w0) as [[[]|e] w'] eqn:R.
    + destruct (initialize_returns_pooled 0 true w0 w' R) as (o' & p' & E' & P').
      assert (S' : single w') by (pose proof (initialize_single 0 true w0 S0) as K;
                                  rewrite R in K; exact K).
      destruct (single_pooled_connected w' o' p' S' E' P') as [I' C'].
      exists (mk request (Some (ApiLogRepository.mk 0)) (baseUrl w') true), w'.
      split; [|split; [reflexivity|split; [reflexivity|split]]].
      * intros use. unfold Fixture.apiClientWithDb.
        unfold bind at 1. rewrite G. unfold bind at 1. rewrite I.
        cbn [negb]. unfold bind at 1, try_catch at 1, bind at 1. rewrite R.
        unfold ret at 1.
        unfold bind at 1. rewrite (new_client_logging request w' o' p' I' E' P').
        reflexivity.
      * intros repo X. inversion X; subst. exact C'.
      * split; [discriminate|]. intros [_ [e X]]. discriminate X.
    + exists (mk request None
                (baseUrl (said "DB initialization failed, running without DB logging:" w'))
                false),
             (said "DB initialization failed, running without DB logging:" w').
      split; [|split; [reflexivity|split; [reflexivity|split]]].
      * intros use. unfold Fixture.apiClientWithDb.
        unfold bind at 1. rewrite G. unfold bind at 1. rewrite I.
        cbn [negb]. unfold bind at 1, try_catch at 1, bind at 1. rewrite R.
        unfold bind at 1, console_log at 1, modify at 1.
        fold (said "DB initialization failed, running without DB logging:" w').
        unfold bind at 1.
        unfold new_ApiClientService at 1, bind at 1, gets at 1, bind at 1, ret at 1,
          ret at 1.
        unfold bind at 1.
        destruct (use _ _) as [[[]|e'] w2]; reflexivity.
      * intros repo X. discriminate X.
      * split; [|reflexivity]. intros _. split; [exact I|].
        exists e. reflexivity.
Qed.

End Fixtures.

(** ** Headers of the calls that carry a body *)

Section Headers.
Import ApiClientService Shape.

Lemma record_get_set (k k' v : string) (r : list (string * string)) :
  record_get k (Js.record_set k' v r)
  = if String.eqb k k' then Some v else record_get k r.
Proof.
  induction r as [|[k2 v2] r IH]; simpl.
  - reflexivity.
  - destruct (String.eqb k' k2) eqn:E2; simpl.
    + apply String.eqb_eq in E2. subst k2.
      destruct (String.eqb k k'); reflexivity.
    + rewrite IH. destruct (String.eqb k k') eqn:E1; [|reflexivity].
      apply String.eqb_eq in E1. subst k'. rewrite E2. reflexivity.
Qed.

Lemma record_get_spread (k : string) (b a : list (string * string)) :
  NoDup (map fst b) ->
  record_get k (Js.spread a b)
  = match record_get k b with
    | Some v => Some v
    | None => record_get k a
    end.
Proof.
  unfold Js.spread. revert a.
  induction b as [|[k1 v1] b IH]; intros a N; simpl.
  - reflexivity.
  - inversion N as [|x l Hnot N']; subst.
    rewrite (IH _ N'). rewrite record_get_set.
    destruct (String.eqb k k1) eqn:E.
    + apply String.eqb_eq in E. subst k1.
      assert (X : record_get k b = None).
      { clear -Hnot. induction b as [|[k2 v2] b IH]; simpl in *; [reflexivity|].
        destruct (String.eqb k k2) eqn:E.
        - apply String.eqb_eq in E. subst. exfalso. apply Hnot. left. reflexivity.
        - apply IH. intros H. apply Hnot. right. exact H. }
      rewrite X. reflexivity.
    + reflexivity.
Qed.

(** X15. [post], [put] and [patch] log and send one and the same header
    record: every header the caller gives, as the caller gives it, and
    [Content-Type: application/json] unless the caller gives a
    [Content-Type] of its own. Header names are compared as they are
    written. *)
Theorem body_calls_default_content_type :
  forall (this : t) (endpoint : string) (options : DataOptions)
         (verb : string -> DataOptions -> Call) (k : string),
    In verb [Post; Put; Patch] ->
    NoDup (map fst (or_empty (data_headers options))) ->
    exists hs : StringRecord,
      headers (request_of this (verb endpoint options)) = Some hs
      /\ Http.headers (http_of this (verb endpoint options)) = Some hs
      /\ perform this (verb endpoint options)
         = logged_call this (request_of this (verb endpoint options))
             (http_of this (verb endpoint options))
      /\ record_get k hs
         = match record_get k (or_empty (data_headers options)) with
           | Some v => Some v
           | None => if String.eqb k "Content-Type" then Some "application/json"
                     else None
           end.
Proof.
  intros this e o verb k V N.
  exists (json_content_type (data_headers o)).
  assert (L : record_get k (json_content_type (data_headers o))
              = match record_get k (or_empty (data_headers o)) with
                | Some v => Some v
                | None => if String.eqb k "Content-Type" then Some "application/json"
                          else None
                end).
  { unfold json_content_type. rewrite (record_get_spread k _ _ N). reflexivity. }
  simpl in V. destruct V as [<- | [<- | [<- | []]]];
    (split; [reflexivity|]); (split; [reflexivity|]);
    (split; [apply perform_logged_call | exact L]).
Qed.

(** X15 for a caller that sets an authorization header and a lower-case
    content type: the default is added beside them. *)
Lemma body_calls_default_content_type_witness :
  let options :=
    mkDataOptions (Js.Obj [("name", Js.Str "Ada")])
      (Some [("Authorization", "Bearer t"); ("content-type", "text/plain")]) in
  NoDup (map fst (or_empty (data_headers options)))
  /\ headers (request_of (Scenario.client Scenario.ctx_ok) (Post "/users/add" options))
     = Some [("Content-Type", "application/json"); ("Authorization", "Bearer t");
             ("content-type", "text/plain")].
Proof.
  cbv zeta.
  assert (N : NoDup (map fst (or_empty (data_headers
                (mkDataOptions (Js.Obj [("name", Js.Str "Ada")])
                   (Some [("Authorization", "Bearer t");
                          ("content-type", "text/plain")])))))).
  { simpl. constructor.
    - simpl. intros [H | []]. discriminate H.
    - constructor; [intros [] | constructor]. }
  split; [exact N|].
  destruct (body_calls_default_content_type (Scenario.client Scenario.ctx_ok)
              "/users/add" _ Post "Content-Type" (or_introl eq_refl) N)
    as (hs & H1 & _).
  rewrite H1. simpl in H1. inversion H1. reflexivity.
Defined.

End Headers.

(** ** Provisioning deletes nothing *)

#[local] Instance grows_preorder : PreOrder grows.
Proof.
  split.
  - intros w. unfold grows, store_grows. repeat split; apply incl_refl.
  - intros a b c (A1 & A2 & A3 & A4 & A5 & A6) (B1 & B2 & B3 & B4 & B5 & B6).
    unfold grows, store_grows.
    repeat split; try congruence; eapply incl_tran; eassumption.
Qed.

Section Provisioning.
Import DatabaseService.

Lemma grows_same (w w' : World) : store w' = store w -> grows w w'.
Proof. intros H. unfold grows. rewrite H. apply grows_preorder. Qed.

Ltac grow_step := step_with grows_preorder ltac:(apply grows_same; reflexivity).

Lemma external_grows what : steps grows (external what).
Proof.
  intros w. unfold external.
  destruct (faults w) as [|[|] fs]; apply grows_same; reflexivity.
Qed.

Lemma run_statement_grows q : is_insert q = false -> steps grows (run_statement q).
Proof.
  intros Hq w. unfold run_statement.
  destruct (Pg.exec q (now w) (store w)) as [r s'] eqn:X.
  assert (G : store_grows (store w) s').
  { destruct q; try discriminate Hq; simpl in X;
      unfold Pg.with_requests, Pg.with_responses in X;
      repeat match type of X with
             | context [if ?c then _ else _] => destruct c
             | context [match ?c with _ => _ end] => destruct c
             end;
      inversion X; subst; unfold store_grows; simpl;
      repeat split; try apply incl_refl; try (apply incl_appl, incl_refl). }
  destruct r as [e|r]; exact G.
Qed.

Lemma pool_query_grows p q : is_insert q = false -> steps grows (pool_query p q).
Proof.
  intros Hq. unfold pool_query.
  apply (steps_bind _ grows_preorder); [apply (steps_gets _ grows_preorder)|].
  intros live. destruct (negb live); [apply (steps_throw _ grows_preorder)|].
  apply (steps_bind _ grows_preorder).
  - apply steps_modify. intros w. apply grows_same. reflexivity.
  - intros _. apply (steps_bind _ grows_preorder); [apply external_grows|].
    intros _. apply run_statement_grows, Hq.
Qed.

Lemma this_fields_grows this : steps grows (this_fields this).
Proof.
  intros w. unfold this_fields.
  destruct (nth_error (heap w) this); apply grows_same; reflexivity.
Qed.

Lemma new_Pool_grows : steps grows new_Pool.
Proof. intros w. apply grows_same. reflexivity. Qed.

Lemma console_log_grows msg : steps grows (console_log msg).
Proof. intros w. apply grows_same. reflexivity. Qed.

Lemma row_exists_grows r : steps grows (row_exists r).
Proof. unfold row_exists. repeat grow_step. Qed.

Lemma pool_connect_grows p : steps grows (pool_connect p).
Proof.
  unfold pool_connect.
  apply (steps_bind _ grows_preorder); [apply (steps_gets _ grows_preorder)|].
  intros live. destruct (negb live); [apply (steps_throw _ grows_preorder)|].
  apply (steps_bind _ grows_preorder); [apply external_grows|].
  intros _. apply (steps_bind _ grows_preorder).
  - apply steps_modify. intros w. apply grows_same. reflexivity.
  - intros _. apply (steps_ret _ grows_preorder).
Qed.

Lemma client_release_grows c : steps grows (client_release c).
Proof. intros w. apply grows_same. reflexivity. Qed.

Hint Resolve this_fields_grows new_Pool_grows console_log_grows row_exists_grows
  pool_connect_grows client_release_grows : steps.
Hint Extern 1 (steps grows (pool_query _ _)) =>
  apply pool_query_grows; reflexivity : steps.

Lemma initializeDatabase_grows c : steps grows (DatabaseUtil.initializeDatabase c).
Proof.
  unfold DatabaseUtil.initializeDatabase, DatabaseUtil.ensureSchema,
    DatabaseUtil.ensureTable, client_query,
    DatabaseUtil.createRequestsTableQuery, DatabaseUtil.createResponsesTableQuery.
  repeat grow_step.
Qed.

Hint Resolve initializeDatabase_grows : steps.

(** X16. Provisioning deletes nothing, whatever fails on the way:
    [initializeDatabase], and [initialize] against the configured server,
    leave every logged row and both sequences as they were, and every
    schema and table the server had is still there. *)
Theorem provisioning_deletes_nothing :
  forall (this client : nat) (w : World),
    store_grows (store w) (store (snd (DatabaseUtil.initializeDatabase client w)))
    /\ store_grows (store w) (store (snd (initialize this false w))).
Proof.
  intros this client w. split.
  - exact (initializeDatabase_grows client w).
  - change (grows w (snd (initialize this false w))). revert w.
    change (steps grows (initialize this false)).
    unfold initialize, initializeFromConfig, this_update. cbn [andb].
    repeat grow_step.
Qed.

End Provisioning.

(** ** The address test *)

Section Email.
Import RegExp.
Local Open Scope string_scope.

Lemma str_app_nil_r (s : string) : s ++ "" = s.
Proof. induction s as [|c s IH]; simpl; [reflexivity | rewrite IH; reflexivity]. Qed.

Lemma str_app_assoc (a b c : string) : (a ++ b) ++ c = a ++ (b ++ c).
Proof. induction a as [|x a IH]; simpl; [reflexivity | rewrite IH; reflexivity]. Qed.

Lemma str_app_eq_nil (a b : string) : a ++ b = "" -> a = "" /\ b = "".
Proof. destruct a; simpl; intros H; [split; [reflexivity | exact H] | discriminate]. Qed.

Lemma str_app_eq_cons (a b : string) (c : ascii) (s : string) :
  a ++ b = String c s ->
  (a = "" /\ b = String c s) \/ (exists a', a = String c a' /\ s = a' ++ b).
Proof.
  destruct a as [|x a]; simpl; intros H.
  - left. split; [reflexivity | exact H].
  - right. inversion H; subst. exists a. split; reflexivity.
Qed.

Lemma nullable_matches (r : RegExp.t) : nullable r = true <-> matches r "".
Proof.
  split.
  - induction r; simpl; intros H; try discriminate.
    + constructor.
    + apply andb_true_iff in H. destruct H as [H1 H2].
      change "" with ("" ++ ""). constructor; auto.
    + apply orb_true_iff in H. destruct H as [H|H];
        [apply matches_alt_l | apply matches_alt_r]; auto.
    + constructor.
  - intros H. remember "" as s eqn:Es.
    induction H; simpl; try reflexivity; try discriminate.
    + apply str_app_eq_nil in Es. destruct Es as [E1 E2].
      rewrite (IHmatches1 E1), (IHmatches2 E2). reflexivity.
    + rewrite (IHmatches Es). reflexivity.
    + rewrite (IHmatches Es). apply orb_true_r.
Qed.

(** A non-empty match of [r*] starts with a non-empty match of [r]. *)
Lemma star_cons_inv (r : RegExp.t) (c : ascii) (s : string) :
  matches (Star r) (String c s) ->
  exists s1 s2, s = s1 ++ s2 /\ matches r (String c s1) /\ matches (Star r) s2.
Proof.
  intros H. remember (Star r) as r0 eqn:Er. remember (String c s) as s0 eqn:Es.
  revert s Es.
  induction H; intros s' Es; try discriminate.
  inversion Er; subst r0.
  destruct (str_app_eq_cons _ _ _ _ Es) as [[E1 E2] | (a' & E1 & E2)].
  - subst. apply (IHmatches2 eq_refl s' eq_refl).
  - subst. exists a', s2. repeat split; assumption.
Qed.

Lemma after_matches (r : RegExp.t) (c : ascii) (s : string) :
  matches (after c r) s <-> matches r (String c s).
Proof.
  revert s. induction r as [| |p|r1 IH1 r2 IH2|r1 IH1 r2 IH2|r1 IH1]; intros s; simpl.
  - split; intros H; inversion H.
  - split; intros H; inversion H.
  - destruct (p c) eqn:Pc; split; intros H.
    + inversion H; subst. constructor. exact Pc.
    + inversion H; subst. constructor.
    + inversion H.
    + inversion H; subst. congruence.
  - split.
    + intros H.
      assert (K : matches (Seq (after c r1) r2) s -> matches (Seq r1 r2) (String c s)).
      { intros K. inversion K as [| |x1 x2 s1 s2 K1 K2 E1 E2| | | |]; subst.
        change (String c (s1 ++ s2)) with (String c s1 ++ s2).
        constructor; [apply IH1; assumption | assumption]. }
      destruct (nullable r1) eqn:N; [|exact (K H)].
      inversion H as [| | |x1 x2 s0 Hl|x1 x2 s0 Hr| |]; subst; [exact (K Hl)|].
      change (String c s) with ("" ++ String c s).
      constructor; [apply nullable_matches; exact N | apply IH2; assumption].
    + intros H. inversion H as [| |x1 x2 s1 s2 H1 H2 E1 E2| | | |]; subst.
      destruct (str_app_eq_cons _ _ _ _ E2) as [[Ea Eb] | (a' & Ea & Eb)]; subst.
      * assert (N : nullable r1 = true) by (apply nullable_matches; exact H1).
        rewrite N. apply matches_alt_r. apply IH2. exact H2.
      * assert (K : matches (Seq (after c r1) r2) (a' ++ s2))
          by (constructor; [apply IH1; exact H1 | exact H2]).
        destruct (nullable r1); [apply matches_alt_l|]; exact K.
  - split; intros H.
    + inversion H; subst;
        [apply matches_alt_l; apply IH1 | apply matches_alt_r; apply IH2]; assumption.
    + inversion H; subst;
        [apply matches_alt_l; apply IH1 | apply matches_alt_r; apply IH2]; assumption.
  - split; intros H.
    + inversion H as [| |x1 x2 s1 s2 K1 K2 E1 E2| | | |]; subst.
      change (String c (s1 ++ s2)) with (String c s1 ++ s2).
      constructor; [apply IH1; assumption | assumption].
    + destruct (star_cons_inv r1 c s H) as (s1 & s2 & E & H1 & H2). subst.
      constructor; [apply IH1; exact H1 | exact H2].
Qed.

(** [test] decides the match. *)
Lemma test_matches (r : RegExp.t) (s : string) : test r s = true <-> matches r s.
Proof.
  revert r. induction s as [|c s IH]; intros r; simpl.
  - apply nullable_matches.
  - rewrite IH. apply after_matches.
Qed.

Lemma star_class (p : ascii -> bool) (s : string) :
  matches (Star (Class p)) s <-> all_chars p s = true.
Proof.
  split.
  - intros H. remember (Star (Class p)) as r eqn:Er.
    induction H; try discriminate; [reflexivity|].
    inversion Er; subst r. inversion H as [|p0 c0 Hc| | | | |]; subst. simpl.
    rewrite Hc. simpl. apply IHmatches2. reflexivity.
  - induction s as [|c s IH]; simpl; intros H.
    + constructor.
    + apply andb_true_iff in H. destruct H as [H1 H2].
      change (String c s) with (String c "" ++ s).
      constructor; [constructor; exact H1 | apply IH; exact H2].
Qed.

Lemma plus_class (p : ascii -> bool) (s : string) :
  matches (Plus (Class p)) s <-> s <> "" /\ all_chars p s = true.
Proof.
  unfold Plus. split.
  - intros H. inversion H as [| |x1 x2 s1 s2 H1 H2 E1 E2| | | |]; subst.
    inversion H1 as [|p0 c0 Hc| | | | |]; subst. simpl.
    apply star_class in H2. rewrite Hc, H2. split; [discriminate | reflexivity].
  - intros [Hn Ha]. destruct s as [|c s]; [congruence|].
    simpl in Ha. apply andb_true_iff in Ha. destruct Ha as [H1 H2].
    change (String c s) with (String c "" ++ s).
    constructor; [constructor; exact H1 | apply star_class; exact H2].
Qed.

Lemma class_char (c : ascii) (s : string) :
  matches (Class (Ascii.eqb c)) s <-> s = String c "".
Proof.
  split; intros H.
  - inversion H as [|p0 c0 Hc| | | | |]; subst.
    apply Ascii.eqb_eq in Hc. subst. reflexivity.
  - subst. constructor. apply Ascii.eqb_refl.
Qed.

(** X17. [isValidEmail] accepts exactly the strings of the form
    [local@domain.tail] in which the three parts are not empty and hold
    no white space and no at sign: so one at sign in all, and a dot after
    it that is neither the first nor the last character of what follows
    the at sign. *)
Theorem isValidEmail_accepts_exactly :
  forall email : string,
    ValidationUtil.isValidEmail email = true
    <-> exists local domain tail : string,
          email = local ++ "@" ++ domain ++ "." ++ tail
          /\ address_part local /\ address_part domain /\ address_part tail.
Proof.
  intros email. unfold ValidationUtil.isValidEmail, ValidationUtil.emailRegex.
  rewrite test_matches. unfold address_part. split.
  - intros H.
    inversion H as [| |x1 x2 l s2 Hl H2 E1 E2| | | |]; subst.
    inversion H2 as [| |x1 x2 a s3 Ha H3 E1 E2| | | |]; subst.
    inversion H3 as [| |x1 x2 d s4 Hd H4 E1 E2| | | |]; subst.
    inversion H4 as [| |x1 x2 o t Ho Ht E1 E2| | | |]; subst.
    apply class_char in Ha, Ho. subst a o.
    apply plus_class in Hl, Hd, Ht.
    exists l, d, t. split; [reflexivity|]. repeat split; tauto.
  - intros (l & d & t & E & Hl & Hd & Ht). subst email.
    constructor; [apply plus_class; exact Hl|].
    change ("@" ++ d ++ "." ++ t) with (String "@" "" ++ (d ++ "." ++ t)).
    constructor; [apply class_char; reflexivity|].
    constructor; [apply plus_class; exact Hd|].
    change ("." ++ t) with (String "." "" ++ t).
    constructor; [apply class_char; reflexivity|].
    apply plus_class. exact Ht.
Qed.

End Email.
